(** * hftools: the labeled-array core ([hftools/dataset/arrayobj.py])

    A shallow embedding of the dimension-aware array algebra of hftools:
    the dimension collections [Dims] / [DimsList], the alignment functions
    [dims_union], [change_shape], [make_same_dims], the axis resolvers
    [axis_handler] / [multiple_axis_handler], and the labeled array
    [_hfarray] with construction, transposition, squeezing, indexing,
    reduction, arithmetic and [add_dim]; the module-level constructors
    [make_matrix], [make_vector] and [remove_rep]; and the two line-level
    stages [tokenize] and [group_blocks] of the SP-data reader
    ([hftools/file_formats/spdata.py]).

    Conventions of the embedding.
    - A Python exception is a value [Raise e] of the error monad [result].
    - A numpy buffer is its shape together with the function from a
      multi-index to the element stored there (the logical contents; strides
      and storage sharing are not represented).
    - Python integers are [Z]; positions that Python allows to be negative
      are kept as [Z] and normalised where the interpreter does it.
    - The module [hftools.dataset.dim] is used by [arrayobj.py] through a
      handful of operations on dimension objects.  They are collected in the
      class [DimModule] and every definition is parametric in it.
    - [outputformat] and the array-level [unit] are rendering metadata that
      never influence buffers or dimension collections; they are left out. *)

From Stdlib Require Import String Ascii DecimalString.
From Stdlib Require Import List ZArith Bool Lia Arith.
From Stdlib Require Import Permutation Sorted FinFun.
Import ListNotations.

Set Implicit Arguments.

(* ================================================================== *)
(** * Exceptions *)

Inductive PyError : Type :=
| HFArrayShapeDimsMismatchError
| DimensionMismatchError
| HFArrayError
| IndexError
| KeyError
| ValueError
| AxisError.

Inductive result (A : Type) : Type :=
| Ok (a : A)
| Raise (e : PyError).

Arguments Ok {A} a.
Arguments Raise {A} e.

Definition bind {A B : Type} (r : result A) (k : A -> result B) : result B :=
  match r with
  | Ok a => k a
  | Raise e => Raise e
  end.

Declare Scope py_scope.
Delimit Scope py_scope with py.
Notation "x <- e ;; k" := (bind e (fun x => k))
  (at level 61, e at next level, right associativity) : py_scope.
Notation "' p <- e ;; k" := (bind e (fun x => let p := x in k))
  (at level 61, p pattern, e at next level, right associativity) : py_scope.
Open Scope py_scope.

Fixpoint mapM {A B : Type} (f : A -> result B) (l : list A) : result (list B) :=
  match l with
  | [] => Ok []
  | x :: l' => y <- f x ;; ys <- mapM f l' ;; Ok (y :: ys)
  end.

(* ================================================================== *)
(** * Python sequences *)

Section PySeq.
Context {A : Type}.

(** [l[i]] for a tuple or list: negative positions count from the end. *)
Definition py_getitem (l : list A) (i : Z) : result A :=
  let n := Z.of_nat (length l) in
  let j := if (i <? 0)%Z then (i + n)%Z else i in
  if ((j <? 0) || (n <=? j))%Z then Raise IndexError
  else match nth_error l (Z.to_nat j) with
       | Some x => Ok x
       | None => Raise IndexError
       end.

(** [l.insert(i, x)]: the position is clipped into [0 .. len(l)]. *)
Definition py_insert (l : list A) (i : Z) (x : A) : list A :=
  let n := Z.of_nat (length l) in
  let j := if (i <? 0)%Z then Z.max 0 (i + n) else Z.min i n in
  firstn (Z.to_nat j) l ++ x :: skipn (Z.to_nat j) l.

(** Position of the first element satisfying [p]. *)
Fixpoint find_index (p : A -> bool) (l : list A) : option nat :=
  match l with
  | [] => None
  | x :: l' => if p x then Some 0
               else option_map S (find_index p l')
  end.

(** [del l[i]] for an in-range position. *)
Fixpoint remove_at (i : nat) (l : list A) : list A :=
  match l, i with
  | [], _ => []
  | _ :: l', 0 => l'
  | x :: l', S i' => x :: remove_at i' l'
  end.

(** [enumerate(l)]. *)
Definition enumerate (l : list A) : list (nat * A) :=
  combine (seq 0 (length l)) l.

(** [l.sort(key=key)]: the sort of Python lists is stable.  Insertion
    from the right, each element placed before the first element whose
    key is not smaller, is the stable sort. *)
Fixpoint insert_by_key (key : A -> Z) (x : A) (l : list A) : list A :=
  match l with
  | [] => [x]
  | y :: l' => if (key x <=? key y)%Z then x :: y :: l'
               else y :: insert_by_key key x l'
  end.

Fixpoint sort_by_key (key : A -> Z) (l : list A) : list A :=
  match l with
  | [] => []
  | x :: l' => insert_by_key key x (sort_by_key key l')
  end.
End PySeq.

(* ================================================================== *)
(** * Dimension objects ([hftools.dataset.dim]) *)

(** The dimension classes that [hftools.dataset] exports. *)
Inductive DimClass : Type :=
| DimBase
| DimSweep
| DimRep
| DimMatrix_i
| DimMatrix_j
| DimUMatrix_i
| DimUMatrix_j
| DimPartial
| DimAnonymous.

Definition DimClass_eqb (c1 c2 : DimClass) : bool :=
  match c1, c2 with
  | DimBase, DimBase | DimSweep, DimSweep | DimRep, DimRep
  | DimMatrix_i, DimMatrix_i | DimMatrix_j, DimMatrix_j
  | DimUMatrix_i, DimUMatrix_i | DimUMatrix_j, DimUMatrix_j
  | DimPartial, DimPartial | DimAnonymous, DimAnonymous => true
  | _, _ => false
  end.

(** Modelled from the spec: a dimension object of [hftools.dataset.dim],
    with the attributes the descriptor has there ([name], the variant,
    the one-dimensional coordinates, the optional unit).  [arrayobj.py]
    reads [x.__class__], [x.name], [x.data] and [x.unit], and builds
    objects with [cls(name, data, unit=unit)], here
    [mkDim cls name data unit]. *)
Record Dim : Type := mkDim {
  dim_class : DimClass;
  name : string;
  data : list Z;
  dim_unit : option string
}.

(** What [arrayobj.py] needs from [hftools.dataset.dim], whose source is
    not part of this development: the subclass relation between the
    dimension classes ([isinstance(x, value.__class__)]), the [==] of
    dimension objects (used by [tuple.index]), the comparison of a name
    with a dimension object (used when [dims_index] is handed a dimension),
    and the [sortprio] attribute.  The laws are those of the Python object
    model: a class is a subclass of itself, every dimension class derives
    from [DimBase], and an object is found by [tuple.index] at its own
    position. *)
Class DimModule : Type := {
  issubclass : DimClass -> DimClass -> bool;
  dim_eqb : Dim -> Dim -> bool;
  name_eqb_dim : string -> Dim -> bool;
  sortprio : Dim -> Z;
  issubclass_refl : forall c, issubclass c c = true;
  issubclass_DimBase : forall c, issubclass c DimBase = true;
  dim_eqb_refl : forall d, dim_eqb d d = true
}.

Definition Dim_eqb (d1 d2 : Dim) : bool :=
  DimClass_eqb (dim_class d1) (dim_class d2)
  && String.eqb (name d1) (name d2)
  && (if list_eq_dec Z.eq_dec (data d1) (data d2) then true else false)
  && match dim_unit d1, dim_unit d2 with
     | Some u1, Some u2 => String.eqb u1 u2
     | None, None => true
     | _, _ => false
     end.

Section DimsCollections.
Context {M : DimModule}.

(** [isinstance(x, cls)]. *)
Definition isinstance (x : Dim) (cls : DimClass) : bool :=
  issubclass (dim_class x) cls.

(** The test all three lookups share:
    [x.name == value.name and isinstance(x, value.__class__)]. *)
Definition dim_matches (value x : Dim) : bool :=
  String.eqb (name x) (name value) && isinstance x (dim_class value).

(** [Dims.__contains__] for a dimension object. *)
Definition Dims_contains (self : list Dim) (value : Dim) : bool :=
  existsb (dim_matches value) self.

(** [Dims.__contains__] for a string: the probe is [DimBase(value, 1)]. *)
Definition Dims_contains_name (self : list Dim) (value : string) : bool :=
  Dims_contains self (mkDim DimBase value [0%Z] None).

(** [DimsList.__contains__]. *)
Definition DimsList_contains (self : list Dim) (value : Dim) : bool :=
  existsb (dim_matches value) self.


(** [Dims.matching_index]. *)
Definition matching_index (self : list Dim) (value : Dim) : result nat :=
  match find_index (dim_matches value) self with
  | Some idx => Ok idx
  | None => Raise KeyError
  end.

(** [tuple.index(dim)]: the first position holding an equal object. *)
Definition tuple_index (self : list Dim) (dim : Dim) : result nat :=
  match find_index (fun x => dim_eqb x dim) self with
  | Some idx => Ok idx
  | None => Raise ValueError
  end.
End DimsCollections.


(* ================================================================== *)
(** * numpy buffers

    The primitives of [numpy.ndarray] that [arrayobj.py] calls, on the
    logical contents of a buffer. *)

Record ndarray (T : Type) : Type := mk_ndarray {
  shape : list nat;
  item : list nat -> T
}.

Arguments mk_ndarray {T} shape item.

(** [slice(start, stop, step)]. *)
Record slice : Type := mkSlice {
  slice_start : option Z;
  slice_stop : option Z;
  slice_step : option Z
}.

Definition full_slice : slice := mkSlice None None None.

(** The items of a basic indexing expression. *)
Inductive BasicIndex : Type :=
| IxInt (i : Z)
| IxSlice (s : slice)
| IxEllipsis
| IxNewaxis.

(** How one entry of an expanded basic index reads the source buffer. *)
Inductive AxisPlan : Type :=
| PickAt (k : nat)
| RangeOf (first step : Z) (count : nat)
| NewAxis.

Section Numpy.
Context {T : Type}.

Definition ndim (a : ndarray T) : nat := length (shape a).

Definition size_of (sh : list nat) : nat := fold_right Nat.mul 1 sh.

(** Axis arguments may be negative; out of range is numpy's [AxisError]. *)
Definition normalize_axis (n : nat) (ax : Z) : result nat :=
  if ((ax <? - Z.of_nat n) || (Z.of_nat n <=? ax))%Z then Raise AxisError
  else Ok (Z.to_nat (if (ax <? 0)%Z then ax + Z.of_nat n else ax)%Z).

(** A tuple of axes: each one normalised, a repeated axis refused. *)
Fixpoint normalize_axes (n : nat) (seen : list nat) (axes : list Z)
  : result (list nat) :=
  match axes with
  | [] => Ok []
  | ax :: rest =>
      k <- normalize_axis n ax ;;
      if existsb (Nat.eqb k) seen then Raise ValueError
      else ks <- normalize_axes n (k :: seen) rest ;; Ok (k :: ks)
  end.

Definition position_of (m : nat) (l : list nat) : nat :=
  match find_index (Nat.eqb m) l with
  | Some k => k
  | None => 0
  end.

(** The source index read at result index [idx] after a transposition by
    [perm]: source axis [perm[k]] is result axis [k]. *)
Definition unpermute (perm idx : list nat) : list nat :=
  map (fun m => nth (position_of m perm) idx 0) (seq 0 (length perm)).

(** [ndarray.transpose(a, *axes)]; without axes the order is reversed. *)
Definition np_transpose (a : ndarray T) (axes : list Z) : result (ndarray T) :=
  let axes' := match axes with
               | [] => map Z.of_nat (rev (seq 0 (ndim a)))
               | _ => axes
               end in
  if length axes' =? ndim a then
    perm <- normalize_axes (ndim a) [] axes' ;;
    Ok (mk_ndarray (map (fun k => nth k (shape a) 0) perm)
                   (fun idx => item a (unpermute perm idx)))
  else Raise ValueError.

(** Row-major offset of an index and its inverse. *)
Fixpoint ravel (sh idx : list nat) : nat :=
  match sh, idx with
  | _ :: sh', i :: idx' => i * size_of sh' + ravel sh' idx'
  | _, _ => 0
  end.

Fixpoint unravel (sh : list nat) (k : nat) : list nat :=
  match sh with
  | [] => []
  | _ :: sh' => k / size_of sh' :: unravel sh' (k mod size_of sh')
  end.

(** [a.shape = newshape]: the element count has to agree.  (numpy also
    refuses the assignment for a non-contiguous view when the new shape
    needs a copy; inserting axes of length 1, the only use below, never
    does.) *)
Definition np_set_shape (a : ndarray T) (newshape : list nat)
  : result (ndarray T) :=
  if size_of (shape a) =? size_of newshape then
    Ok (mk_ndarray newshape
                   (fun idx => item a (unravel (shape a) (ravel newshape idx))))
  else Raise ValueError.

(** Entries of [l] whose flag is set. *)
Fixpoint select {A : Type} (keep : list bool) (l : list A) : list A :=
  match keep, l with
  | true :: keep', x :: l' => x :: select keep' l'
  | false :: keep', _ :: l' => select keep' l'
  | _, _ => []
  end.

(** Index into the unsqueezed buffer: 0 on every dropped axis. *)
Fixpoint expand_index (keep : list bool) (idx : list nat) : list nat :=
  match keep with
  | [] => []
  | true :: keep' => hd 0 idx :: expand_index keep' (tl idx)
  | false :: keep' => 0 :: expand_index keep' idx
  end.

Definition squeeze_with (keep : list bool) (a : ndarray T) : ndarray T :=
  mk_ndarray (select keep (shape a))
             (fun idx => item a (expand_index keep idx)).

(** [ndarray.squeeze(a, axis=axis)]. *)
Definition np_squeeze (a : ndarray T) (axis : option (list Z))
  : result (ndarray T) :=
  match axis with
  | None => Ok (squeeze_with (map (fun n => negb (n =? 1)) (shape a)) a)
  | Some axes =>
      ks <- normalize_axes (ndim a) [] axes ;;
      if forallb (fun k => nth k (shape a) 0 =? 1) ks then
        Ok (squeeze_with
              (map (fun k => negb (existsb (Nat.eqb k) ks)) (seq 0 (ndim a)))
              a)
      else Raise ValueError
  end.

(** All combinations of one choice per position, last position fastest. *)
Fixpoint cartesian (choices : list (list nat)) : list (list nat) :=
  match choices with
  | [] => [[]]
  | c :: rest => flat_map (fun i => map (cons i) (cartesian rest)) c
  end.

(** [a.<reduction>(axis, keepdims=True)] for a reduction [f] of the
    elements along the reduced axes ([None] reduces all of them). *)
Definition np_reduce_keepdims (f : list T -> T) (a : ndarray T)
  (axis : option (list Z)) : result (ndarray T) :=
  ks <- match axis with
        | None => Ok (seq 0 (ndim a))
        | Some axes => normalize_axes (ndim a) [] axes
        end ;;
  let reduced k := existsb (Nat.eqb k) ks in
  Ok (mk_ndarray
        (map (fun kn => if reduced (fst kn) then 1 else snd kn)
             (enumerate (shape a)))
        (fun idx =>
           f (map (item a)
                  (cartesian
                     (map (fun kn => if reduced (fst kn) then seq 0 (snd kn)
                                     else [nth (fst kn) idx 0])
                          (enumerate (shape a))))))).

(** [a.repeat(k, axis)]. *)
Definition np_repeat (a : ndarray T) (k : nat) (axis : Z)
  : result (ndarray T) :=
  ax <- normalize_axis (ndim a) axis ;;
  Ok (mk_ndarray
        (map (fun jn => if fst jn =? ax then snd jn * k else snd jn)
             (enumerate (shape a)))
        (fun idx =>
           item a (map (fun ji => if fst ji =? ax then snd ji / k else snd ji)
                       (enumerate idx)))).

(** [slice.indices(len)]: first position, step and number of positions. *)
Definition slice_indices (s : slice) (len : nat) : result (Z * Z * nat) :=
  let n := Z.of_nat len in
  let st := match slice_step s with Some v => v | None => 1%Z end in
  if (st =? 0)%Z then Raise ValueError else
  let lower := if (st <? 0)%Z then (-1)%Z else 0%Z in
  let upper := if (st <? 0)%Z then (n - 1)%Z else n in
  let clamp v :=
    if (v <? 0)%Z then (if (v + n <? 0)%Z then lower else v + n)%Z
    else if (n <=? v)%Z then upper else v in
  let first := match slice_start s with
               | Some v => clamp v
               | None => if (st <? 0)%Z then upper else lower
               end in
  let last := match slice_stop s with
              | Some v => clamp v
              | None => if (st <? 0)%Z then lower else upper
              end in
  let count :=
    if (st <? 0)%Z then
      (if (last <? first)%Z then (first - last - 1) / (- st) + 1 else 0)%Z
    else
      (if (first <? last)%Z then (last - first - 1) / st + 1 else 0)%Z in
  Ok (first, st, Z.to_nat count).

(** [l[s]] for a sequence [l] and a slice [s]. *)
Definition py_getslice {A : Type} (l : list A) (s : slice) : result (list A) :=
  '(first, st, count) <- slice_indices s (length l) ;;
  Ok (flat_map (fun k => match nth_error l (Z.to_nat (first + Z.of_nat k * st))
                         with
                         | Some x => [x]
                         | None => []
                         end)
               (seq 0 count)).

Definition is_ellipsis (i : BasicIndex) : bool :=
  match i with IxEllipsis => true | _ => false end.

Definition is_newaxis (i : BasicIndex) : bool :=
  match i with IxNewaxis => true | _ => false end.

Definition is_int (i : BasicIndex) : bool :=
  match i with IxInt _ => true | _ => false end.

Definition consumes_axis (i : BasicIndex) : bool :=
  match i with IxInt _ | IxSlice _ => true | _ => false end.

(** The index with its [Ellipsis] (or, lacking one, its tail) filled with
    full slices up to [n] consumed axes. *)
Fixpoint expand_ellipsis (fill : nat) (ix : list BasicIndex)
  : list BasicIndex :=
  match ix with
  | [] => []
  | IxEllipsis :: ix' => repeat (IxSlice full_slice) fill ++ ix'
  | i :: ix' => i :: expand_ellipsis fill ix'
  end.

Fixpoint build_plan (ix : list BasicIndex) (sh : list nat)
  : result (list AxisPlan) :=
  match ix with
  | [] => Ok []
  | IxNewaxis :: ix' => p <- build_plan ix' sh ;; Ok (NewAxis :: p)
  | IxEllipsis :: _ => Raise IndexError
  | IxInt i :: ix' =>
      match sh with
      | [] => Raise IndexError
      | n :: sh' =>
          if ((i <? - Z.of_nat n) || (Z.of_nat n <=? i))%Z
          then Raise IndexError
          else p <- build_plan ix' sh' ;;
               Ok (PickAt (Z.to_nat (if (i <? 0)%Z then i + Z.of_nat n else i)%Z)
                     :: p)
      end
  | IxSlice s :: ix' =>
      match sh with
      | [] => Raise IndexError
      | n :: sh' =>
          '(first, st, count) <- slice_indices s n ;;
          p <- build_plan ix' sh' ;;
          Ok (RangeOf first st count :: p)
      end
  end.

Fixpoint plan_shape (p : list AxisPlan) : list nat :=
  match p with
  | [] => []
  | PickAt _ :: p' => plan_shape p'
  | RangeOf _ _ count :: p' => count :: plan_shape p'
  | NewAxis :: p' => 1 :: plan_shape p'
  end.

Fixpoint plan_source (p : list AxisPlan) (idx : list nat) : list nat :=
  match p with
  | [] => []
  | PickAt k :: p' => k :: plan_source p' idx
  | RangeOf first st _ :: p' =>
      Z.to_nat (first + Z.of_nat (hd 0 idx) * st) :: plan_source p' (tl idx)
  | NewAxis :: p' => plan_source p' (tl idx)
  end.

(** [ndarray.__getitem__(a, ix)] for integers, slices, [Ellipsis] and
    [newaxis]. *)
Definition np_getitem (a : ndarray T) (ix : list BasicIndex)
  : result (ndarray T) :=
  let consumed := length (filter consumes_axis ix) in
  if 1 <? length (filter is_ellipsis ix) then Raise IndexError
  else if ndim a <? consumed then Raise IndexError
  else
    let fill := ndim a - consumed in
    let ix' := if existsb is_ellipsis ix then expand_ellipsis fill ix
               else ix ++ repeat (IxSlice full_slice) fill in
    p <- build_plan ix' (shape a) ;;
    Ok (mk_ndarray (plan_shape p) (fun idx => item a (plan_source p idx))).

(** Whether numpy hands back a scalar instead of an array: every axis is
    addressed by an integer. *)
Definition yields_scalar (a : ndarray T) (ix : list BasicIndex) : bool :=
  forallb is_int ix && (length ix =? ndim a).

(** The indices at which a boolean buffer is true, in row-major order. *)
Definition true_indices (mask : ndarray bool) : list (list nat) :=
  filter (item mask) (cartesian (map (seq 0) (shape mask))).

(** [a[:, ..., :, mask]] with [r] leading full slices: the axes the mask
    covers are replaced by one axis running over the selected positions. *)
Definition np_mask_getitem (a : ndarray T) (r : nat) (mask : ndarray bool)
  : result (ndarray T) :=
  let k := length (shape mask) in
  if ndim a <? r + k then Raise IndexError
  else if list_eq_dec Nat.eq_dec (firstn k (skipn r (shape a))) (shape mask)
  then
    let sel := true_indices mask in
    Ok (mk_ndarray
          (firstn r (shape a) ++ length sel :: skipn (r + k) (shape a))
          (fun idx => item a (firstn r idx ++ nth (nth r idx 0) sel []
                                ++ skipn (S r) idx)))
  else Raise IndexError.

Definition broadcast_dim (m n : nat) : result nat :=
  if m =? n then Ok m
  else if m =? 1 then Ok n
  else if n =? 1 then Ok m
  else Raise ValueError.

(** Broadcasting of two shapes given last axis first. *)
Fixpoint broadcast_rev (s1 s2 : list nat) : result (list nat) :=
  match s1, s2 with
  | [], _ => Ok s2
  | _, [] => Ok s1
  | m :: s1', n :: s2' =>
      d <- broadcast_dim m n ;;
      r <- broadcast_rev s1' s2' ;;
      Ok (d :: r)
  end.

Definition broadcast_shapes (s1 s2 : list nat) : result (list nat) :=
  r <- broadcast_rev (rev s1) (rev s2) ;; Ok (rev r).

(** Index into an operand of shape [sh] for the result index [idx]. *)
Definition broadcast_index (sh idx : list nat) : list nat :=
  map (fun ni => if fst ni =? 1 then 0 else snd ni)
      (combine sh (skipn (length idx - length sh) idx)).
End Numpy.

(** An elementwise binary operation with broadcasting. *)
Definition np_binop {A B C : Type} (f : A -> B -> C)
  (a : ndarray A) (b : ndarray B) : result (ndarray C) :=
  sh <- broadcast_shapes (shape a) (shape b) ;;
  Ok (mk_ndarray sh
        (fun idx => f (item a (broadcast_index (shape a) idx))
                      (item b (broadcast_index (shape b) idx)))).

(** An elementwise unary operation. *)
Definition np_map {A B : Type} (f : A -> B) (a : ndarray A) : ndarray B :=
  mk_ndarray (shape a) (fun idx => f (item a idx)).

(** A buffer from its row-major element list. *)
Definition np_array {A : Type} (sh : list nat) (elems : list A) (d : A)
  : ndarray A :=
  mk_ndarray sh (fun idx => nth (ravel sh idx) elems d).


(* ================================================================== *)
(** * The labeled array [_hfarray] *)

(** An array object: the buffer it inherits from [ndarray] and [_dims]. *)
Record hfarray (T : Type) : Type := mk_hfarray {
  buf : ndarray T;
  dims : list Dim
}.

Arguments mk_hfarray {T} buf dims.

(** The [data] argument of the constructor: a plain buffer, or an object
    that carries [dims] itself. *)
Inductive ArrayLike (T : Type) : Type :=
| Plain (a : ndarray T)
| Labeled (h : hfarray T).

Arguments Plain {T} a.
Arguments Labeled {T} h.

(** An axis specifier, and the [axis] argument built from specifiers. *)
Inductive AxisSpec : Type :=
| AxInt (i : Z)
| AxName (s : string)
| AxClass (c : DimClass)
| AxDim (d : Dim).

Inductive AxisArg : Type :=
| AxNone
| AxOne (s : AxisSpec)
| AxSeq (l : list AxisSpec).

(** [range(n)] as coordinate data. *)
Definition range (n : nat) : list Z := map Z.of_nat (seq 0 n).

(** [_hfarray.default_dim]. *)
Definition default_dim : list Dim :=
  [mkDim DimSweep "freq" [0%Z] None; mkDim DimRep "rep" [0%Z] None].

Section LabeledArray.
Context {M : DimModule} {T : Type}.

Definition hf_shape (self : hfarray T) : list nat := shape (buf self).

Definition hf_ndim (self : hfarray T) : nat := ndim (buf self).

(** The rank invariant: [len(self.dims) == self.ndim]. *)
Definition rank_ok (self : hfarray T) : Prop :=
  length (dims self) = hf_ndim self.

(** [_hfarray.verify_dimension]. *)
Definition verify_dimension (self : hfarray T) : result unit :=
  if length (dims self) =? hf_ndim self then Ok tt
  else Raise HFArrayShapeDimsMismatchError.

(** [_hfarray.__array_finalize__]: an array that numpy derives from [obj]
    starts with the [_dims] of [obj]. *)
Definition array_finalize {U : Type} (obj : hfarray T) (b : ndarray U)
  : hfarray U :=
  mk_hfarray b (dims obj).

Definition buffer_of (data : ArrayLike T) : ndarray T :=
  match data with
  | Plain a => a
  | Labeled h => buf h
  end.

(** [_hfarray.__new__(subtype, data, dims=dims)]. *)
Definition hfarray_new (data : ArrayLike T) (dims0 : option (list Dim))
  : result (hfarray T) :=
  let subarr := buffer_of data in
  d <- match dims0 with
       | Some d => Ok d
       | None =>
           match data with
           | Labeled h => Ok (dims h)
           | Plain _ =>
               if ndim subarr =? 0 then Ok []
               else if length (shape subarr) <=? length default_dim then
                 Ok (map (fun xs => mkDim (dim_class (fst xs)) (name (fst xs))
                                          (range (snd xs)) None)
                         (combine default_dim (shape subarr)))
               else Raise DimensionMismatchError
           end
       end ;;
  let subarr := mk_hfarray subarr d in
  _ <- verify_dimension subarr ;;
  Ok subarr.

(** The setter of the [dims] property, [self._dims = Dims(value)]: what
    the assignment [self.dims = value] runs. *)
Definition dims_setter (self : hfarray T) (value : list Dim)
  : result (hfarray T) :=
  Ok (mk_hfarray (buf self) value).

(** [_hfarray.dims_index(name, cls)]. *)
Definition dims_index (self : hfarray T) (nm : string) (cls : option DimClass)
  : result nat :=
  match find_index (fun ax => String.eqb (name ax) nm
                              && match cls with
                                 | None => true
                                 | Some c => isinstance ax c
                                 end)
                   (dims self) with
  | Some idx => Ok idx
  | None => Raise IndexError
  end.

(** [dims_index] when it is handed a dimension object for [name]. *)
Definition dims_index_dim (self : hfarray T) (d : Dim) : result nat :=
  match find_index (fun ax => name_eqb_dim (name ax) d) (dims self) with
  | Some idx => Ok idx
  | None => Raise IndexError
  end.

(** The module-level [replace_dim]. *)
Definition replace_dim (ds : list Dim) (olddim newdim : Dim) : list Dim :=
  map (fun d => if String.eqb (name olddim) (name d) then newdim else d) ds.

(** [_hfarray.view()]. *)
Definition hfarray_view (self : hfarray T) : result (hfarray T) :=
  hfarray_new (Labeled self) (Some (dims self)).

(** [_hfarray.copy()]. *)
Definition hfarray_copy (self : hfarray T) : result (hfarray T) :=
  hfarray_new (Labeled self) None.

(** [_hfarray.transpose]. *)
Definition hfarray_transpose (self : hfarray T) (order : list Z)
  : result (hfarray T) :=
  let order := match order with
               | [] => map Z.of_nat (rev (seq 0 (hf_ndim self)))
               | _ => order
               end in
  b <- np_transpose (buf self) order ;;
  d <- mapM (py_getitem (dims self)) order ;;
  hfarray_new (Labeled (array_finalize self b)) (Some d).

(** The first loop of [reorder_dimensions]: the positions of the
    dimensions listed in [order], each one deleted from [infos]. *)
Fixpoint move_to_front (sdims order infos : list Dim) (neworder : list nat)
  : result (list Dim * list nat) :=
  match order with
  | [] => Ok (infos, neworder)
  | dim :: rest =>
      i <- tuple_index sdims dim ;;
      j <- tuple_index infos dim ;;
      move_to_front sdims rest (remove_at j infos) (neworder ++ [i])
  end.

(** [_hfarray.reorder_dimensions]. *)
Definition hfarray_reorder_dimensions (self : hfarray T) (order : list Dim)
  : result (hfarray T) :=
  '(infos, neworder) <- move_to_front (dims self) order (dims self) [] ;;
  others <- mapM (tuple_index (dims self)) infos ;;
  hfarray_transpose self (map Z.of_nat (neworder ++ others)).

(** [l[i] = x] for a non-negative position. *)
Fixpoint py_setitem {A : Type} (l : list A) (i : nat) (x : A)
  : result (list A) :=
  match l, i with
  | [], _ => Raise IndexError
  | _ :: l', 0 => Ok (x :: l')
  | y :: l', S i' => r <- py_setitem l' i' x ;; Ok (y :: r)
  end.

(** The loop of [.t]: the last [DimMatrix_i] and the last [DimMatrix_j]
    (that is not also a [DimMatrix_i]) of the collection. *)
Definition matrix_dims (ds : list Dim) : option Dim * option Dim :=
  fold_left (fun acc dim =>
               if isinstance dim DimMatrix_i then (Some dim, snd acc)
               else if isinstance dim DimMatrix_j then (fst acc, Some dim)
               else acc)
            ds (None, None).

(** The property [_hfarray.t]. *)
Definition hfarray_t (self : hfarray T) : result (hfarray T) :=
  match matrix_dims (dims self) with
  | (Some di, Some dj) =>
      i <- dims_index_dim self di ;;
      j <- dims_index_dim self dj ;;
      let order := map Z.of_nat (seq 0 (hf_ndim self)) in
      oj <- py_getitem order (Z.of_nat j) ;;
      oi <- py_getitem order (Z.of_nat i) ;;
      order <- py_setitem order i oj ;;
      order <- py_setitem order j oi ;;
      out <- hfarray_transpose self order ;;
      newdims <- py_setitem (dims out) i
                   (mkDim DimMatrix_i (name di) (data dj) None) ;;
      newdims <- py_setitem newdims j
                   (mkDim DimMatrix_j (name dj) (data di) None) ;;
      dims_setter out newdims
  | _ => Ok self
  end.

(** [ismatrix]. *)
Fixpoint ismatrix_loop (ds : list Dim) (i j : bool) : bool :=
  match ds with
  | [] => false
  | dim :: rest =>
      let i' := if isinstance dim DimMatrix_i then true else i in
      let j' := if isinstance dim DimMatrix_i then j
                else if isinstance dim DimMatrix_j then true else j in
      if i' && j' then true else ismatrix_loop rest i' j'
  end.

Definition ismatrix (a : hfarray T) : bool :=
  ismatrix_loop (dims a) false false.

(* ------------------------------------------------------------------ *)
(** ** Axis resolution *)

(** [axis_handler(a, axis)]. *)
Definition axis_handler (a : hfarray T) (axis : option AxisSpec)
  : result (option Dim) :=
  let instance_case (d : Dim) : result (option Dim) :=
    if Dims_contains (dims a) d then Ok (Some d) else Raise IndexError in
  match axis with
  | None => Ok None
  | Some (AxInt i) => d <- py_getitem (dims a) i ;; Ok (Some d)
  | Some (AxName s) =>
      i <- dims_index a s None ;;
      d <- py_getitem (dims a) (Z.of_nat i) ;;
      instance_case d
  | Some (AxClass c) =>
      if issubclass c DimBase then
        match filter (fun dim => isinstance dim c) (dims a) with
        | [] => Raise IndexError
        | [d] => Ok (Some d)
        | _ :: _ :: _ => Raise IndexError
        end
      else Raise IndexError
  | Some (AxDim d) => instance_case d
  end.

(** One round of the loop of [multiple_axis_handler]: what the element
    [ax] appends to [outaxis] and [outidx]. *)
Definition resolve_axis (a : hfarray T) (ax : AxisSpec)
  : result (list (Dim * Z)) :=
  let instance_case (d : Dim) : result (list (Dim * Z)) :=
    if Dims_contains (dims a) d then
      i <- tuple_index (dims a) d ;; Ok [(d, Z.of_nat i)]
    else Raise IndexError in
  match ax with
  | AxInt i => d <- py_getitem (dims a) i ;; Ok [(d, i)]
  | AxName s =>
      i <- dims_index a s None ;;
      d <- py_getitem (dims a) (Z.of_nat i) ;;
      instance_case d
  | AxClass c =>
      if issubclass c DimBase then
        Ok (map (fun kd => (snd kd, Z.of_nat (fst kd)))
                (filter (fun kd => isinstance (snd kd) c)
                        (enumerate (dims a))))
      else Raise IndexError
  | AxDim d => instance_case d
  end.

Fixpoint resolve_axes (a : hfarray T) (axis : list AxisSpec)
  : result (list (Dim * Z)) :=
  match axis with
  | [] => Ok []
  | ax :: rest =>
      r <- resolve_axis a ax ;;
      rs <- resolve_axes a rest ;;
      Ok (r ++ rs)
  end.

(** [multiple_axis_handler(a, axis)]. *)
Definition multiple_axis_handler (a : hfarray T) (axis : AxisArg)
  : result (option (list Dim) * option (list Z)) :=
  match axis with
  | AxNone => Ok (None, None)
  | AxOne s =>
      r <- resolve_axes a [s] ;; Ok (Some (map fst r), Some (map snd r))
  | AxSeq l =>
      r <- resolve_axes a l ;; Ok (Some (map fst r), Some (map snd r))
  end.

(** The [axis] argument that carries resolved positions on. *)
Definition axis_of_positions (dimidx : option (list Z)) : AxisArg :=
  match dimidx with
  | None => AxNone
  | Some l => AxSeq (map AxInt l)
  end.

(* ------------------------------------------------------------------ *)
(** ** Squeezing and reduction *)

(** [_hfarray.squeeze(axis)]. *)
Definition hfarray_squeeze (self : hfarray T) (axis : AxisArg)
  : result (hfarray T) :=
  '(ds, dimidxs) <- multiple_axis_handler self axis ;;
  newinfo <- match ds with
             | None =>
                 kept <- mapM (fun kd =>
                                 n <- py_getitem (hf_shape self)
                                        (Z.of_nat (fst kd)) ;;
                                 Ok (negb (n =? 1), snd kd))
                              (enumerate (dims self)) ;;
                 Ok (map snd (filter fst kept))
             | Some _ =>
                 let listed := match dimidxs with
                               | Some l => l
                               | None => []
                               end in
                 Ok (map snd
                       (filter (fun kd =>
                                  negb (existsb (Z.eqb (Z.of_nat (fst kd)))
                                                listed))
                               (enumerate (dims self))))
             end ;;
  b <- np_squeeze (buf self) dimidxs ;;
  hfarray_new (Labeled (array_finalize self b)) (Some newinfo).

(** The body shared by [sum], [mean], [std], [var], [min] and [max], for
    the numpy reduction [f].  (The reduction is a total function of the
    elements: the [ValueError] that numpy's [min] and [max] raise over an
    axis of length zero is not represented.) *)
Definition hfarray_reduce (f : list T -> T) (self : hfarray T)
  (axis : AxisArg) (keepdims dimerror : bool) : result (hfarray T) :=
  match multiple_axis_handler self axis with
  | Raise IndexError => if dimerror then Raise IndexError else Ok self
  | Raise e => Raise e
  | Ok (_, dimidx) =>
      r <- np_reduce_keepdims f (buf self) dimidx ;;
      res <- hfarray_new (Plain r) (Some (dims self)) ;;
      if keepdims then Ok res
      else hfarray_squeeze res (axis_of_positions dimidx)
  end.

(** Running reduction along one axis ([cumsum], [cumprod]). *)
Definition np_cumulative (f : list T -> T) (a : ndarray T) (ax : nat)
  : ndarray T :=
  mk_ndarray (shape a)
    (fun idx =>
       f (map (fun i => item a (firstn ax idx ++ i :: skipn (S ax) idx))
              (seq 0 (S (nth ax idx 0))))).

(** [_hfarray.cumsum(axis)] / [_hfarray.cumprod(axis)]. *)
Definition hfarray_cumulative (f : list T -> T) (self : hfarray T)
  (axis : option AxisSpec) : result (hfarray T) :=
  match axis with
  | None => Raise HFArrayError
  | Some _ =>
      d <- axis_handler self axis ;;
      match d with
      | None => Raise HFArrayError
      | Some d =>
          i <- dims_index_dim self d ;;
          if i <? hf_ndim self then
            hfarray_new (Plain (np_cumulative f (buf self) i))
                        (Some (dims self))
          else Raise AxisError
      end
  end.
End LabeledArray.


(* ================================================================== *)
(** * Alignment: [dims_union], [change_shape], [make_same_dims] *)

(** The second operand of an arithmetic operator. *)
Inductive Operand (T : Type) : Type :=
| Number (v : T)
| ArrayOperand (d : ArrayLike T).

Arguments Number {T} v.
Arguments ArrayOperand {T} d.

(** The operands as [check_instance] hands them to the wrapped method. *)
Inductive Aligned (T : Type) : Type :=
| WithNumber (a : hfarray T) (b : T)
| WithArray (a b : hfarray T).

Arguments WithNumber {T} a b.
Arguments WithArray {T} a b.

Section Alignment.
Context {M : DimModule} {T : Type}.

(** The inner loop of [dims_union]: the dimensions of one operand, each
    appended unless [dim in newinfo]. *)
Definition append_missing (newinfo : list Dim) (bdims : list Dim) : list Dim :=
  fold_left (fun acc dim => if DimsList_contains acc dim then acc
                            else acc ++ [dim])
            bdims newinfo.

(** [dims_union( *a )]. *)
Definition dims_union (a : list (hfarray T)) : result (list Dim) :=
  match a with
  | [] => Raise IndexError
  | a0 :: rest =>
      let newinfo :=
        fold_left (fun acc B => append_missing acc (dims B)) rest (dims a0) in
      Ok (sort_by_key sortprio newinfo)
  end.

(** The loop of [change_shape]: [newselfshape] and [neworder]. *)
Fixpoint change_shape_loop (x : hfarray T) (newdims : list Dim)
  : result (list nat * list nat) :=
  match newdims with
  | [] => Ok ([], [])
  | dim :: rest =>
      if Dims_contains (dims x) dim then
        i <- matching_index (dims x) dim ;;
        n <- py_getitem (hf_shape x) (Z.of_nat i) ;;
        i' <- matching_index (dims x) dim ;;
        '(newselfshape, neworder) <- change_shape_loop x rest ;;
        Ok (n :: newselfshape, i' :: neworder)
      else
        '(newselfshape, neworder) <- change_shape_loop x rest ;;
        Ok (1 :: newselfshape, neworder)
  end.

(** [change_shape(x, newdims)]. *)
Definition change_shape (x : hfarray T) (newdims : list Dim)
  : result (hfarray T) :=
  newself <- hfarray_view x ;;
  '(newselfshape, neworder) <- change_shape_loop x newdims ;;
  newself <- hfarray_transpose newself (map Z.of_nat neworder) ;;
  b <- np_set_shape (buf newself) newselfshape ;;
  let newself := mk_hfarray b (dims newself) in
  dims_setter newself newdims.

(** [make_same_dims_list(a)]. *)
Definition make_same_dims_list (a : list (hfarray T))
  : result (list (hfarray T)) :=
  newdims <- dims_union a ;;
  mapM (fun x => change_shape x newdims) a.

(** [make_same_dims(A, B)]. *)
Definition make_same_dims (A : hfarray T) (B : ArrayLike T)
  : result (list (hfarray T)) :=
  B' <- match B with
        | Labeled h => Ok h
        | Plain b => hfarray_new (Plain b) (Some (dims A))
        end ;;
  make_same_dims_list [A; B'].

(* ------------------------------------------------------------------ *)
(** ** Arithmetic *)

(** The decorator [check_instance].  (Operands of a foreign array class
    with a higher [__array_priority__], for which the wrapper answers
    [NotImplemented], are not among [Operand].) *)
Definition check_instance {R : Type} (func : Aligned T -> result R)
  (self : hfarray T) (other : Operand T) : result R :=
  match other with
  | Number v => func (WithNumber self v)
  | ArrayOperand d =>
      other' <- hfarray_new d None ;;
      ab <- make_same_dims self (Labeled other') ;;
      match ab with
      | [a; b] => func (WithArray a b)
      | _ => Raise ValueError
      end
  end.

(** An elementwise operator of [ndarray] on the operands it is handed:
    the result is finalized from the first operand. *)
Definition ndarray_operator (f : T -> T -> T) (ab : Aligned T)
  : result (hfarray T) :=
  match ab with
  | WithNumber a v => Ok (array_finalize a (np_map (fun x => f x v) (buf a)))
  | WithArray a b =>
      r <- np_binop f (buf a) (buf b) ;; Ok (array_finalize a r)
  end.

(** [__add__], [__sub__], [__mul__], ... : [ndarray]'s operator for the
    elementwise function [f], wrapped by [check_instance]. *)
Definition hfarray_operator (f : T -> T -> T) (self : hfarray T)
  (other : Operand T) : result (hfarray T) :=
  check_instance (ndarray_operator f) self other.

(** [__radd__], [__rmul__]: the wrapped method calls the wrapped forward
    operator on the aligned operands. *)
Definition hfarray_reflected (f : T -> T -> T) (self : hfarray T)
  (other : Operand T) : result (hfarray T) :=
  check_instance (fun ab =>
                    match ab with
                    | WithNumber a v => hfarray_operator f a (Number v)
                    | WithArray a b =>
                        hfarray_operator f a (ArrayOperand (Labeled b))
                    end)
                 self other.

(** [__neg__], [__abs__]. *)
Definition hfarray_unary (f : T -> T) (self : hfarray T) : hfarray T :=
  array_finalize self (np_map f (buf self)).

(** [__lt__], [__le__], [__gt__], [__ge__] and [__ne__]: [_hfarray] defines
    none of them (of the comparisons only [__eq__] is wrapped by
    [check_instance]), so [A < B] is the operator inherited from [ndarray]
    on the operands as they are: the buffers are broadcast against each
    other and the result, an array of the class of [A], is finalized from
    [A]. *)
Definition hfarray_inherited_operator {U : Type} (f : T -> T -> U)
  (self other : hfarray T) : result (hfarray U) :=
  r <- np_binop f (buf self) (buf other) ;; Ok (array_finalize self r).
End Alignment.


(* ================================================================== *)
(** * Indexing and [add_dim] *)

(** The argument of [__getitem__]: one basic item, a tuple of basic items,
    or a boolean labeled array.  (Tuples that mix array-valued items with
    other items are not among [IndexArg].) *)
Inductive IndexArg : Type :=
| IxOne (b : BasicIndex)
| IxTuple (l : list BasicIndex)
| IxMask (m : hfarray bool).

(** What [__getitem__] returns: a scalar, a plain buffer (indexing with
    [newaxis]) or a labeled array. *)
Inductive Indexed (T : Type) : Type :=
| Scalar (v : T)
| PlainArray (a : ndarray T)
| LabeledArray (h : hfarray T).

Arguments Scalar {T} v.
Arguments PlainArray {T} a.
Arguments LabeledArray {T} h.

(** [int(s)] for an optional sign followed by decimal digits. *)
Definition py_int (s : string) : result Z :=
  let digits (t : string) : result Z :=
    match t with
    | EmptyString => Raise ValueError
    | _ => match NilEmpty.uint_of_string t with
           | Some u => Ok (Z.of_N (N.of_uint u))
           | None => Raise ValueError
           end
    end in
  match s with
  | String "-"%char t => v <- digits t ;; Ok (- v)%Z
  | String "+"%char t => digits t
  | _ => digits s
  end.

(** ["ANON%s" % n] for a positive [n]. *)
Definition anon_name (n : Z) : string :=
  ("ANON" ++ NilZero.string_of_uint (N.to_uint (Z.to_N n)))%string.

Section Indexing.
Context {M : DimModule} {T : Type}.

(** Modelled from the spec: the constructor call [DimAnonymous(aname, n)]
    of [hftools.dataset.dim] with an integer for the coordinates.  The
    anonymous dimension is "sized to the selection count": its coordinates
    are [range(n)]. *)
Definition DimAnonymous_sized (aname : string) (n : nat) : Dim :=
  mkDim DimAnonymous aname (range n) None.

(** [get_new_anonymous_dim(dims, count)]. *)
Definition get_new_anonymous_dim (ds : list Dim) (count : nat) : result Dim :=
  anon_names <- mapM (fun x => py_int (substring 4 (String.length (name x))
                                                 (name x)))
                     (filter (fun x => isinstance x DimAnonymous
                                       && prefix "ANON" (name x))
                             ds) ;;
  Ok (DimAnonymous_sized (anon_name (fold_right Z.max 0%Z anon_names + 1))
                         count).

(** Modelled from the spec: [dim[idx]] for a slice [idx], the method
    [__getitem__] of the dimension classes of [hftools.dataset.dim].  A
    slice index keeps the dimension "but replace[s] its descriptor with one
    whose coordinates are correspondingly sliced". *)
Definition dim_getslice (dim : Dim) (s : slice) : result Dim :=
  d <- py_getslice (data dim) s ;;
  Ok (mkDim (dim_class dim) (name dim) d (dim_unit dim)).

(** [np.array(dim.data)[mask]] for a one-dimensional boolean [mask] (any
    other mask shape is refused). *)
Definition data_getmask (l : list Z) (mask : ndarray bool) : result (list Z) :=
  if list_eq_dec Nat.eq_dec (shape mask) [length l] then
    Ok (select (map (fun i => item mask [i]) (seq 0 (length l))) l)
  else Raise IndexError.

(** The loop over [zip(indices, self.dims)] of [__getitem__]. *)
Fixpoint getitem_dims (indices : list BasicIndex) (ds : list Dim)
  : result (list Dim) :=
  match indices, ds with
  | idx :: indices', dim :: ds' =>
      match idx with
      | IxInt _ => getitem_dims indices' ds'
      | IxSlice s =>
          d <- dim_getslice dim s ;;
          r <- getitem_dims indices' ds' ;;
          Ok (d :: r)
      | _ => r <- getitem_dims indices' ds' ;; Ok (dim :: r)
      end
  | _, _ => Ok []
  end.

(** The loop that fills [reorder]: the dimensions of [self] in front of
    the first one that the index array owns. *)
Fixpoint reorder_prefix (maskdims ds : list Dim) : list Dim :=
  match ds with
  | [] => []
  | dim :: ds' => if Dims_contains maskdims dim then []
                  else dim :: reorder_prefix maskdims ds'
  end.

(** The branch [testbool] of [__getitem__]. *)
Definition getitem_mask (self : hfarray T) (mask : hfarray bool)
  : result (hfarray T) :=
  let reorder := reorder_prefix (dims mask) (dims self) in
  let reorder2 := reorder ++ dims mask in
  reordered <- hfarray_reorder_dimensions self reorder2 ;;
  newdim <- match dims mask with
            | [dim] =>
                d <- data_getmask (data dim) (buf mask) ;;
                Ok (mkDim (dim_class dim) (name dim) d (dim_unit dim))
            | _ =>
                get_new_anonymous_dim (dims self)
                                      (length (true_indices (buf mask)))
            end ;;
  let ds := firstn (length reorder) (dims reordered)
            ++ newdim
            :: skipn (length reorder + length (dims mask)) (dims reordered) in
  b <- np_mask_getitem (buf reordered) (length reorder) (buf mask) ;;
  hfarray_new (Labeled (array_finalize reordered b)) (Some ds).

(** [_hfarray.__getitem__(x)]. *)
Definition hfarray_getitem (self : hfarray T) (x : IndexArg)
  : result (Indexed T) :=
  let basic (indices : list BasicIndex) : result (Indexed T) :=
    let ellipsis_and_ints :=
      forallb (fun i => is_int i || is_ellipsis i) indices in
    let orig_indices := indices in
    let ellips_count := length (filter is_ellipsis indices) in
    indices <-
      (if ellips_count =? 1 then
         let i := match find_index is_ellipsis indices with
                  | Some i => i
                  | None => 0
                  end in
         Ok (firstn i indices
             ++ repeat (IxSlice full_slice)
                       (hf_ndim self - (length indices - 1))
             ++ skipn (S i) indices)
       else if 1 <? ellips_count then Raise IndexError
       else Ok indices) ;;
    let indices :=
      indices ++ repeat (IxSlice full_slice) (hf_ndim self - length indices) in
    ds <- getitem_dims indices (dims self) ;;
    let indices := if ellipsis_and_ints then orig_indices else indices in
    out <- np_getitem (buf self) indices ;;
    if yields_scalar (buf self) indices then Ok (Scalar (item out []))
    else
      h <- hfarray_new (Labeled (array_finalize self out)) (Some ds) ;;
      Ok (LabeledArray h) in
  match x with
  | IxOne IxNewaxis =>
      out <- np_getitem (buf self) [IxNewaxis] ;; Ok (PlainArray out)
  | IxOne IxEllipsis => h <- hfarray_view self ;; Ok (LabeledArray h)
  | IxOne b => basic [b]
  | IxTuple l =>
      if existsb is_newaxis l then
        out <- np_getitem (buf self) l ;; Ok (PlainArray out)
      else basic l
  | IxMask mask => h <- getitem_mask self mask ;; Ok (LabeledArray h)
  end.

(** [_hfarray.add_dim(dim, axis)]. *)
Definition hfarray_add_dim (self : hfarray T) (dim : option Dim) (axis : Z)
  : result (hfarray T) :=
  match dim with
  | None => Ok self
  | Some dim =>
      if Dims_contains (dims self) dim then Ok self
      else
        let axis := Z.min axis (Z.of_nat (hf_ndim self)) in
        (* [self[(slice(None),) * axis + (None,)]]: the index holds
           [newaxis], so [__getitem__] indexes the plain buffer *)
        out <- np_getitem (buf self)
                 (repeat (IxSlice full_slice) (Z.to_nat axis) ++ [IxNewaxis]) ;;
        out <- (if 1 <? length (data dim)
                then np_repeat out (length (data dim)) axis
                else Ok out) ;;
        hfarray_new (Plain out) (Some (py_insert (dims self) axis dim))
  end.
End Indexing.


(* ================================================================== *)
(** * Module-level constructors and [remove_rep] *)

Definition is_some {A : Type} (o : option A) : bool :=
  match o with Some _ => true | None => false end.

Section Constructors.
Context {M : DimModule} {T : Type}.

(** Modelled from the spec: the constructor calls [DimMatrix_i(name, data)]
    and [DimMatrix_j(name, data)] of [hftools.dataset.dim]; a descriptor is
    "constructed with [(name, coordinates, variant, unit=None)]". *)
Definition DimMatrix_i_of (nm : string) (coords : list Z) : Dim :=
  mkDim DimMatrix_i nm coords None.

Definition DimMatrix_j_of (nm : string) (coords : list Z) : Dim :=
  mkDim DimMatrix_j nm coords None.

(** [make_matrix(data, dims, iname, jname)]; [hfarray(data, dims,
    copy=False)] on a buffer is [_hfarray.__new__]. *)
Definition make_matrix (data : ndarray T) (ds : list Dim)
  (iname jname : string) : result (hfarray T) :=
  ni <- py_getitem (shape data) (-2) ;;
  nj <- py_getitem (shape data) (-1) ;;
  hfarray_new (Plain data)
              (Some (ds ++ [DimMatrix_i_of iname (range ni);
                            DimMatrix_j_of jname (range nj)])).

(** [make_vector(data, dims, jname)]. *)
Definition make_vector (data : ndarray T) (ds : list Dim) (jname : string)
  : result (hfarray T) :=
  nj <- py_getitem (shape data) (-1) ;;
  hfarray_new (Plain data) (Some (ds ++ [DimMatrix_j_of jname (range nj)])).

(** [remove_rep(data, newdimname)].  The constructor call
    [DimRep(newdimname, repsize)] of [hftools.dataset.dim], with an integer
    for the coordinates, is the parameter [DimRep_sized].  The statements
    [a = np.array(data); a.shape = ...] assign a shape in place, which
    numpy allows only where the memory layout of the copy permits it;
    buffers here carry no layout, so the assignment is the parameter
    [assign_shape]. *)
Definition remove_rep (DimRep_sized : string -> nat -> Dim)
  (assign_shape : ndarray T -> list nat -> result (ndarray T))
  (data : hfarray T) (newdimname : string) : result (hfarray T) :=
  let order := filter (fun kd => isinstance (snd kd) DimRep)
                      (enumerate (dims data)) in
  match order with
  | [] => hfarray_new (Labeled data) (Some (dims data))
  | (first, _) :: _ =>
      let last_rep := last (map fst order) first in
      let repdims := map snd order in
      newdata <- hfarray_reorder_dimensions data
                   (firstn first (dims data) ++ repdims) ;;
      (* [hfarray(np.ascontiguousarray(data), dims=newdata.dims)]: built
         and not used further *)
      _ <- hfarray_new (Plain (buf data)) (Some (dims newdata)) ;;
      shapes <- mapM (fun kd => py_getitem (hf_shape data) (Z.of_nat (fst kd)))
                     order ;;
      let repsize := size_of shapes in
      a <- assign_shape (buf data)
             (firstn first (hf_shape data)
              ++ repsize :: skipn (S last_rep) (hf_shape data)) ;;
      hfarray_new (Plain a)
                  (Some (firstn first (dims data)
                         ++ DimRep_sized newdimname repsize
                         :: skipn (S last_rep) (dims data)))
  end.
End Constructors.


(* ================================================================== *)
(** * The SP-data reader ([hftools/file_formats/spdata.py])

    The two line-level stages of [ReadSPFileFormat]: [tokenize] tags the
    lines of a file, [group_blocks] bunches the tagged lines into blocks
    of comments, header and data rows. *)

(** The tags of [Token(tag, lineno, rad)]. *)
Inductive Tag : Type := ENDPROP | Comment | Header | Data.

(** A token as [group_blocks] unpacks it: [token, lineno, rad]. *)
Record Token : Type := mkToken {
  tok_tag : Tag;
  tok_lineno : nat;
  tok_rad : string
}.

(** The messages of [SPDataIOError]. *)
Inductive SPDataIOError : Type :=
| FileEndsInComments
| FileEndsInHeader
| MissingHeader.

(** What a consumer gets out of a generator: the values yielded, then
    either the end of the iteration or an exception. *)
Record Yielded (B : Type) : Type := mkYielded {
  yielded : list B;
  raised : option SPDataIOError
}.

Arguments mkYielded {B} yielded raised.

Definition yield_then {B : Type} (b : B) (k : option (Yielded B))
  : option (Yielded B) :=
  match k with
  | Some y => Some (mkYielded (b :: yielded y) (raised y))
  | None => None
  end.

(** The characters [str.strip()] removes from a byte string. *)
Definition is_space (c : ascii) : bool :=
  let n := nat_of_ascii c in
  (n =? 32) || ((9 <=? n) && (n <=? 13)).

Fixpoint lstrip (s : string) : string :=
  match s with
  | EmptyString => EmptyString
  | String c t => if is_space c then lstrip t else s
  end.

Fixpoint rstrip (s : string) : string :=
  match s with
  | EmptyString => EmptyString
  | String c t =>
      match rstrip t with
      | EmptyString => if is_space c then EmptyString
                       else String c EmptyString
      | t' => String c t'
      end
  end.

(** [rad.strip()]. *)
Definition strip (s : string) : string := lstrip (rstrip s).

(** [reg_header = re.compile("^[A-Za-z_]")] matched against one
    character. *)
Definition reg_header_match (c : ascii) : bool :=
  let n := nat_of_ascii c in
  ((65 <=? n) && (n <=? 90)) || ((97 <=? n) && (n <=? 122)) || (n =? 95).

(** [rad[1:]]. *)
Definition drop_first (s : string) : string :=
  match s with
  | EmptyString => EmptyString
  | String _ t => t
  end.

(** One round of the loop of [tokenize] on the stripped line [rad]: the
    token it yields, if any. *)
Definition tokenize_line (lineno : nat) (rad : string) : option Token :=
  match rad with
  | EmptyString => None
  | String c _ =>
      if prefix "!Fullcomments" rad || prefix "!PROPERTIES" rad then None
      else if prefix "!END-PROPERTIES" rad then
        Some (mkToken ENDPROP lineno rad)
      else if prefix "!" rad then
        Some (mkToken Comment lineno (drop_first rad))
      else if reg_header_match c then Some (mkToken Header lineno rad)
      else Some (mkToken Data lineno rad)
  end.

(** [ReadSPFileFormat.tokenize(stream)]. *)
Definition tokenize (stream : list string) : list Token :=
  flat_map (fun ir => match tokenize_line (fst ir + 1) (strip (snd ir)) with
                      | Some t => [t]
                      | None => []
                      end)
           (enumerate stream).

(** [rad.split(sep)] for a one-character separator. *)
Fixpoint split_on (sep : ascii) (s : string) : list string :=
  match s with
  | EmptyString => [EmptyString]
  | String c t =>
      if Ascii.eqb c sep then EmptyString :: split_on sep t
      else match split_on sep t with
           | [] => [String c EmptyString]
           | w :: ws => String c w :: ws
           end
  end.

Section GroupBlocks.
(** [hftools.utils.to_numeric] and the values it returns. *)
Variable V : Type.
Variable to_numeric : string -> V.

(** A block [[comments, header, data]]. *)
Definition Block : Type := list string * list string * list (list V).

(** [while token == "Comment"]: the comments collected and the token the
    loop stops at; [None] where the stream ends inside the loop. *)
Fixpoint comment_loop (rest : list Token) (cur : Token)
  (comments : list string) : option (list string * Token * list Token) :=
  match tok_tag cur with
  | Comment =>
      match rest with
      | [] => None
      | t :: rest' => comment_loop rest' t (comments ++ [tok_rad cur])
      end
  | _ => Some (comments, cur, rest)
  end.

(** [while running and (token == "Data")]: the rows collected, and the
    token the loop stops at unless the stream ended ([running = False]). *)
Fixpoint data_loop (rest : list Token) (cur : Token) (data : list (list V))
  : list (list V) * option (Token * list Token) :=
  match tok_tag cur with
  | Data =>
      let data' := data ++ [map to_numeric (split_on "009" (tok_rad cur))] in
      match rest with
      | [] => (data', None)
      | t :: rest' => data_loop rest' t data'
      end
  | _ => (data, Some (cur, rest))
  end.

(** [while running]: one round per unit of [fuel]; [None] where the fuel
    does not suffice. *)
Fixpoint block_loop (fuel : nat) (cur : Token) (rest : list Token)
  : option (Yielded Block) :=
  match fuel with
  | 0 => None
  | S fuel' =>
      match comment_loop rest cur [] with
      | None => Some (mkYielded [] (Some FileEndsInComments))
      | Some (comments, cur, rest) =>
          match tok_tag cur with
          | ENDPROP =>
              yield_then (comments, [], [])
                (match rest with
                 | [] => Some (mkYielded [] None)
                 | t :: rest' => block_loop fuel' t rest'
                 end)
          | Header =>
              match rest with
              | [] => Some (mkYielded [] (Some FileEndsInHeader))
              | t :: rest' =>
                  let (data, running) := data_loop rest' t [] in
                  yield_then (comments, [tok_rad cur], data)
                    (match running with
                     | None => Some (mkYielded [] None)
                     | Some (cur', rest'') => block_loop fuel' cur' rest''
                     end)
              end
          | _ => Some (mkYielded [] (Some MissingHeader))
          end
      end
  end.

(** [ReadSPFileFormat.group_blocks(stream)]: a [StopIteration] of the
    first [stream.next()] ends the generator. *)
Definition group_blocks (stream : list Token) : option (Yielded Block) :=
  match stream with
  | [] => Some (mkYielded [] None)
  | t :: rest => block_loop (S (length rest)) t rest
  end.
End GroupBlocks.


(* ================================================================== *)
(** * A dimension module for worked examples *)

(** Modelled from the spec: the dimension variants are "a closed tag set
    determining ordering priority", two descriptors are the same dimension
    "iff [name] and [variant] match", and a probe built from a bare name
    (a [DimBase]) is "matched against any variant".  So no variant derives
    from another one, and the sort priority is a function of the variant. *)
Definition flat_issubclass (c1 c2 : DimClass) : bool :=
  DimClass_eqb c1 c2 || DimClass_eqb c2 DimBase.

Definition variant_sortprio (c : DimClass) : Z :=
  match c with
  | DimPartial => (-1)%Z
  | DimBase | DimSweep => 0%Z
  | DimRep => 1%Z
  | DimMatrix_i | DimUMatrix_i => 1000%Z
  | DimMatrix_j | DimUMatrix_j => 1001%Z
  | DimAnonymous => 2000%Z
  end.

Definition spec_dim_module : DimModule :=
  {| issubclass := flat_issubclass;
     dim_eqb := Dim_eqb;
     name_eqb_dim := fun s d => String.eqb s (name d);
     sortprio := fun d => variant_sortprio (dim_class d);
     issubclass_refl := ltac:(intros c; destruct c; reflexivity);
     issubclass_DimBase := ltac:(intros c; destruct c; reflexivity);
     dim_eqb_refl :=
       ltac:(intros [c n dt u]; unfold Dim_eqb; simpl;
             replace (DimClass_eqb c c) with true
               by (destruct c; reflexivity);
             rewrite String.eqb_refl;
             destruct (list_eq_dec Z.eq_dec dt dt) as [_ | Hne];
             [| now elim Hne];
             destruct u as [u |]; simpl;
             [apply String.eqb_refl | reflexivity]) |}.


(* ================================================================== *)
(** * Notions used in the statements *)

(** Identity of dimensions: the same [name] and the same class. *)
Definition same_dimension (d1 d2 : Dim) : bool :=
  String.eqb (name d1) (name d2) && DimClass_eqb (dim_class d1) (dim_class d2).

(** An index that addresses an element of a buffer of shape [sh]. *)
Definition in_bounds (sh idx : list nat) : Prop := Forall2 lt idx sh.

(** Two buffers with the same shape and the same elements. *)
Definition same_contents {T : Type} (a b : ndarray T) : Prop :=
  shape a = shape b /\
  forall idx, in_bounds (shape a) idx -> item a idx = item b idx.

(** The inverse of a permutation [p] of [0 .. len(p) - 1]. *)
Definition inverse_permutation (p : list nat) : list nat :=
  map (fun m => position_of m p) (seq 0 (length p)).

(** [p] lists every axis of a rank-[n] buffer exactly once. *)
Definition axis_permutation (n : nat) (p : list nat) : Prop :=
  length p = n /\ NoDup p /\ forall k, In k p -> k < n.

(** The entries of [l] at the positions [p]. *)
Definition pick {A : Type} (l : list A) (p : list nat) : list A :=
  flat_map (fun k => match nth_error l k with
                     | Some x => [x]
                     | None => []
                     end) p.

Section Notions.
Context {M : DimModule} {T : Type}.

(** No dimension of [ds] is of a class derived from the class of another
    one: the classes in [ds] behave as the variant tags of the data
    model. *)
Definition plain_variants (ds : list Dim) : Prop :=
  forall d1 d2, In d1 ds -> In d2 ds ->
    issubclass (dim_class d1) (dim_class d2) = true ->
    dim_class d1 = dim_class d2.

(** A dimension collection holds no two dimensions of the same identity. *)
Definition no_duplicates (ds : list Dim) : Prop :=
  forall i j di dj,
    nth_error ds i = Some di -> nth_error ds j = Some dj ->
    same_dimension di dj = true -> i = j.

(** No two dimension objects of [ds] compare equal with [==]. *)
Definition distinct_objects (ds : list Dim) : Prop :=
  forall i j di dj,
    nth_error ds i = Some di -> nth_error ds j = Some dj ->
    dim_eqb di dj = true -> i = j.

(** [ds1] holds, for every dimension of [ds2], one of the same identity. *)
Definition dims_superset (ds1 ds2 : list Dim) : Prop :=
  forall d, In d ds2 -> exists t, In t ds1 /\ same_dimension t d = true.

(** The union of [dims_union] in the words of its description: start from
    the dimensions of the first operand and append, operand after operand,
    every dimension that is not yet present by identity. *)
Definition append_new (acc : list Dim) (d : Dim) : list Dim :=
  if existsb (same_dimension d) acc then acc else acc ++ [d].

Definition collected_dims (a0 : hfarray T) (rest : list (hfarray T))
  : list Dim :=
  fold_left append_new (flat_map (@dims T) rest) (dims a0).

(** [r] is [l] sorted by [key] with a stable sort: ordered by [key], and
    for every key the entries carrying it are those of [l] in their order
    in [l]. *)
Definition stable_sorted_by (key : Dim -> Z) (l r : list Dim) : Prop :=
  StronglySorted (fun a b => (key a <= key b)%Z) r /\
  forall k, filter (fun d => (key d =? k)%Z) r
            = filter (fun d => (key d =? k)%Z) l.


(** The position at which a collection holds the dimension that a probe
    [t] finds, if it holds one. *)
Definition owner (ds : list Dim) (t : Dim) : option nat :=
  find_index (dim_matches t) ds.

(** The axis that a target collection [newdims] gives to the dimension
    of the identity of [d]. *)
Definition target_axis (newdims : list Dim) (d : Dim) : nat :=
  match find_index (fun t => same_dimension t d) newdims with
  | Some k => k
  | None => 0
  end.

(** The coordinates of [l] at which a one-dimensional boolean buffer is
    true. *)
Definition selected_data (mask : ndarray bool) (l : list Z) : list Z :=
  map snd (filter (fun ic => item mask [fst ic]) (enumerate l)).

(** The positions below [n] at which a one-dimensional boolean buffer is
    true. *)
Definition selected_positions (mask : ndarray bool) (n : nat) : list nat :=
  filter (fun i => item mask [i]) (seq 0 n).

(** The members of a dimension class in a collection, and their
    positions. *)
Definition members (c : DimClass) (ds : list Dim) : list Dim :=
  filter (fun dim => isinstance dim c) ds.

Definition member_positions (c : DimClass) (ds : list Dim) : list Z :=
  map (fun kd => Z.of_nat (fst kd))
      (filter (fun kd => isinstance (snd kd) c) (enumerate ds)).
End Notions.

(** Notions for the SP-data reader. *)
Definition has_tag (g : Tag) (t : Token) : bool :=
  match g, tok_tag t with
  | ENDPROP, ENDPROP | Comment, Comment | Header, Header | Data, Data => true
  | _, _ => false
  end.

(** The lines [tokenize] passes over: blank lines and the markers
    [!Fullcomments] and [!PROPERTIES]. *)
Definition skipped_line (rad : string) : bool :=
  match rad with
  | EmptyString => true
  | _ => prefix "!Fullcomments" rad || prefix "!PROPERTIES" rad
  end.

(** The tag of a stripped line that is not passed over, by the way the
    line begins. *)
Definition line_tag (rad : string) : Tag :=
  if prefix "!END-PROPERTIES" rad then ENDPROP
  else if prefix "!" rad then Comment
  else match rad with
       | String c _ => if reg_header_match c then Header else Data
       | EmptyString => Data
       end.

(** The stripped line a token was made from: the text of the token, for a
    comment with its leading [!] put back. *)
Definition token_source (t : Token) : string :=
  if has_tag Comment t then String "!" (tok_rad t) else tok_rad t.

(** A block a reader can be handed: at most one header line, and data
    rows only under a header. *)
Definition well_formed_block {V : Type} (b : Block V) : Prop :=
  match b with
  | (_, header, rows) =>
      length header <= 1 /\ (rows <> [] -> length header = 1)
  end.

(** The line a token stands for, a data line split at the tabs and
    converted. *)
Inductive Line (V : Type) : Type :=
| CommentLine (rad : string)
| HeaderLine (rad : string)
| DataLine (row : list V)
| EndPropLine.

Arguments CommentLine {V} rad.
Arguments HeaderLine {V} rad.
Arguments DataLine {V} row.
Arguments EndPropLine {V}.

Section GroupNotions.
Variable V : Type.
Variable to_numeric : string -> V.

Definition data_row (t : Token) : list V :=
  map to_numeric (split_on "009" (tok_rad t)).

Definition token_line (t : Token) : Line V :=
  match tok_tag t with
  | Comment => CommentLine (tok_rad t)
  | Header => HeaderLine (tok_rad t)
  | Data => DataLine (data_row t)
  | ENDPROP => EndPropLine
  end.

(** The lines a block holds, in the order of the file: its comments, then
    its header with its data rows or, for a block without a header, the
    [!END-PROPERTIES] line that closed it. *)
Definition block_contents (b : Block V) : list (Line V) :=
  match b with
  | (comments, header, rows) =>
      map CommentLine comments
      ++ match header with
         | [] => [EndPropLine]
         | _ => map HeaderLine header ++ map DataLine rows
         end
  end.

(** How a token stream falls into blocks.  A run of comments closed by an
    [ENDPROP] token is a block of comments; a run of comments closed by a
    header that is not the last token is a block of the comments, the
    header and all the data tokens that follow it; a stream used up this
    way ends without error.  What cannot be grouped stops the iteration: a
    run of comments at the end, a header at the very end, or a data token
    where a header is due. *)
Inductive Groups
  : list Token -> list (Block V) -> option SPDataIOError -> Prop :=
| Groups_end : Groups [] [] None
| Groups_endprop (cs : list Token) (e : Token) (rest : list Token)
    (bs : list (Block V)) (r : option SPDataIOError) :
    Forall (fun t => has_tag Comment t = true) cs ->
    has_tag ENDPROP e = true ->
    Groups rest bs r ->
    Groups (cs ++ e :: rest) ((map tok_rad cs, [], []) :: bs) r
| Groups_header (cs : list Token) (h : Token) (ds rest : list Token)
    (bs : list (Block V)) (r : option SPDataIOError) :
    Forall (fun t => has_tag Comment t = true) cs ->
    has_tag Header h = true ->
    Forall (fun t => has_tag Data t = true) ds ->
    ds ++ rest <> [] ->
    (forall t rest', rest = t :: rest' -> has_tag Data t = false) ->
    Groups rest bs r ->
    Groups (cs ++ h :: ds ++ rest)
           ((map tok_rad cs, [tok_rad h], map data_row ds) :: bs) r
| Groups_ends_in_comments (cs : list Token) :
    cs <> [] ->
    Forall (fun t => has_tag Comment t = true) cs ->
    Groups cs [] (Some FileEndsInComments)
| Groups_ends_in_header (cs : list Token) (h : Token) :
    Forall (fun t => has_tag Comment t = true) cs ->
    has_tag Header h = true ->
    Groups (cs ++ [h]) [] (Some FileEndsInHeader)
| Groups_missing_header (cs : list Token) (d : Token) (more : list Token) :
    Forall (fun t => has_tag Comment t = true) cs ->
    has_tag Data d = true ->
    Groups (cs ++ d :: more) [] (Some MissingHeader).
End GroupNotions.

(* ================================================================== *)
(** * Example arrays *)

Definition freq3 : Dim := mkDim DimSweep "freq" [1; 2; 3]%Z None.
Definition rep2 : Dim := mkDim DimRep "rep" [0; 1]%Z None.
Definition rep3 : Dim := mkDim DimRep "rep" [0; 1; 2]%Z None.
Definition freq2 : Dim := mkDim DimSweep "freq" [1; 2]%Z None.
Definition trial2 : Dim := mkDim DimRep "trial" [0; 1]%Z None.

(** Shape (3, 2) over [freq] and [rep]. *)
Definition ex_A : hfarray Z :=
  mk_hfarray (np_array [3; 2] [10; 11; 20; 21; 30; 31]%Z 0%Z) [freq3; rep2].

(** Shape (2,) over [freq], and shape (3,) over [rep]. *)
Definition ex_F : hfarray Z :=
  mk_hfarray (np_array [2] [1; 2]%Z 0%Z) [freq2].

Definition ex_R : hfarray Z :=
  mk_hfarray (np_array [3] [10; 20; 30]%Z 0%Z) [rep3].

(** Shape (2, 2) over two repetition dimensions. *)
Definition ex_RR : hfarray Z :=
  mk_hfarray (np_array [2; 2] [1; 2; 3; 4]%Z 0%Z) [rep2; trial2].

(** Shape (3,) over [freq]. *)
Definition ex_S : hfarray Z :=
  mk_hfarray (np_array [3] [5; 6; 7]%Z 0%Z) [freq3].

(** Shape (2, 3) over [rep] and [freq]. *)
Definition ex_RF : hfarray Z :=
  mk_hfarray (np_array [2; 3] [1; 6; 9; 5; 5; 5]%Z 0%Z) [rep2; freq3].

(** The elements of an array in row-major order. *)
Definition elements {T : Type} (h : hfarray T) : list T :=
  map (item (buf h)) (cartesian (map (seq 0) (shape (buf h)))).

(** A boolean mask over [rep]. *)
Definition ex_mask : hfarray bool :=
  mk_hfarray (np_array [2] [false; true] false) [rep2].

Definition zsum (l : list Z) : Z := fold_right Z.add 0%Z l.


(* ================================================================== *)
(** * Facts about the sequence helpers *)

Unset Implicit Arguments.

Section SeqFacts.
Context {A : Type}.

Lemma py_getitem_nat (l : list A) (k : nat) (x : A) :
  nth_error l k = Some x -> py_getitem l (Z.of_nat k) = Ok x.
Proof.
  intros H. unfold py_getitem.
  assert (Hlt : k < length l) by (apply nth_error_Some; congruence).
  destruct (Z.of_nat k <? 0)%Z eqn:E1; [apply Z.ltb_lt in E1; lia |].
  destruct ((Z.of_nat k <? 0)%Z || (Z.of_nat (length l) <=? Z.of_nat k)%Z)
    eqn:E2.
  - apply orb_true_iff in E2 as [E2 | E2];
      [apply Z.ltb_lt in E2 | apply Z.leb_le in E2]; lia.
  - now rewrite Nat2Z.id, H.
Qed.

Lemma py_getitem_Ok_length (l : list A) (i : Z) (x : A) :
  py_getitem l i = Ok x ->
  (- Z.of_nat (length l) <= i < Z.of_nat (length l))%Z.
Proof.
  unfold py_getitem. intros H.
  destruct (i <? 0)%Z eqn:E1.
  - apply Z.ltb_lt in E1.
    destruct ((i + Z.of_nat (length l) <? 0)%Z
              || (Z.of_nat (length l) <=? i + Z.of_nat (length l))%Z) eqn:E2;
      [discriminate |].
    apply orb_false_iff in E2 as [E2 _]. apply Z.ltb_ge in E2. lia.
  - apply Z.ltb_ge in E1.
    destruct ((i <? 0)%Z || (Z.of_nat (length l) <=? i)%Z) eqn:E2;
      [discriminate |].
    apply orb_false_iff in E2 as [_ E2]. apply Z.leb_gt in E2. lia.
Qed.

Lemma find_index_Some (p : A -> bool) (l : list A) (k : nat) :
  find_index p l = Some k ->
  exists x, nth_error l k = Some x /\ p x = true /\
            forall j y, j < k -> nth_error l j = Some y -> p y = false.
Proof.
  revert k. induction l as [| a l IH]; intros k H; simpl in H; [discriminate |].
  destruct (p a) eqn:Ea.
  - injection H as <-. exists a. repeat split; auto. intros j y Hj. lia.
  - destruct (find_index p l) as [k' |] eqn:E; [| discriminate].
    injection H as <-. destruct (IH k' eq_refl) as (x & Hx & Hp & Hmin).
    exists x. repeat split; auto.
    intros [| j] y Hj Hy; simpl in Hy.
    + now injection Hy as <-.
    + apply (Hmin j); [lia | assumption].
Qed.

Lemma find_index_None (p : A -> bool) (l : list A) :
  find_index p l = None -> forall x, In x l -> p x = false.
Proof.
  induction l as [| a l IH]; intros H x Hx; simpl in *; [contradiction |].
  destruct (p a) eqn:Ea; [discriminate |].
  destruct (find_index p l) eqn:E; [discriminate |].
  destruct Hx as [<- | Hx]; auto.
Qed.

Lemma find_index_first (p : A -> bool) (l : list A) (k : nat) (x : A) :
  nth_error l k = Some x -> p x = true ->
  (forall j y, j < k -> nth_error l j = Some y -> p y = false) ->
  find_index p l = Some k.
Proof.
  revert k. induction l as [| a l IH]; intros [| k] Hx Hp Hmin; simpl in *;
    try discriminate.
  - injection Hx as ->. now rewrite Hp.
  - rewrite (Hmin 0 a); [| lia | reflexivity].
    rewrite (IH k Hx Hp); [reflexivity |].
    intros j y Hj Hy. apply (Hmin (S j)); [lia | assumption].
Qed.

Lemma find_index_existsb (p : A -> bool) (l : list A) :
  existsb p l = match find_index p l with Some _ => true | None => false end.
Proof.
  induction l as [| a l IH]; simpl; [reflexivity |].
  destruct (p a); simpl; [reflexivity |].
  rewrite IH. now destruct (find_index p l).
Qed.

Lemma enumerate_from_In (s : nat) (l : list A) (k : nat) (x : A) :
  In (k, x) (combine (seq s (length l)) l) ->
  s <= k /\ nth_error l (k - s) = Some x.
Proof.
  revert s. induction l as [| a l IH]; intros s H; simpl in H; [contradiction |].
  destruct H as [H | H].
  - injection H as <- <-. rewrite Nat.sub_diag. split; [lia | reflexivity].
  - apply IH in H as [Hle Hn]. split; [lia |].
    replace (k - s) with (S (k - S s)) by lia. exact Hn.
Qed.

Lemma enumerate_In (l : list A) (k : nat) (x : A) :
  In (k, x) (enumerate l) -> nth_error l k = Some x.
Proof.
  intros H. apply enumerate_from_In in H as [_ H].
  now rewrite Nat.sub_0_r in H.
Qed.

Lemma filter_enumerate_from (p : A -> bool) (s : nat) (l : list A) :
  map snd (filter (fun kx => p (snd kx)) (combine (seq s (length l)) l))
  = filter p l.
Proof.
  revert s. induction l as [| a l IH]; intros s; simpl; [reflexivity |].
  destruct (p a); simpl; now rewrite IH.
Qed.

Lemma filter_enumerate (p : A -> bool) (l : list A) :
  map snd (filter (fun kx => p (snd kx)) (enumerate l)) = filter p l.
Proof. apply filter_enumerate_from. Qed.

Lemma enumerate_length (l : list A) : length (enumerate l) = length l.
Proof. unfold enumerate. rewrite length_combine, length_seq. lia. Qed.

Lemma map_fst_enumerate (l : list A) :
  map fst (enumerate l) = seq 0 (length l).
Proof.
  unfold enumerate. generalize 0 as s.
  induction l as [| a l IH]; intros s; simpl; [reflexivity |].
  now rewrite IH.
Qed.

Lemma map_snd_enumerate (l : list A) : map snd (enumerate l) = l.
Proof.
  unfold enumerate. generalize 0 as s.
  induction l as [| a l IH]; intros s; simpl; [reflexivity |].
  now rewrite IH.
Qed.
End SeqFacts.

Lemma mapM_Ok_length {A B : Type} (f : A -> result B) (l : list A)
  (r : list B) :
  mapM f l = Ok r -> length r = length l.
Proof.
  revert r. induction l as [| a l IH]; intros r H; simpl in H.
  - now injection H as <-.
  - destruct (f a); simpl in H; [| discriminate].
    destruct (mapM f l); simpl in H; [| discriminate].
    injection H as <-. simpl. now rewrite (IH _ eq_refl).
Qed.

Lemma mapM_all_Ok {A B : Type} (f : A -> result B) (g : A -> B)
  (l : list A) :
  (forall x, In x l -> f x = Ok (g x)) -> mapM f l = Ok (map g l).
Proof.
  induction l as [| a l IH]; intros H; simpl; [reflexivity |].
  rewrite (H a (or_introl eq_refl)). simpl.
  rewrite IH; [reflexivity |]. intros x Hx. apply H. now right.
Qed.

Lemma map_fst_combine_eq {A B : Type} (l : list A) (l' : list B) :
  length l = length l' -> map fst (combine l l') = l.
Proof.
  revert l'. induction l as [| a l IH]; intros [| b l'] H; simpl in *;
    try discriminate; [reflexivity |].
  f_equal. apply IH. lia.
Qed.

Lemma map_snd_combine_eq {A B : Type} (l : list A) (l' : list B) :
  length l = length l' -> map snd (combine l l') = l'.
Proof.
  revert l'. induction l as [| a l IH]; intros [| b l'] H; simpl in *;
    try discriminate; [reflexivity |].
  f_equal. apply IH. lia.
Qed.

Lemma existsb_ext_In {A : Type} (f g : A -> bool) (l : list A) :
  (forall x, In x l -> f x = g x) -> existsb f l = existsb g l.
Proof.
  induction l as [| a l IH]; intros H; simpl; [reflexivity |].
  rewrite (H a (or_introl eq_refl)), IH; [reflexivity |].
  intros x Hx. apply H. now right.
Qed.

(** Inversion of a [bind] that returned. *)
Lemma bind_Ok {A B : Type} (r : result A) (k : A -> result B) (b : B) :
  bind r k = Ok b -> exists a, r = Ok a /\ k a = Ok b.
Proof. destruct r as [a | e]; simpl; intros H; [eauto | discriminate]. Qed.

Ltac inv_bind H :=
  let x := fresh "x" in
  let Hx := fresh "Hx" in
  apply bind_Ok in H as (x & Hx & H).

Tactic Notation "inv_bind" hyp(H) "as" ident(x) ident(Hx) :=
  apply bind_Ok in H as (x & Hx & H).


(* ================================================================== *)
(** * Assignment to [.dims] *)

(** C8, as stated, fails: the one-dimensional array [ex_F] is assigned an
    empty dimension collection; the lengths differ, no error is raised and
    the array is left with the mismatched collection. *)
Lemma dims_setter_mismatch_not_raised :
  length (@nil Dim) <> hf_ndim ex_F /\
  dims_setter ex_F [] <> Raise HFArrayShapeDimsMismatchError /\
  exists A', dims_setter ex_F [] = Ok A' /\ dims A' = [] /\ ~ rank_ok A'.
Proof.
  split; [discriminate |]. split; [discriminate |].
  eexists. split; [reflexivity |]. split; [reflexivity |].
  unfold rank_ok; simpl. discriminate.
Qed.

(** C8, amended: assigning to [.dims] replaces the dimension collection
    without validating it.  For every array [A] and collection [d] the
    assignment succeeds, leaves the buffer alone and makes [d] the
    collection; the rank invariant holds afterwards exactly when
    [len(d) == A.ndim], and it is the constructor that raises the mismatch
    error for such a pair. *)
Theorem dims_setter_replaces_unchecked {T : Type} (A : hfarray T)
  (d : list Dim) :
  exists A',
    dims_setter A d = Ok A' /\ dims A' = d /\ buf A' = buf A /\
    (rank_ok A' <-> length d = hf_ndim A) /\
    (length d <> hf_ndim A ->
     hfarray_new (Labeled A) (Some d) = Raise HFArrayShapeDimsMismatchError).
Proof.
  exists (mk_hfarray (buf A) d). repeat split; auto.
  intros Hne. unfold hfarray_new, verify_dimension, hf_ndim; simpl.
  destruct (Nat.eqb_spec (length d) (ndim (buf A))) as [E | E];
    [contradiction | reflexivity].
Qed.

Lemma dims_setter_replaces_unchecked_witness :
  length (@nil Dim) <> hf_ndim ex_F /\
  hfarray_new (Labeled ex_F) (Some [])
  = Raise HFArrayShapeDimsMismatchError.
Proof.
  split; [discriminate |].
  destruct (dims_setter_replaces_unchecked ex_F []) as (A' & _ & _ & _ & _ & H).
  apply H. discriminate.
Defined.

(* ================================================================== *)
(** * The matrix transpose [.t] *)

Section MatrixTranspose.
Context {M : DimModule} {T : Type}.

Let step (acc : option Dim * option Dim) (dim : Dim) :=
  if isinstance dim DimMatrix_i then (Some dim, snd acc)
  else if isinstance dim DimMatrix_j then (fst acc, Some dim)
  else acc.

Lemma matrix_dims_no_row (ds : list Dim) (acc : option Dim * option Dim) :
  (forall d, In d ds -> isinstance d DimMatrix_i = false) ->
  fst (fold_left step ds acc) = fst acc.
Proof.
  revert acc. induction ds as [| d ds IH]; intros acc H; simpl; [reflexivity |].
  rewrite IH by (intros; apply H; now right).
  unfold step. rewrite (H d (or_introl eq_refl)).
  now destruct (isinstance d DimMatrix_j).
Qed.

Lemma matrix_dims_no_column (ds : list Dim) (acc : option Dim * option Dim) :
  (forall d, In d ds -> isinstance d DimMatrix_j = false) ->
  snd (fold_left step ds acc) = snd acc.
Proof.
  revert acc. induction ds as [| d ds IH]; intros acc H; simpl; [reflexivity |].
  rewrite IH by (intros; apply H; now right).
  unfold step. rewrite (H d (or_introl eq_refl)).
  now destruct (isinstance d DimMatrix_i).
Qed.

(** C10: an array whose dimension collection holds no [DimMatrix_i]
    dimension, or no [DimMatrix_j] dimension, is returned by [.t] as it is:
    same buffer, same dimension collection, no error. *)
Theorem t_without_matrix_pair (self : hfarray T) :
  (forall d, In d (dims self) -> isinstance d DimMatrix_i = false) \/
  (forall d, In d (dims self) -> isinstance d DimMatrix_j = false) ->
  hfarray_t self = Ok self.
Proof.
  intros H. unfold hfarray_t, matrix_dims. fold step.
  destruct H as [H | H].
  - pose proof (matrix_dims_no_row (dims self) (None, None) H) as E.
    destruct (fold_left step (dims self) (None, None)) as [di dj].
    simpl in E. subst di. reflexivity.
  - pose proof (matrix_dims_no_column (dims self) (None, None) H) as E.
    destruct (fold_left step (dims self) (None, None)) as [di dj].
    simpl in E. subst dj. now destruct di.
Qed.
End MatrixTranspose.

Lemma t_without_matrix_pair_witness :
  hfarray_t (M := spec_dim_module) ex_A = Ok ex_A.
Proof.
  apply (t_without_matrix_pair (M := spec_dim_module) ex_A).
  left. intros d [<- | [<- | []]]; reflexivity.
Defined.


(* ================================================================== *)
(** * Axis resolution by class *)

Section AxisResolution.
Context {M : DimModule} {T : Type}.

Lemma member_positions_getitem (c : DimClass) (ds : list Dim) :
  Forall2 (fun d i => py_getitem ds i = Ok d)
          (members c ds) (member_positions c ds).
Proof.
  unfold members, member_positions.
  rewrite <- (filter_enumerate (fun dim => isinstance dim c) ds).
  assert (H : forall kd, In kd (filter (fun kd => isinstance (snd kd) c)
                                       (enumerate ds)) ->
                         py_getitem ds (Z.of_nat (fst kd)) = Ok (snd kd)).
  { intros [k d] Hin. apply filter_In in Hin as [Hin _].
    apply py_getitem_nat. now apply enumerate_In. }
  induction (filter (fun kd => isinstance (snd kd) c) (enumerate ds))
    as [| kd l IH]; simpl; constructor.
  - apply H. now left.
  - apply IH. intros kd' Hin. apply H. now right.
Qed.

Lemma resolve_axis_class (a : hfarray T) (c : DimClass) :
  resolve_axis a (AxClass c)
  = Ok (combine (members c (dims a)) (member_positions c (dims a))).
Proof.
  unfold resolve_axis, members, member_positions.
  rewrite issubclass_DimBase. f_equal.
  rewrite <- (filter_enumerate (fun dim => isinstance dim c) (dims a)).
  induction (filter (fun kd => isinstance (snd kd) c) (enumerate (dims a)))
    as [| kd l IH]; simpl; [reflexivity |].
  now rewrite IH.
Qed.

Lemma members_positions_length (c : DimClass) (ds : list Dim) :
  length (members c ds) = length (member_positions c ds).
Proof.
  unfold members, member_positions.
  rewrite <- (filter_enumerate (fun dim => isinstance dim c) ds).
  now rewrite !length_map.
Qed.

Lemma resolve_axes_classes (a : hfarray T) (l : list DimClass) :
  resolve_axes a (map AxClass l)
  = Ok (flat_map (fun c => combine (members c (dims a))
                                   (member_positions c (dims a))) l).
Proof.
  induction l as [| c l IH]; cbn [map resolve_axes flat_map]; [reflexivity |].
  rewrite resolve_axis_class. cbn [bind]. rewrite IH. reflexivity.
Qed.

Lemma flat_map_combine_fst (a : hfarray T) (l : list DimClass) :
  map fst (flat_map (fun c => combine (members c (dims a))
                                      (member_positions c (dims a))) l)
  = flat_map (fun c => members c (dims a)) l.
Proof.
  induction l as [| c l IH]; simpl; [reflexivity |].
  rewrite map_app, IH. f_equal.
  apply map_fst_combine_eq. apply members_positions_length.
Qed.

Lemma flat_map_combine_snd (a : hfarray T) (l : list DimClass) :
  map snd (flat_map (fun c => combine (members c (dims a))
                                      (member_positions c (dims a))) l)
  = flat_map (fun c => member_positions c (dims a)) l.
Proof.
  induction l as [| c l IH]; simpl; [reflexivity |].
  rewrite map_app, IH. f_equal.
  apply map_snd_combine_eq. apply members_positions_length.
Qed.

Lemma Forall2_flat_map {A B C : Type} (R : B -> C -> Prop)
  (f : A -> list B) (g : A -> list C) (l : list A) :
  (forall x, In x l -> Forall2 R (f x) (g x)) ->
  Forall2 R (flat_map f l) (flat_map g l).
Proof.
  induction l as [| x l IH]; intros H; simpl; [constructor |].
  apply Forall2_app; [apply H; now left |].
  apply IH. intros y Hy. apply H. now right.
Qed.

(** C6, amended.  [axis_handler] resolves a dimension class to its one
    member and raises [IndexError] when the collection holds no member or
    more than one.  [multiple_axis_handler] does not apply that rule to the
    classes of its sequence: a class that has members resolves to all of
    them, in the order of the collection, each with its position, and more
    than one member is not an error; for a class with exactly one member
    the descriptor it yields is the one [axis_handler] returns. *)
Theorem axis_resolution_by_class (a : hfarray T) (c : DimClass) :
  (forall d, members c (dims a) = [d] ->
             axis_handler a (Some (AxClass c)) = Ok (Some d)) /\
  (members c (dims a) = [] ->
   axis_handler a (Some (AxClass c)) = Raise IndexError) /\
  (1 < length (members c (dims a)) ->
   axis_handler a (Some (AxClass c)) = Raise IndexError) /\
  (forall l : list DimClass,
      (forall c', In c' l -> members c' (dims a) <> []) ->
      exists ds idxs,
        multiple_axis_handler a (AxSeq (map AxClass l))
        = Ok (Some ds, Some idxs) /\
        ds = flat_map (fun c' => members c' (dims a)) l /\
        Forall2 (fun d i => py_getitem (dims a) i = Ok d) ds idxs) /\
  (forall d, members c (dims a) = [d] ->
             exists i, multiple_axis_handler a (AxOne (AxClass c))
                       = Ok (Some [d], Some [i]) /\
                       py_getitem (dims a) i = Ok d).
Proof.
  repeat split.
  - intros d H. unfold axis_handler. rewrite issubclass_DimBase.
    unfold members in H. now rewrite H.
  - intros H. unfold axis_handler. rewrite issubclass_DimBase.
    unfold members in H. now rewrite H.
  - intros H. unfold axis_handler. rewrite issubclass_DimBase.
    unfold members in H.
    destruct (filter (fun dim => isinstance dim c) (dims a))
      as [| d1 [| d2 l]]; simpl in H; try lia. reflexivity.
  - intros l _.
    exists (flat_map (fun c' => members c' (dims a)) l),
           (flat_map (fun c' => member_positions c' (dims a)) l).
    split; [| split; [reflexivity |]].
    + unfold multiple_axis_handler. rewrite resolve_axes_classes. cbn [bind].
      now rewrite flat_map_combine_fst, flat_map_combine_snd.
    + apply Forall2_flat_map. intros c' _. apply member_positions_getitem.
  - intros d H.
    pose proof (member_positions_getitem c (dims a)) as F.
    pose proof (members_positions_length c (dims a)) as L.
    rewrite H in F, L.
    destruct (member_positions c (dims a)) as [| i [| i' l]] eqn:E;
      simpl in L; try discriminate.
    exists i. split; [| now inversion F].
    unfold multiple_axis_handler. cbn [resolve_axes].
    rewrite resolve_axis_class, H, E. reflexivity.
Qed.
End AxisResolution.

(** C6, as stated, fails: [ex_RR] holds two [DimRep] dimensions.
    [axis_handler] refuses the class [DimRep], [multiple_axis_handler]
    given the same class returns both dimensions and their positions. *)
Lemma multiple_axis_handler_ambiguous_class :
  members (M := spec_dim_module) DimRep (dims ex_RR) = [rep2; trial2] /\
  axis_handler (M := spec_dim_module) ex_RR (Some (AxClass DimRep))
  = Raise IndexError /\
  multiple_axis_handler (M := spec_dim_module) ex_RR (AxSeq [AxClass DimRep])
  = Ok (Some [rep2; trial2], Some [0; 1]%Z).
Proof. repeat split. Qed.

Lemma axis_resolution_by_class_witness :
  axis_handler (M := spec_dim_module) ex_A (Some (AxClass DimRep))
  = Ok (Some rep2) /\
  axis_handler (M := spec_dim_module) ex_A (Some (AxClass DimMatrix_i))
  = Raise IndexError /\
  axis_handler (M := spec_dim_module) ex_RR (Some (AxClass DimRep))
  = Raise IndexError.
Proof.
  destruct (axis_resolution_by_class (M := spec_dim_module) ex_A DimRep)
    as (H1 & _).
  destruct (axis_resolution_by_class (M := spec_dim_module) ex_A DimMatrix_i)
    as (_ & H2 & _).
  destruct (axis_resolution_by_class (M := spec_dim_module) ex_RR DimRep)
    as (_ & _ & H3 & _).
  split; [apply H1; reflexivity |].
  split; [apply H2; reflexivity | apply H3; simpl; lia].
Defined.


(* ================================================================== *)
(** * The stable sort *)

Section StableSort.
Context {A : Type} (key : A -> Z).

Let le_key (a b : A) : Prop := (key a <= key b)%Z.

Lemma insert_by_key_In (x y : A) (l : list A) :
  In y (insert_by_key key x l) -> y = x \/ In y l.
Proof.
  induction l as [| z l IH]; simpl.
  - intros [<- | []]. now left.
  - destruct (key x <=? key z)%Z.
    + intros [<- | H]; [now left | now right].
    + intros [<- | H]; [right; now left |].
      destruct (IH H) as [-> | H']; [now left | right; now right].
Qed.

Lemma insert_by_key_sorted (x : A) (l : list A) :
  StronglySorted le_key l -> StronglySorted le_key (insert_by_key key x l).
Proof.
  induction 1 as [| z l Hs IH Hz]; simpl.
  - constructor; constructor.
  - destruct (Z.leb_spec (key x) (key z)) as [Hle | Hgt].
    + constructor; [now constructor |].
      constructor; [exact Hle |].
      eapply Forall_impl; [| exact Hz]. unfold le_key. intros; lia.
    + constructor; [exact IH |].
      apply Forall_forall. intros y Hy.
      apply insert_by_key_In in Hy as [-> | Hy]; [unfold le_key; lia |].
      rewrite Forall_forall in Hz. now apply Hz.
Qed.

Lemma sort_by_key_sorted (l : list A) :
  StronglySorted le_key (sort_by_key key l).
Proof.
  induction l as [| x l IH]; simpl; [constructor |].
  now apply insert_by_key_sorted.
Qed.

Lemma insert_by_key_filter (k : Z) (x : A) (l : list A) :
  filter (fun d => (key d =? k)%Z) (insert_by_key key x l)
  = filter (fun d => (key d =? k)%Z) (x :: l).
Proof.
  induction l as [| z l IH]; simpl; [reflexivity |].
  destruct (Z.leb_spec (key x) (key z)) as [Hle | Hgt]; [reflexivity |].
  simpl in *. rewrite IH.
  destruct (Z.eqb_spec (key x) k) as [Ex | Ex];
    destruct (Z.eqb_spec (key z) k) as [Ez | Ez]; try reflexivity; lia.
Qed.

Lemma sort_by_key_filter (k : Z) (l : list A) :
  filter (fun d => (key d =? k)%Z) (sort_by_key key l)
  = filter (fun d => (key d =? k)%Z) l.
Proof.
  induction l as [| x l IH]; simpl; [reflexivity |].
  rewrite insert_by_key_filter. simpl. now rewrite IH.
Qed.
End StableSort.

(* ================================================================== *)
(** * [dims_union] *)

Section DimsUnion.
Context {M : DimModule} {T : Type}.

Lemma DimClass_eqb_eq (c1 c2 : DimClass) :
  DimClass_eqb c1 c2 = true <-> c1 = c2.
Proof. split; [destruct c1, c2; simpl; congruence | intros <-; now destruct c1]. Qed.

(** Among dimensions of unrelated classes the test of the collections is
    the identity of dimensions. *)
Lemma dim_matches_same_dimension (ds : list Dim) (value x : Dim) :
  plain_variants ds -> In value ds -> In x ds ->
  dim_matches value x = same_dimension value x.
Proof.
  intros Hp Hv Hx. unfold dim_matches, same_dimension, isinstance.
  rewrite (String.eqb_sym (name x) (name value)).
  destruct (String.eqb (name value) (name x)); [simpl | reflexivity].
  destruct (issubclass (dim_class x) (dim_class value)) eqn:E.
  - rewrite (Hp x value Hx Hv E). symmetry. now apply DimClass_eqb_eq.
  - destruct (DimClass_eqb (dim_class value) (dim_class x)) eqn:E';
      [| reflexivity].
    apply DimClass_eqb_eq in E'. rewrite E', issubclass_refl in E.
    discriminate.
Qed.

Lemma append_missing_append_new (ds later acc : list Dim) :
  plain_variants ds -> incl acc ds -> incl later ds ->
  append_missing acc later = fold_left append_new later acc.
Proof.
  intros Hp. unfold append_missing.
  revert acc. induction later as [| d later IH]; intros acc Ha Hl; simpl;
    [reflexivity |].
  assert (Hd : In d ds) by (apply Hl; now left).
  assert (E : DimsList_contains acc d = existsb (same_dimension d) acc).
  { unfold DimsList_contains. apply existsb_ext_In.
    intros x Hx. apply (dim_matches_same_dimension ds d x Hp Hd (Ha x Hx)). }
  unfold append_new at 2. rewrite E.
  apply IH.
  - destruct (existsb (same_dimension d) acc); [exact Ha |].
    apply incl_app; [exact Ha |]. intros y [<- | []]. exact Hd.
  - intros y Hy. apply Hl. now right.
Qed.

Lemma union_loops_collected (ds : list Dim) (rest : list (hfarray T))
  (acc : list Dim) :
  plain_variants ds -> incl acc ds -> incl (flat_map (@dims T) rest) ds ->
  fold_left (fun acc B => append_missing acc (dims B)) rest acc
  = fold_left append_new (flat_map (@dims T) rest) acc.
Proof.
  intros Hp. revert acc.
  induction rest as [| B rest IH]; intros acc Ha Hr; simpl; [reflexivity |].
  simpl in Hr. rewrite fold_left_app.
  assert (HB : incl (dims B) ds) by (intros y Hy; apply Hr, in_or_app; now left).
  rewrite (append_missing_append_new ds (dims B) acc Hp Ha HB).
  apply IH; [| intros y Hy; apply Hr, in_or_app; now right].
  clear - Ha HB. revert acc Ha.
  induction (dims B) as [| d l IHl]; intros acc Ha; simpl; [exact Ha |].
  apply IHl; [intros y Hy; apply HB; now right |].
  unfold append_new. destruct (existsb (same_dimension d) acc); [exact Ha |].
  apply incl_app; [exact Ha |]. intros y [<- | []]. apply HB. now left.
Qed.

Lemma fold_append_new_prefix (later acc : list Dim) :
  exists tail, fold_left append_new later acc = acc ++ tail.
Proof.
  revert acc. induction later as [| d later IH]; intros acc; simpl.
  - exists []. now rewrite app_nil_r.
  - unfold append_new at 2.
    destruct (existsb (same_dimension d) acc); [apply IH |].
    destruct (IH (acc ++ [d])) as [tail E].
    exists (d :: tail). now rewrite E, <- app_assoc.
Qed.

(** C3: [dims_union] over a first operand and further operands returns
    the collection that starts from the dimensions of the first operand,
    has appended from each later operand every dimension not already
    present by identity (same name, same class), and is then sorted by
    [sortprio] with a stable sort, dimensions of equal priority keeping
    their first-seen order.  (The operands carry dimensions of unrelated
    classes, as the variant tags of the data model are.) *)
Theorem dims_union_stable_sorted_union (a0 : hfarray T)
  (rest : list (hfarray T)) :
  plain_variants (flat_map (@dims T) (a0 :: rest)) ->
  exists r tail,
    dims_union (a0 :: rest) = Ok r /\
    collected_dims a0 rest = dims a0 ++ tail /\
    stable_sorted_by sortprio (collected_dims a0 rest) r.
Proof.
  intros Hp. simpl in Hp.
  destruct (fold_append_new_prefix (flat_map (@dims T) rest) (dims a0))
    as [tail Et].
  exists (sort_by_key sortprio (collected_dims a0 rest)), tail.
  split; [| split; [exact Et |]].
  - unfold dims_union, collected_dims. f_equal. f_equal.
    apply (union_loops_collected (dims a0 ++ flat_map (@dims T) rest)); [exact Hp | |].
    + intros y Hy. apply in_or_app. now left.
    + intros y Hy. apply in_or_app. now right.
  - split; [apply sort_by_key_sorted | intros k; apply sort_by_key_filter].
Qed.
End DimsUnion.

Lemma dims_union_stable_sorted_union_witness :
  plain_variants (M := spec_dim_module) (flat_map (@dims Z) [ex_R; ex_F; ex_A])
  /\ exists r tail,
      dims_union (M := spec_dim_module) [ex_R; ex_F; ex_A] = Ok r /\
      collected_dims ex_R [ex_F; ex_A] = dims ex_R ++ tail /\
      stable_sorted_by (sortprio (DimModule := spec_dim_module))
                       (collected_dims ex_R [ex_F; ex_A]) r.
Proof.
  assert (Hp : plain_variants (M := spec_dim_module)
                 (flat_map (@dims Z) [ex_R; ex_F; ex_A])).
  { intros d1 d2 H1 H2.
    simpl in H1, H2.
    destruct H1 as [<- | [<- | [<- | [<- | []]]]];
      destruct H2 as [<- | [<- | [<- | [<- | []]]]];
      simpl; intros E; solve [reflexivity | discriminate E]. }
  split; [exact Hp |].
  exact (dims_union_stable_sorted_union (M := spec_dim_module)
           ex_R [ex_F; ex_A] Hp).
Defined.


(* ================================================================== *)
(** * Transposition *)

Section Positions.

Lemma position_of_In (m : nat) (l : list nat) :
  In m l -> position_of m l < length l /\ nth (position_of m l) l 0 = m.
Proof.
  intros H. unfold position_of.
  destruct (find_index (Nat.eqb m) l) as [k |] eqn:E.
  - apply find_index_Some in E as (x & Hx & Hp & _).
    apply Nat.eqb_eq in Hp. subst x. split.
    + apply nth_error_Some. congruence.
    + now apply nth_error_nth.
  - pose proof (find_index_None _ _ E m H) as F.
    now rewrite Nat.eqb_refl in F.
Qed.

Lemma position_of_nth (l : list nat) (k : nat) :
  NoDup l -> k < length l -> position_of (nth k l 0) l = k.
Proof.
  intros Hnd Hk. unfold position_of.
  rewrite (find_index_first (Nat.eqb (nth k l 0)) l k (nth k l 0)).
  - reflexivity.
  - now apply nth_error_nth'.
  - apply Nat.eqb_refl.
  - intros j y Hj Hy. apply Nat.eqb_neq. intros E.
    assert (Hjl : j < length l) by lia.
    rewrite (nth_error_nth' l 0 Hjl) in Hy. injection Hy as Hy.
    assert (j = k)
      by (apply (proj1 (NoDup_nth l 0) Hnd j k Hjl Hk); congruence).
    lia.
Qed.

Lemma axis_permutation_of_Permutation (n : nat) (p : list nat) :
  Permutation p (seq 0 n) -> axis_permutation n p.
Proof.
  intros H. repeat split.
  - rewrite (Permutation_length H). apply length_seq.
  - apply (Permutation_NoDup (Permutation_sym H)). apply seq_NoDup.
  - intros k Hk. apply (Permutation_in _ H) in Hk. apply in_seq in Hk. lia.
Qed.

Lemma axis_permutation_In (n : nat) (p : list nat) (m : nat) :
  axis_permutation n p -> m < n -> In m p.
Proof.
  intros (Hl & Hnd & Hlt) Hm.
  assert (Hperm : Permutation p (seq 0 n)).
  { apply NoDup_Permutation_bis; [exact Hnd | rewrite length_seq; lia |].
    intros k Hk. apply in_seq. specialize (Hlt k Hk). lia. }
  apply (Permutation_in _ (Permutation_sym Hperm)). apply in_seq. lia.
Qed.

Lemma inverse_permutation_nth (n : nat) (p : list nat) (m : nat) :
  axis_permutation n p -> m < n ->
  nth m (inverse_permutation p) 0 = position_of m p.
Proof.
  intros (Hl & _) Hm. unfold inverse_permutation.
  rewrite (nth_indep _ 0 (position_of 0 p))
    by (rewrite length_map, length_seq; lia).
  rewrite (map_nth (fun m => position_of m p)), seq_nth by lia.
  reflexivity.
Qed.

Lemma inverse_permutation_axis (n : nat) (p : list nat) :
  axis_permutation n p -> axis_permutation n (inverse_permutation p).
Proof.
  intros Hp. pose proof Hp as (Hl & Hnd & Hlt).
  unfold inverse_permutation. repeat split.
  - now rewrite length_map, length_seq.
  - apply Injective_map_NoDup_in; [| apply seq_NoDup].
    intros x y Hx Hy E. apply in_seq in Hx, Hy.
    assert (Ix : In x p) by (apply (axis_permutation_In n); [exact Hp | lia]).
    assert (Iy : In y p) by (apply (axis_permutation_In n); [exact Hp | lia]).
    destruct (position_of_In x p Ix) as [_ Ex].
    destruct (position_of_In y p Iy) as [_ Ey].
    rewrite E in Ex. congruence.
  - intros k Hk. apply in_map_iff in Hk as (m & <- & Hm).
    apply in_seq in Hm.
    assert (Im : In m p) by (apply (axis_permutation_In n); [exact Hp | lia]).
    destruct (position_of_In m p Im) as [Hlt' _]. lia.
Qed.

(** [p[q[m]] = m] and [q[p[k]] = k] for the inverse [q] of [p]. *)
Lemma inverse_permutation_right (n : nat) (p : list nat) (m : nat) :
  axis_permutation n p -> m < n ->
  nth (nth m (inverse_permutation p) 0) p 0 = m.
Proof.
  intros Hp Hm. rewrite (inverse_permutation_nth n) by assumption.
  apply position_of_In. now apply (axis_permutation_In n).
Qed.

Lemma position_of_inverse (n : nat) (p : list nat) (m : nat) :
  axis_permutation n p -> m < n ->
  position_of (position_of m p) (inverse_permutation p) = m.
Proof.
  intros Hp Hm.
  pose proof (inverse_permutation_axis n p Hp) as (Hl & Hnd & _).
  rewrite <- (inverse_permutation_nth n p m Hp Hm).
  apply position_of_nth; [exact Hnd | lia].
Qed.
End Positions.

Section PickFacts.
Context {A : Type}.

Lemma pick_map_nth (l : list A) (p : list nat) (d : A) :
  (forall k, In k p -> k < length l) ->
  pick l p = map (fun k => nth k l d) p.
Proof.
  induction p as [| k p IH]; intros H; simpl; [reflexivity |].
  rewrite IH by (intros; apply H; now right).
  assert (Hk : k < length l) by (apply H; now left).
  now rewrite (nth_error_nth' l d Hk).
Qed.

Lemma pick_length (l : list A) (p : list nat) :
  (forall k, In k p -> k < length l) -> length (pick l p) = length p.
Proof.
  induction p as [| k p IH]; intros H; simpl; [reflexivity |].
  assert (Hk : k < length l) by (apply H; now left).
  destruct (nth_error l k) eqn:E; [| apply nth_error_None in E; lia].
  simpl. f_equal. apply IH. intros; apply H; now right.
Qed.

Lemma mapM_py_getitem_pick (l : list A) (p : list nat) :
  (forall k, In k p -> k < length l) ->
  mapM (py_getitem l) (map Z.of_nat p) = Ok (pick l p).
Proof.
  induction p as [| k p IH]; intros H; simpl; [reflexivity |].
  assert (Hk : k < length l) by (apply H; now left).
  destruct (nth_error l k) as [x |] eqn:E; [| apply nth_error_None in E; lia].
  rewrite (py_getitem_nat l k x E). simpl.
  rewrite IH by (intros; apply H; now right). reflexivity.
Qed.

Lemma map_nth_seq_id (l : list A) (d : A) :
  map (fun k => nth k l d) (seq 0 (length l)) = l.
Proof.
  induction l as [| a l IH]; simpl; [reflexivity |].
  f_equal. rewrite <- seq_shift, map_map. exact IH.
Qed.

(** Picking by a permutation and then by its inverse gives the list back. *)
Lemma pick_inverse (l : list A) (p : list nat) :
  axis_permutation (length l) p ->
  pick (pick l p) (inverse_permutation p) = l.
Proof.
  intros Hp. pose proof Hp as (Hl & Hnd & Hlt).
  pose proof (inverse_permutation_axis _ p Hp) as (Hl' & Hnd' & Hlt').
  destruct l as [| d l'] eqn:El.
  - simpl in Hl. apply length_zero_iff_nil in Hl. subst p. reflexivity.
  - rewrite <- El in *.
    assert (Hlen : length (pick l p) = length l)
      by (rewrite pick_length; auto).
    rewrite (pick_map_nth (pick l p) _ d)
      by (intros k Hk; rewrite Hlen; auto).
    rewrite (pick_map_nth l p d) by auto.
    unfold inverse_permutation at 1. rewrite map_map, Hl.
    transitivity (map (fun k => nth k l d) (seq 0 (length l)));
      [| apply map_nth_seq_id].
    apply map_ext_in. intros m Hm. apply in_seq in Hm.
    assert (Im : In m p) by (apply (axis_permutation_In (length l)); auto; lia).
    destruct (position_of_In m p Im) as [Hlt1 Hnth].
    rewrite (nth_indep _ d (nth 0 l d))
      by (rewrite length_map; exact Hlt1).
    rewrite (map_nth (fun k => nth k l d)). now rewrite Hnth.
Qed.
End PickFacts.

Section Transpose.
Context {T : Type}.

Lemma normalize_axis_nat (n k : nat) :
  k < n -> normalize_axis n (Z.of_nat k) = Ok k.
Proof.
  intros H. unfold normalize_axis.
  destruct (Z.ltb_spec (Z.of_nat k) (- Z.of_nat n)); [lia |].
  destruct (Z.leb_spec (Z.of_nat n) (Z.of_nat k)); [lia |].
  destruct (Z.ltb_spec (Z.of_nat k) 0); [lia |].
  simpl. now rewrite Nat2Z.id.
Qed.

Lemma existsb_eqb_false (k : nat) (seen : list nat) :
  ~ In k seen -> existsb (Nat.eqb k) seen = false.
Proof.
  intros H. destruct (existsb (Nat.eqb k) seen) eqn:E; [| reflexivity].
  apply existsb_exists in E as (x & Hx & Ex).
  apply Nat.eqb_eq in Ex. subst x. contradiction.
Qed.

Lemma existsb_eqb_true (k : nat) (seen : list nat) :
  In k seen -> existsb (Nat.eqb k) seen = true.
Proof.
  intros H. apply existsb_exists. exists k. split; [exact H | apply Nat.eqb_refl].
Qed.

Lemma normalize_axes_nat (n : nat) (p seen : list nat) :
  (forall k, In k p -> k < n) -> NoDup p ->
  (forall k, In k p -> ~ In k seen) ->
  normalize_axes n seen (map Z.of_nat p) = Ok p.
Proof.
  revert seen. induction p as [| k p IH]; intros seen Hlt Hnd Hs; simpl;
    [reflexivity |].
  rewrite normalize_axis_nat by (apply Hlt; now left). simpl.
  rewrite existsb_eqb_false by (apply Hs; now left).
  inversion Hnd as [| ? ? Hk Hnd']; subst.
  rewrite IH; [reflexivity | | exact Hnd' |].
  - intros; apply Hlt; now right.
  - intros j Hj [<- | Hin]; [contradiction |].
    apply (Hs j); [now right | exact Hin].
Qed.

Lemma default_order (n : nat) (p : list nat) :
  length p = n ->
  match map Z.of_nat p with
  | [] => map Z.of_nat (rev (seq 0 n))
  | _ :: _ => map Z.of_nat p
  end = map Z.of_nat p.
Proof. destruct p; simpl; intros <-; reflexivity. Qed.

Lemma np_transpose_permutation (a : ndarray T) (p : list nat) :
  axis_permutation (ndim a) p ->
  np_transpose a (map Z.of_nat p)
  = Ok (mk_ndarray (map (fun k => nth k (shape a) 0) p)
                   (fun idx => item a (unpermute p idx))).
Proof.
  intros (Hl & Hnd & Hlt). unfold np_transpose.
  rewrite (default_order (ndim a) p Hl), length_map, Hl, Nat.eqb_refl.
  rewrite normalize_axes_nat; auto.
Qed.

Lemma hfarray_transpose_permutation (A : hfarray T) (p : list nat) :
  rank_ok A -> axis_permutation (hf_ndim A) p ->
  hfarray_transpose A (map Z.of_nat p)
  = Ok (mk_hfarray
          (mk_ndarray (map (fun k => nth k (hf_shape A) 0) p)
                      (fun idx => item (buf A) (unpermute p idx)))
          (pick (dims A) p)).
Proof.
  intros Hr Hp. pose proof Hp as (Hl & Hnd & Hlt).
  unfold hfarray_transpose.
  rewrite (default_order (hf_ndim A) p Hl).
  unfold hf_ndim in *. rewrite (np_transpose_permutation (buf A) p Hp).
  cbn [bind].
  assert (Hd : forall k, In k p -> k < length (dims A))
    by (intros k Hk; rewrite Hr; auto).
  rewrite (mapM_py_getitem_pick (dims A) p Hd). cbn [bind].
  unfold hfarray_new, verify_dimension, hf_ndim, ndim. cbn.
  rewrite (pick_length (dims A) p Hd), length_map, Nat.eqb_refl.
  reflexivity.
Qed.

Lemma unpermute_inverse (n : nat) (p idx : list nat) :
  axis_permutation n p -> length idx = n ->
  unpermute p (unpermute (inverse_permutation p) idx) = idx.
Proof.
  intros Hp Hi. pose proof Hp as (Hl & Hnd & Hlt).
  pose proof (inverse_permutation_axis n p Hp) as (Hl' & _ & _).
  unfold unpermute. rewrite Hl', Hl.
  transitivity (map (fun k => nth k idx 0) (seq 0 (length idx)));
    [| apply map_nth_seq_id].
  rewrite Hi. apply map_ext_in. intros m Hm. apply in_seq in Hm.
  assert (Im : In m p) by (apply (axis_permutation_In n); auto; lia).
  destruct (position_of_In m p Im) as [Hlt1 _].
  set (g := fun m' => nth (position_of m' (inverse_permutation p)) idx 0).
  rewrite (nth_indep _ 0 (g 0)) by (rewrite length_map, length_seq; lia).
  rewrite (map_nth g), seq_nth by lia. unfold g. simpl.
  rewrite (position_of_inverse n) by (auto; lia). reflexivity.
Qed.

(** C9: transposing a labeled array by a permutation of its axes and then
    by the inverse permutation succeeds twice and gives an array with the
    dimension collection of the original, in the same order, and the same
    buffer contents. *)
Theorem transpose_round_trip (A : hfarray T) (p : list nat) :
  rank_ok A ->
  Permutation p (seq 0 (hf_ndim A)) ->
  exists B C,
    hfarray_transpose A (map Z.of_nat p) = Ok B /\
    hfarray_transpose B (map Z.of_nat (inverse_permutation p)) = Ok C /\
    dims C = dims A /\
    same_contents (buf C) (buf A).
Proof.
  intros Hr Hperm.
  apply axis_permutation_of_Permutation in Hperm.
  pose proof Hperm as (Hl & Hnd & Hlt).
  pose proof (inverse_permutation_axis _ p Hperm) as Hq.
  pose proof Hq as (Hl' & _ & Hlt').
  assert (Hd : forall k, In k p -> k < length (dims A))
    by (intros k Hk; rewrite Hr; auto).
  assert (Hs : forall k, In k p -> k < length (hf_shape A))
    by (intros k Hk; apply Hlt; exact Hk).
  set (B := mk_hfarray
              (mk_ndarray (map (fun k => nth k (hf_shape A) 0) p)
                          (fun idx => item (buf A) (unpermute p idx)))
              (pick (dims A) p)).
  assert (HrB : rank_ok B).
  { unfold rank_ok, hf_ndim, ndim. simpl.
    now rewrite (pick_length (dims A) p Hd), length_map. }
  assert (HnB : hf_ndim B = hf_ndim A).
  { unfold B, hf_ndim, ndim. simpl. now rewrite length_map. }
  rewrite <- HnB in Hq.
  exists B. eexists. split; [| split; [| split]].
  - apply hfarray_transpose_permutation; assumption.
  - apply (hfarray_transpose_permutation B _ HrB Hq).
  - simpl. apply pick_inverse. now rewrite Hr.
  - assert (Esh : map (fun k => nth k (hf_shape B) 0) (inverse_permutation p)
                  = hf_shape A).
    { unfold B, hf_shape at 1. simpl.
      rewrite <- (pick_map_nth (hf_shape A) p 0 Hs).
      rewrite <- pick_map_nth.
      - apply pick_inverse. exact Hperm.
      - intros k Hk. rewrite (pick_length _ p Hs). rewrite Hl. auto. }
    split; simpl.
    + exact Esh.
    + intros idx Hb. rewrite Esh in Hb.
      apply Forall2_length in Hb.
      now rewrite (unpermute_inverse (hf_ndim A) p idx Hperm Hb).
Qed.
End Transpose.

Lemma transpose_round_trip_witness :
  rank_ok ex_A /\ Permutation [1; 0] (seq 0 (hf_ndim ex_A)) /\
  exists B C,
    hfarray_transpose ex_A (map Z.of_nat [1; 0]) = Ok B /\
    hfarray_transpose B (map Z.of_nat (inverse_permutation [1; 0])) = Ok C /\
    dims C = dims ex_A /\
    same_contents (buf C) (buf ex_A).
Proof.
  assert (Hr : rank_ok ex_A) by reflexivity.
  assert (Hp : Permutation [1; 0] (seq 0 (hf_ndim ex_A)))
    by apply perm_swap.
  split; [exact Hr |]. split; [exact Hp |].
  exact (transpose_round_trip ex_A [1; 0] Hr Hp).
Defined.


(* ================================================================== *)
(** * [change_shape] *)

Lemma same_dimension_iff (d1 d2 : Dim) :
  same_dimension d1 d2 = true <->
  name d1 = name d2 /\ dim_class d1 = dim_class d2.
Proof.
  unfold same_dimension. rewrite andb_true_iff, String.eqb_eq.
  split; intros [H1 H2]; split; auto.
  - destruct (dim_class d1), (dim_class d2); simpl in H2; congruence.
  - rewrite H2. now destruct (dim_class d2).
Qed.

Lemma same_dimension_sym (d1 d2 : Dim) :
  same_dimension d1 d2 = true -> same_dimension d2 d1 = true.
Proof.
  rewrite !same_dimension_iff. intros [H1 H2]. now split.
Qed.

Lemma same_dimension_trans (d1 d2 d3 : Dim) :
  same_dimension d1 d2 = true -> same_dimension d2 d3 = true ->
  same_dimension d1 d3 = true.
Proof.
  rewrite !same_dimension_iff. intros [H1 H2] [H3 H4]. split; congruence.
Qed.

Lemma no_duplicates_tail (d : Dim) (ds : list Dim) :
  no_duplicates (d :: ds) -> no_duplicates ds.
Proof.
  intros H i j di dj Hi Hj E.
  specialize (H (S i) (S j) di dj Hi Hj E). lia.
Qed.

Lemma map_seq_nth_error {A B : Type} (f : A -> B) (g : nat -> B)
  (l : list A) :
  (forall i d, nth_error l i = Some d -> g i = f d) ->
  map g (seq 0 (length l)) = map f l.
Proof.
  revert g. induction l as [| a l IH]; intros g H; simpl; [reflexivity |].
  rewrite (H 0 a eq_refl). f_equal.
  rewrite <- seq_shift, map_map. apply IH.
  intros i d Hd. apply (H (S i) d Hd).
Qed.

Lemma ravel_lt (sh idx : list nat) :
  in_bounds sh idx -> ravel sh idx < size_of sh.
Proof.
  unfold in_bounds. intros H. induction H as [| i n idx sh Hi H IH]; simpl.
  - lia.
  - nia.
Qed.

Lemma unravel_ravel (sh idx : list nat) :
  in_bounds sh idx -> unravel sh (ravel sh idx) = idx.
Proof.
  unfold in_bounds. intros H. induction H as [| i n idx sh Hi H IH]; simpl.
  - reflexivity.
  - pose proof (ravel_lt sh idx H) as Hlt.
    assert (Hz : size_of sh <> 0) by lia.
    assert (Hm : (i * size_of sh + ravel sh idx) mod size_of sh
                 = ravel sh idx).
    { rewrite (Nat.add_comm (i * size_of sh)), Nat.Div0.mod_add.
      now apply Nat.mod_small. }
    assert (Hd : (i * size_of sh + ravel sh idx) / size_of sh = i).
    { rewrite Nat.div_add_l by exact Hz.
      rewrite Nat.div_small by exact Hlt. lia. }
    rewrite Hm, Hd, IH. reflexivity.
Qed.

Lemma position_of_cons_other (i j : nat) (l : list nat) :
  i <> j -> In i l -> position_of i (j :: l) = S (position_of i l).
Proof.
  intros Hne Hin. unfold position_of. cbn [find_index].
  destruct (Nat.eqb_spec i j) as [E | _]; [contradiction |].
  destruct (find_index (Nat.eqb i) l) as [k |] eqn:E; [reflexivity |].
  pose proof (find_index_None _ _ E i Hin) as F.
  now rewrite Nat.eqb_refl in F.
Qed.

Section ChangeShape.
Context {M : DimModule} {T : Type}.

Variable x : hfarray T.
Variable newdims : list Dim.
Hypothesis x_rank : rank_ok x.
Hypothesis classes_plain : plain_variants (dims x ++ newdims).
Hypothesis x_unique : no_duplicates (dims x).

Let owned_size (t : Dim) : nat :=
  match owner (dims x) t with
  | Some i => nth i (hf_shape x) 0
  | None => 1
  end.

Let owned_axis (t : Dim) : list nat :=
  match owner (dims x) t with
  | Some i => [i]
  | None => []
  end.

Lemma owner_Some (t : Dim) (i : nat) :
  In t newdims -> owner (dims x) t = Some i ->
  exists d, nth_error (dims x) i = Some d /\ same_dimension t d = true.
Proof.
  intros Ht H. apply find_index_Some in H as (d & Hd & Hm & _).
  exists d. split; [exact Hd |].
  rewrite <- (dim_matches_same_dimension (dims x ++ newdims) t d); auto.
  - apply in_or_app. now right.
  - apply in_or_app. left. eapply nth_error_In; eauto.
Qed.

Lemma owner_None (t : Dim) :
  In t newdims -> owner (dims x) t = None ->
  forall d, In d (dims x) -> same_dimension t d = false.
Proof.
  intros Ht H d Hd.
  rewrite <- (dim_matches_same_dimension (dims x ++ newdims) t d); auto.
  - apply (find_index_None _ _ H d Hd).
  - apply in_or_app. now right.
  - apply in_or_app. now left.
Qed.

Lemma owner_of_same (t d : Dim) (i : nat) :
  In t newdims -> nth_error (dims x) i = Some d ->
  same_dimension t d = true -> owner (dims x) t = Some i.
Proof.
  intros Ht Hd E.
  destruct (owner (dims x) t) as [j |] eqn:Ej.
  - destruct (owner_Some t j Ht Ej) as (d' & Hd' & E').
    f_equal. apply (x_unique j i d' d Hd' Hd).
    apply (same_dimension_trans d' t d); [now apply same_dimension_sym | exact E].
  - rewrite (owner_None t Ht Ej d) in E; [discriminate |].
    eapply nth_error_In; eauto.
Qed.

Lemma owner_lt (t : Dim) (i : nat) :
  owner (dims x) t = Some i -> i < length (hf_shape x).
Proof.
  intros H. apply find_index_Some in H as (d & Hd & _).
  unfold rank_ok, hf_ndim, ndim in x_rank. unfold hf_shape.
  rewrite <- x_rank. apply nth_error_Some. congruence.
Qed.

(** The two lists the loop of [change_shape] builds. *)
Lemma change_shape_loop_result (l : list Dim) :
  change_shape_loop x l = Ok (map owned_size l, flat_map owned_axis l).
Proof.
  induction l as [| t l IH]; cbn [change_shape_loop map flat_map];
    [reflexivity |].
  unfold Dims_contains. rewrite find_index_existsb.
  unfold matching_index, owned_size, owned_axis, owner.
  destruct (find_index (dim_matches t) (dims x)) as [i |] eqn:E.
  - cbn [bind].
    pose proof (owner_lt t i E) as Hlt.
    rewrite (py_getitem_nat (hf_shape x) i (nth i (hf_shape x) 0))
      by (now apply nth_error_nth').
    cbn [bind]. rewrite IH. reflexivity.
  - rewrite IH. reflexivity.
Qed.

Lemma size_of_inserted_ones (l : list Dim) :
  size_of (map owned_size l)
  = size_of (map (fun k => nth k (hf_shape x) 0) (flat_map owned_axis l)).
Proof.
  induction l as [| t l IH]; simpl; [reflexivity |].
  unfold owned_size at 1, owned_axis at 1.
  destruct (owner (dims x) t); simpl; rewrite IH; lia.
Qed.

Hypothesis newdims_unique : no_duplicates newdims.
Hypothesis newdims_superset : dims_superset newdims (dims x).

Lemma neworder_In (l : list Dim) (i : nat) :
  In i (flat_map owned_axis l) <->
  exists t, In t l /\ owner (dims x) t = Some i.
Proof.
  rewrite in_flat_map. split; intros (t & Ht & H); exists t; split; auto.
  - unfold owned_axis in H. destruct (owner (dims x) t); [| contradiction].
    destruct H as [<- | []]. reflexivity.
  - unfold owned_axis. rewrite H. now left.
Qed.

Lemma neworder_NoDup (l : list Dim) :
  incl l newdims -> no_duplicates l -> NoDup (flat_map owned_axis l).
Proof.
  induction l as [| t l IH]; intros Hin Hu; simpl; [constructor |].
  assert (Hrest : NoDup (flat_map owned_axis l)).
  { apply IH; [intros y Hy; apply Hin; now right |].
    now apply (no_duplicates_tail t). }
  unfold owned_axis at 1.
  destruct (owner (dims x) t) as [i |] eqn:E; [| exact Hrest].
  simpl. constructor; [| exact Hrest].
  intros Hi. apply neworder_In in Hi as (t' & Ht' & E').
  assert (Ht : In t newdims) by (apply Hin; now left).
  assert (Ht'n : In t' newdims) by (apply Hin; now right).
  destruct (owner_Some t i Ht E) as (d & Hd & Ed).
  destruct (owner_Some t' i Ht'n E') as (d' & Hd' & Ed').
  rewrite Hd in Hd'. injection Hd' as <-.
  apply In_nth_error in Ht' as (j & Hj).
  assert (F : 0 = S j).
  { apply (Hu 0 (S j) t t'); [reflexivity | exact Hj |].
    apply (same_dimension_trans t d t'); [exact Ed |].
    now apply same_dimension_sym. }
  discriminate.
Qed.

Lemma neworder_permutation :
  axis_permutation (hf_ndim x) (flat_map owned_axis newdims).
Proof.
  assert (Hnd : NoDup (flat_map owned_axis newdims))
    by (apply neworder_NoDup; [apply incl_refl | exact newdims_unique]).
  assert (Hlt : forall k, In k (flat_map owned_axis newdims) -> k < hf_ndim x).
  { intros k Hk. apply neworder_In in Hk as (t & _ & E).
    apply (owner_lt t k E). }
  assert (Hperm : Permutation (flat_map owned_axis newdims)
                              (seq 0 (hf_ndim x))).
  { apply NoDup_Permutation; [exact Hnd | apply seq_NoDup |].
    intros i. split.
    - intros Hi. apply in_seq. specialize (Hlt i Hi). lia.
    - intros Hi. apply in_seq in Hi.
      assert (Hil : i < length (dims x)) by (rewrite x_rank; lia).
      destruct (nth_error (dims x) i) as [d |] eqn:Ed;
        [| apply nth_error_None in Ed; lia].
      destruct (newdims_superset d (nth_error_In _ _ Ed)) as (t & Ht & E).
      apply neworder_In. exists t. split; [exact Ht |].
      now apply (owner_of_same t d i). }
  repeat split; [| exact Hnd | exact Hlt].
  rewrite (Permutation_length Hperm). apply length_seq.
Qed.

Lemma hfarray_view_Ok : hfarray_view x = Ok x.
Proof.
  unfold hfarray_view, hfarray_new, verify_dimension. cbn.
  rewrite x_rank, Nat.eqb_refl. now destruct x.
Qed.

(** The array [change_shape] returns. *)
Lemma change_shape_result :
  change_shape x newdims
  = Ok (mk_hfarray
          (mk_ndarray
             (map owned_size newdims)
             (fun idx =>
                item (buf x)
                  (unpermute (flat_map owned_axis newdims)
                     (unravel (map (fun k => nth k (hf_shape x) 0)
                                   (flat_map owned_axis newdims))
                              (ravel (map owned_size newdims) idx)))))
          newdims).
Proof.
  unfold change_shape. rewrite hfarray_view_Ok. cbn [bind].
  rewrite change_shape_loop_result. cbn [bind].
  rewrite (hfarray_transpose_permutation x _ x_rank neworder_permutation).
  cbn [bind buf shape]. unfold np_set_shape. cbn [shape item].
  rewrite <- size_of_inserted_ones, Nat.eqb_refl. reflexivity.
Qed.
(** The components of a target index on the axes that [x] owns. *)
Let restrict : list Dim -> list nat -> list nat :=
  fix go (l : list Dim) (idx : list nat) : list nat :=
    match l, idx with
    | t :: l', i :: idx' =>
        match owner (dims x) t with
        | Some _ => i :: go l' idx'
        | None => go l' idx'
        end
    | _, _ => []
    end.

Lemma ravel_inserted_ones (l : list Dim) (idx : list nat) :
  in_bounds (map owned_size l) idx ->
  ravel (map owned_size l) idx
  = ravel (map (fun k => nth k (hf_shape x) 0) (flat_map owned_axis l))
          (restrict l idx)
  /\ in_bounds (map (fun k => nth k (hf_shape x) 0) (flat_map owned_axis l))
               (restrict l idx).
Proof.
  revert idx. induction l as [| t l IH]; intros idx H.
  - inversion H; subst. split; [reflexivity | constructor].
  - cbn [map] in H. inversion H as [| i0 s idx' S' Hi Hrest]; subst.
    destruct (IH idx' Hrest) as [E B].
    cbn [map flat_map ravel restrict].
    pose proof (size_of_inserted_ones l) as Hsz.
    unfold owned_size, owned_axis in *.
    destruct (owner (dims x) t) as [i |]; cbn [app map ravel].
    + split; [rewrite E, Hsz; reflexivity |].
      constructor; assumption.
    + split; [| exact B].
      assert (i0 = 0) by lia. subst i0. rewrite E. lia.
Qed.

Lemma restrict_target (l : list Dim) (idx : list nat) (i : nat) (d : Dim) :
  incl l newdims -> length idx = length l ->
  nth_error (dims x) i = Some d ->
  In i (flat_map owned_axis l) ->
  exists k,
    find_index (fun t => same_dimension t d) l = Some k /\
    nth (position_of i (flat_map owned_axis l)) (restrict l idx) 0
    = nth k idx 0.
Proof.
  intros Hin Hlen Hd. revert idx Hlen.
  induction l as [| t l IH]; intros idx Hlen Hi; [contradiction |].
  destruct idx as [| i0 idx]; [discriminate |].
  assert (Ht : In t newdims) by (apply Hin; now left).
  assert (Hl : incl l newdims) by (intros y Hy; apply Hin; now right).
  cbn [flat_map find_index restrict] in Hi |- *.
  unfold owned_axis at 1 in Hi. unfold owned_axis at 1.
  destruct (owner (dims x) t) as [i' |] eqn:E.
  - destruct (Nat.eq_dec i' i) as [-> | Hne].
    + destruct (owner_Some t i Ht E) as (d' & Hd' & Ed).
      rewrite Hd in Hd'. injection Hd' as <-. rewrite Ed.
      exists 0. split; [reflexivity |].
      cbn [app]. unfold position_of. cbn [find_index].
      now rewrite Nat.eqb_refl.
    + cbn [app] in Hi |- *. destruct Hi as [Hi | Hi]; [contradiction |].
      destruct (IH Hl idx ltac:(simpl in Hlen; lia) Hi) as (k & Ek & En).
      destruct (same_dimension t d) eqn:Etd.
      * rewrite (owner_of_same t d i Ht Hd Etd) in E. congruence.
      * rewrite Ek. exists (S k). split; [reflexivity |].
        rewrite position_of_cons_other by auto. exact En.
  - cbn [app] in Hi |- *.
    destruct (IH Hl idx ltac:(simpl in Hlen; lia) Hi) as (k & Ek & En).
    rewrite (owner_None t Ht E d (nth_error_In _ _ Hd)), Ek.
    exists (S k). split; [reflexivity | exact En].
Qed.

(** The element that the reshaped array holds at a target index. *)
Lemma change_shape_item (idx : list nat) :
  in_bounds (map owned_size newdims) idx ->
  unpermute (flat_map owned_axis newdims)
    (unravel (map (fun k => nth k (hf_shape x) 0)
                  (flat_map owned_axis newdims))
             (ravel (map owned_size newdims) idx))
  = map (fun d => nth (target_axis newdims d) idx 0) (dims x).
Proof.
  intros Hb.
  destruct (ravel_inserted_ones newdims idx Hb) as [E B].
  rewrite E, (unravel_ravel _ _ B).
  pose proof neworder_permutation as Hperm.
  pose proof Hperm as (Hl & _ & _).
  unfold unpermute. rewrite Hl, <- x_rank.
  assert (Hlen : length idx = length newdims).
  { apply Forall2_length in Hb. now rewrite length_map in Hb. }
  apply map_seq_nth_error. intros i d Hd.
  assert (Hil : i < length (dims x)) by (apply nth_error_Some; congruence).
  assert (Hin : In i (flat_map owned_axis newdims)).
  { apply (axis_permutation_In (hf_ndim x)); [exact Hperm |].
    rewrite <- x_rank. exact Hil. }
  destruct (restrict_target newdims idx i d (incl_refl _) Hlen Hd Hin)
    as (k & Ek & En).
  unfold target_axis. rewrite Ek. exact En.
Qed.
End ChangeShape.

Section ChangeShapeClaim.
Context {M : DimModule} {T : Type}.

(** C4: for a labeled array [x] and a target collection [newdims] that
    holds, by identity, every dimension of [x] (both collections free of
    duplicates, the classes involved unrelated), [change_shape(x, newdims)]
    returns an array of rank [len(newdims)] whose dimension collection is
    [newdims]; the axis of a target dimension that [x] owns has the size
    of the axis of [x] for that dimension, the axis of a target dimension
    that [x] does not own has size 1; and the buffer is the buffer of [x]
    transposed into the target order: the element at a target index is the
    element of [x] at the index that takes, on each axis of [x], the
    component of the target index on the axis of the same dimension. *)
Theorem change_shape_to_superset (x : hfarray T) (newdims : list Dim) :
  rank_ok x ->
  plain_variants (dims x ++ newdims) ->
  no_duplicates (dims x) ->
  no_duplicates newdims ->
  dims_superset newdims (dims x) ->
  exists r,
    change_shape x newdims = Ok r /\
    hf_ndim r = length newdims /\
    dims r = newdims /\
    (forall k t, nth_error newdims k = Some t ->
      (forall i d, nth_error (dims x) i = Some d ->
                   same_dimension t d = true ->
                   nth_error (hf_shape r) k = nth_error (hf_shape x) i) /\
      ((forall d, In d (dims x) -> same_dimension t d = false) ->
       nth_error (hf_shape r) k = Some 1)) /\
    (forall idx, in_bounds (hf_shape r) idx ->
       item (buf r) idx
       = item (buf x)
              (map (fun d => nth (target_axis newdims d) idx 0) (dims x))).
Proof.
  intros Hr Hp Hux Hun Hsup.
  eexists. split; [apply change_shape_result; assumption |].
  split; [unfold hf_ndim, ndim; cbn; apply length_map |].
  split; [reflexivity |].
  split.
  2:{ intros idx Hb. cbn [buf item]. f_equal.
      apply (change_shape_item x newdims Hr Hp Hux Hun Hsup idx Hb). }
  intros k t Hk. unfold hf_shape. cbn [buf shape].
  rewrite nth_error_map, Hk. cbn [option_map].
  assert (Ht : In t newdims) by (eapply nth_error_In; eauto).
  split.
  - intros i d Hd E.
    rewrite (owner_of_same x newdims Hp Hux t d i Ht Hd E).
    symmetry. apply nth_error_nth'.
    unfold rank_ok, hf_ndim, ndim in Hr. rewrite <- Hr.
    apply nth_error_Some. congruence.
  - intros Hnone.
    destruct (owner (dims x) t) as [i |] eqn:E; [| reflexivity].
    destruct (owner_Some x newdims Hp t i Ht E) as (d & Hd & Ed).
    rewrite (Hnone d) in Ed; [discriminate | eapply nth_error_In; eauto].
Qed.
End ChangeShapeClaim.

Lemma change_shape_to_superset_witness :
  rank_ok ex_F /\
  plain_variants (M := spec_dim_module) (dims ex_F ++ [freq2; rep3]) /\
  no_duplicates (dims ex_F) /\
  no_duplicates [freq2; rep3] /\
  dims_superset [freq2; rep3] (dims ex_F) /\
  exists r,
    change_shape (M := spec_dim_module) ex_F [freq2; rep3] = Ok r /\
    hf_ndim r = 2 /\
    dims r = [freq2; rep3] /\
    nth_error (hf_shape r) 0 = Some 2 /\
    nth_error (hf_shape r) 1 = Some 1.
Proof.
  assert (H1 : rank_ok ex_F) by reflexivity.
  assert (H2 : plain_variants (M := spec_dim_module)
                 (dims ex_F ++ [freq2; rep3])).
  { intros d1 d2 I1 I2. simpl in I1, I2.
    destruct I1 as [<- | [<- | [<- | []]]];
      destruct I2 as [<- | [<- | [<- | []]]];
      simpl; intros E; solve [reflexivity | discriminate E]. }
  assert (H3 : no_duplicates (dims ex_F)).
  { intros [| [| i]] [| [| j]] di dj Hi Hj E; simpl in Hi, Hj;
      try discriminate; reflexivity. }
  assert (H4 : no_duplicates [freq2; rep3]).
  { intros [| [| [| i]]] [| [| [| j]]] di dj Hi Hj E; simpl in Hi, Hj;
      try discriminate; try reflexivity;
      injection Hi as <-; injection Hj as <-; discriminate E. }
  assert (H5 : dims_superset [freq2; rep3] (dims ex_F)).
  { intros d [<- | []]. exists freq2. split; [now left | reflexivity]. }
  repeat (split; [assumption |]).
  destruct (change_shape_to_superset (M := spec_dim_module)
              ex_F [freq2; rep3] H1 H2 H3 H4 H5)
    as (r & E & Hn & Hd & Hs & _).
  exists r. split; [exact E |]. split; [exact Hn |]. split; [exact Hd |].
  split.
  - destruct (Hs 0 freq2 eq_refl) as [Hown _].
    rewrite (Hown 0 freq2 eq_refl eq_refl). reflexivity.
  - destruct (Hs 1 rep3 eq_refl) as [_ Hnew].
    apply Hnew. intros d [<- | []]. reflexivity.
Defined.

(* ================================================================== *)
(** * What every returned array satisfies *)

Section Inversion.
Context {M : DimModule} {T : Type}.

Lemma hfarray_new_rank (data : ArrayLike T) (d0 : option (list Dim))
  (r : hfarray T) :
  hfarray_new data d0 = Ok r -> rank_ok r.
Proof.
  unfold hfarray_new. intros H. inv_bind H as d Hd.
  unfold verify_dimension in H.
  destruct (Nat.eqb_spec
              (length (dims (mk_hfarray (buffer_of data) d)))
              (hf_ndim (mk_hfarray (buffer_of data) d))) as [E | E];
    simpl in H; [| discriminate].
  injection H as <-. exact E.
Qed.

Lemma hfarray_new_mismatch (data : ArrayLike T) (d : list Dim) :
  length d <> ndim (buffer_of data) ->
  hfarray_new data (Some d) = Raise HFArrayShapeDimsMismatchError.
Proof.
  intros H. unfold hfarray_new, verify_dimension, hf_ndim. cbn.
  destruct (Nat.eqb_spec (length d) (ndim (buffer_of data)));
    [contradiction | reflexivity].
Qed.

Lemma hfarray_new_explicit (data : ArrayLike T) (d : list Dim) :
  length d = ndim (buffer_of data) ->
  hfarray_new data (Some d) = Ok (mk_hfarray (buffer_of data) d).
Proof.
  intros H. unfold hfarray_new, verify_dimension, hf_ndim. cbn.
  now rewrite H, Nat.eqb_refl.
Qed.


Lemma change_shape_loop_length (x : hfarray T) (nd : list Dim)
  (sh ord : list nat) :
  change_shape_loop x nd = Ok (sh, ord) -> length sh = length nd.
Proof.
  revert sh ord. induction nd as [| t nd IH]; intros sh ord H;
    cbn [change_shape_loop] in H.
  - now injection H as <- <-.
  - destruct (Dims_contains (dims x) t).
    + inv_bind H as i Hi. inv_bind H as n Hn. inv_bind H as i' Hi'.
      inv_bind H as so Hso.
      destruct so as [sh' ord']. injection H as <- <-.
      simpl. f_equal. eapply IH; eauto.
    + inv_bind H as so Hso. destruct so as [sh' ord']. injection H as <- <-.
      simpl. f_equal. eapply IH; eauto.
Qed.

Lemma change_shape_Ok (x : hfarray T) (nd : list Dim) (r : hfarray T) :
  change_shape x nd = Ok r ->
  dims r = nd /\ length (hf_shape r) = length nd.
Proof.
  unfold change_shape. intros H.
  inv_bind H as v Hv. inv_bind H as so Hso. destruct so as [sh ord].
  inv_bind H as t Ht. inv_bind H as b Hb.
  unfold dims_setter in H. injection H as <-.
  split; [reflexivity |].
  unfold np_set_shape in Hb.
  destruct (size_of (shape (buf t)) =? size_of sh); [| discriminate].
  injection Hb as <-. unfold hf_shape. cbn.
  eapply change_shape_loop_length; eauto.
Qed.

Lemma change_shape_rank (x : hfarray T) (nd : list Dim) (r : hfarray T) :
  change_shape x nd = Ok r -> rank_ok r.
Proof.
  intros H. apply change_shape_Ok in H as [Hd Hs].
  unfold rank_ok, hf_ndim, ndim. unfold hf_shape in Hs. congruence.
Qed.

Lemma broadcast_rev_length (s1 s2 r : list nat) :
  broadcast_rev s1 s2 = Ok r -> length r = Nat.max (length s1) (length s2).
Proof.
  revert s2 r. induction s1 as [| m s1 IH]; intros [| n s2] r H; simpl in H.
  - now injection H as <-.
  - now injection H as <-.
  - injection H as <-. simpl. lia.
  - inv_bind H as d Hd. inv_bind H as r' Hr'. injection H as <-. simpl.
    now rewrite (IH s2 r' Hr').
Qed.

Lemma broadcast_shapes_length (s1 s2 r : list nat) :
  broadcast_shapes s1 s2 = Ok r ->
  length r = Nat.max (length s1) (length s2).
Proof.
  unfold broadcast_shapes. intros H. inv_bind H as r' Hr'. injection H as <-.
  rewrite length_rev, (broadcast_rev_length _ _ _ Hr'), !length_rev.
  reflexivity.
Qed.

Lemma ndarray_operator_rank (f : T -> T -> T) (ab : Aligned T)
  (r : hfarray T) :
  match ab with
  | WithNumber a _ => rank_ok a
  | WithArray a b => rank_ok a /\ rank_ok b /\ dims a = dims b
  end ->
  ndarray_operator f ab = Ok r -> rank_ok r.
Proof.
  destruct ab as [a v | a b]; simpl.
  - intros Ha H. injection H as <-. exact Ha.
  - intros (Ha & Hb & Hd) H. inv_bind H as c Hc. injection H as <-.
    unfold np_binop in Hc. inv_bind Hc as sh Hsh. injection Hc as <-.
    unfold rank_ok, hf_ndim, ndim in *. cbn.
    rewrite (broadcast_shapes_length _ _ _ Hsh).
    rewrite <- Ha, <- Hb, Hd. lia.
Qed.
End Inversion.


(* ================================================================== *)
(** * The arithmetic operators align their operands *)

Section OperatorAlignment.
Context {M : DimModule} {T : Type}.

End OperatorAlignment.


(** The sum of [ex_F] over [freq] and [ex_R] over [rep]: shape (2, 3),
    dimensions [freq], [rep], each element the broadcast sum. *)
Example add_freq_rep :
  exists r,
    hfarray_operator (M := spec_dim_module) Z.add ex_F
                     (ArrayOperand (Labeled ex_R)) = Ok r /\
    hf_shape r = [2; 3] /\ dims r = [freq2; rep3] /\
    elements r = [11; 21; 31; 12; 22; 32]%Z.
Proof. eexists. split; [reflexivity |]. repeat split. Qed.


(* ================================================================== *)
(** * The rank invariant *)

Section RankInvariant.
Context {M : DimModule} {T : Type}.

Lemma hfarray_transpose_rank (self : hfarray T) (order : list Z)
  (r : hfarray T) :
  hfarray_transpose self order = Ok r -> rank_ok r.
Proof.
  unfold hfarray_transpose. intros H.
  inv_bind H as b Hb. inv_bind H as d Hd.
  eapply hfarray_new_rank; eauto.
Qed.

Lemma hfarray_reorder_dimensions_rank (self : hfarray T) (order : list Dim)
  (r : hfarray T) :
  hfarray_reorder_dimensions self order = Ok r -> rank_ok r.
Proof.
  unfold hfarray_reorder_dimensions. intros H.
  inv_bind H as io Hio. destruct io as [infos neworder].
  inv_bind H as others Ho.
  eapply hfarray_transpose_rank; eauto.
Qed.

Lemma hfarray_squeeze_rank (self : hfarray T) (axis : AxisArg)
  (r : hfarray T) :
  hfarray_squeeze self axis = Ok r -> rank_ok r.
Proof.
  unfold hfarray_squeeze. intros H.
  inv_bind H as dd Hdd. destruct dd as [ds dimidxs].
  inv_bind H as newinfo Hn. inv_bind H as b Hb.
  eapply hfarray_new_rank; eauto.
Qed.

Lemma getitem_mask_rank (self : hfarray T) (mask : hfarray bool)
  (r : hfarray T) :
  getitem_mask self mask = Ok r -> rank_ok r.
Proof.
  unfold getitem_mask. intros H.
  inv_bind H as reordered Hr. inv_bind H as newdim Hd. inv_bind H as b Hb.
  eapply hfarray_new_rank; eauto.
Qed.

Ltac labeled_from_basic H :=
  let i := fresh "indices" in
  let Hi := fresh "Hi" in
  let ds := fresh "ds" in
  let Hds := fresh "Hds" in
  let out := fresh "out" in
  let Hout := fresh "Hout" in
  let h := fresh "h" in
  let Hh := fresh "Hh" in
  cbv zeta in H;
  apply bind_Ok in H as (i & Hi & H);
  apply bind_Ok in H as (ds & Hds & H);
  apply bind_Ok in H as (out & Hout & H);
  match type of H with
  | (if ?c then _ else _) = _ => destruct c; [discriminate H |]
  end;
  apply bind_Ok in H as (h & Hh & H);
  injection H as <-;
  eapply hfarray_new_rank; eauto.

Lemma hfarray_getitem_rank (self : hfarray T) (x : IndexArg)
  (r : hfarray T) :
  hfarray_getitem self x = Ok (LabeledArray r) -> rank_ok r.
Proof.
  unfold hfarray_getitem. intros H.
  destruct x as [b | l | mask].
  - destruct b as [i | s | |].
    + labeled_from_basic H.
    + labeled_from_basic H.
    + inv_bind H as h Hh. injection H as <-.
      unfold hfarray_view in Hh. eapply hfarray_new_rank; eauto.
    + inv_bind H as out Hout. discriminate H.
  - destruct (existsb is_newaxis l).
    + inv_bind H as out Hout. discriminate H.
    + labeled_from_basic H.
  - inv_bind H as h Hh. injection H as <-.
    eapply getitem_mask_rank; eauto.
Qed.

Lemma hfarray_reduce_rank (f : list T -> T) (self : hfarray T)
  (axis : AxisArg) (keepdims dimerror : bool) (r : hfarray T) :
  rank_ok self ->
  hfarray_reduce f self axis keepdims dimerror = Ok r -> rank_ok r.
Proof.
  intros Hs. unfold hfarray_reduce.
  destruct (multiple_axis_handler self axis) as [[ds dimidx] | e].
  - intros H. inv_bind H as b Hb. inv_bind H as res Hres.
    destruct keepdims.
    + injection H as <-. eapply hfarray_new_rank; eauto.
    + eapply hfarray_squeeze_rank; eauto.
  - destruct e; try discriminate.
    destruct dimerror; [discriminate |].
    intros H. injection H as <-. exact Hs.
Qed.

Lemma hfarray_cumulative_rank (f : list T -> T) (self : hfarray T)
  (axis : option AxisSpec) (r : hfarray T) :
  hfarray_cumulative f self axis = Ok r -> rank_ok r.
Proof.
  unfold hfarray_cumulative. destruct axis as [s |]; [| discriminate].
  intros H. inv_bind H as d Hd. destruct d as [d |]; [| discriminate].
  inv_bind H as i Hi.
  destruct (i <? hf_ndim self); [| discriminate].
  eapply hfarray_new_rank; eauto.
Qed.

Lemma make_same_dims_list_pair (A B a b : hfarray T) :
  make_same_dims_list [A; B] = Ok [a; b] ->
  rank_ok a /\ rank_ok b /\ dims a = dims b.
Proof.
  unfold make_same_dims_list. intros H. inv_bind H as nd Hnd.
  cbn [mapM] in H. inv_bind H as a' Ha. inv_bind H as l Hl.
  inv_bind Hl as b' Hb'. injection Hl as <-. injection H as <- <-.
  pose proof (change_shape_Ok _ _ _ Ha) as [Da _].
  pose proof (change_shape_Ok _ _ _ Hb') as [Db _].
  repeat split; [eapply change_shape_rank; eauto .. | congruence].
Qed.

Lemma check_instance_rank (func : Aligned T -> result (hfarray T))
  (self : hfarray T) (other : Operand T) (r : hfarray T) :
  rank_ok self ->
  (forall ab r',
      match ab with
      | WithNumber a _ => rank_ok a
      | WithArray a b => rank_ok a /\ rank_ok b /\ dims a = dims b
      end -> func ab = Ok r' -> rank_ok r') ->
  check_instance func self other = Ok r -> rank_ok r.
Proof.
  intros Hs Hf. unfold check_instance.
  destruct other as [v | d].
  - apply Hf. exact Hs.
  - intros H. inv_bind H as other' Ho. inv_bind H as ab Hab.
    destruct ab as [| a [| b [| c l]]]; try discriminate.
    apply (Hf (WithArray a b)); [| exact H].
    unfold make_same_dims in Hab. cbn [bind] in Hab.
    eapply make_same_dims_list_pair; eauto.
Qed.

Lemma hfarray_operator_rank (f : T -> T -> T) (self : hfarray T)
  (other : Operand T) (r : hfarray T) :
  rank_ok self -> hfarray_operator f self other = Ok r -> rank_ok r.
Proof.
  intros Hs. unfold hfarray_operator.
  apply check_instance_rank; [exact Hs |].
  intros ab r'. apply ndarray_operator_rank.
Qed.

Lemma hfarray_reflected_rank (f : T -> T -> T) (self : hfarray T)
  (other : Operand T) (r : hfarray T) :
  rank_ok self -> hfarray_reflected f self other = Ok r -> rank_ok r.
Proof.
  intros Hs. unfold hfarray_reflected.
  apply check_instance_rank; [exact Hs |].
  intros [a v | a b] r'.
  - intros Ha. now apply hfarray_operator_rank.
  - intros (Ha & _). now apply hfarray_operator_rank.
Qed.

Lemma hfarray_unary_rank (f : T -> T) (self : hfarray T) :
  rank_ok self -> rank_ok (hfarray_unary f self).
Proof. intros H. exact H. Qed.

Lemma hfarray_add_dim_rank (self : hfarray T) (dim : option Dim) (axis : Z)
  (r : hfarray T) :
  rank_ok self -> hfarray_add_dim self dim axis = Ok r -> rank_ok r.
Proof.
  intros Hs. unfold hfarray_add_dim.
  destruct dim as [dim |]; [| intros H; injection H as <-; exact Hs].
  destruct (Dims_contains (dims self) dim);
    [intros H; injection H as <-; exact Hs |].
  cbv zeta. intros H. inv_bind H as out Hout. inv_bind H as out' Hout'.
  eapply hfarray_new_rank; eauto.
Qed.

Lemma py_setitem_length {A : Type} (l : list A) (i : nat) (x : A)
  (r : list A) :
  py_setitem l i x = Ok r -> length r = length l.
Proof.
  revert i r. induction l as [| y l IH]; intros [| i] r H; simpl in H;
    try discriminate.
  - now injection H as <-.
  - inv_bind H as r' Hr'. injection H as <-. simpl. f_equal. eauto.
Qed.

Lemma hfarray_t_rank (self r : hfarray T) :
  rank_ok self -> hfarray_t self = Ok r -> rank_ok r.
Proof.
  intros Hs. unfold hfarray_t.
  destruct (matrix_dims (dims self)) as [[di |] [dj |]];
    try (intros H; injection H as <-; exact Hs).
  intros H. inv_bind H as i Hi. inv_bind H as j Hj.
  inv_bind H as oj Hoj. inv_bind H as oi Hoi.
  inv_bind H as o1 Ho1. inv_bind H as o2 Ho2.
  inv_bind H as out Hout. inv_bind H as n1 Hn1. inv_bind H as n2 Hn2.
  unfold dims_setter in H. injection H as <-.
  apply hfarray_transpose_rank in Hout.
  unfold rank_ok, hf_ndim in *. cbn [dims buf].
  rewrite (py_setitem_length _ _ _ _ Hn2), (py_setitem_length _ _ _ _ Hn1).
  exact Hout.
Qed.

(** Where the rank invariant [len(A.dims) == A.ndim] is kept: it holds for
    every array returned by construction, [transpose],
    [reorder_dimensions], the matrix transpose [.t], [squeeze], indexing,
    the reductions (and the running reductions), the operators that
    [check_instance] wraps (forward and reflected), the unary operators
    and [add_dim]; construction with a dimension collection whose length
    differs from the rank of the buffer raises
    [HFArrayShapeDimsMismatchError]. *)
Theorem rank_invariant_preserved (self : hfarray T) :
  rank_ok self ->
  (forall (data : ArrayLike T) d0 r,
      hfarray_new data d0 = Ok r -> rank_ok r) /\
  (forall (data : ArrayLike T) d,
      length d <> ndim (buffer_of data) ->
      hfarray_new data (Some d) = Raise HFArrayShapeDimsMismatchError) /\
  (forall order r, hfarray_transpose self order = Ok r -> rank_ok r) /\
  (forall order r,
      hfarray_reorder_dimensions self order = Ok r -> rank_ok r) /\
  (forall r, hfarray_t self = Ok r -> rank_ok r) /\
  (forall axis r, hfarray_squeeze self axis = Ok r -> rank_ok r) /\
  (forall x r, hfarray_getitem self x = Ok (LabeledArray r) -> rank_ok r) /\
  (forall f axis keepdims dimerror r,
      hfarray_reduce f self axis keepdims dimerror = Ok r -> rank_ok r) /\
  (forall f axis r, hfarray_cumulative f self axis = Ok r -> rank_ok r) /\
  (forall f other r, hfarray_operator f self other = Ok r -> rank_ok r) /\
  (forall f other r, hfarray_reflected f self other = Ok r -> rank_ok r) /\
  (forall f, rank_ok (hfarray_unary f self)) /\
  (forall dim axis r, hfarray_add_dim self dim axis = Ok r -> rank_ok r).
Proof.
  intros Hs. repeat split.
  - intros data d0 r. apply hfarray_new_rank.
  - intros data d. apply hfarray_new_mismatch.
  - intros order r. apply hfarray_transpose_rank.
  - intros order r. apply hfarray_reorder_dimensions_rank.
  - intros r. now apply hfarray_t_rank.
  - intros axis r. apply hfarray_squeeze_rank.
  - intros x r. apply hfarray_getitem_rank.
  - intros f axis keepdims dimerror r. now apply hfarray_reduce_rank.
  - intros f axis r. apply hfarray_cumulative_rank.
  - intros f other r. now apply hfarray_operator_rank.
  - intros f other r. now apply hfarray_reflected_rank.
  - intros f. now apply hfarray_unary_rank.
  - intros dim axis r. now apply hfarray_add_dim_rank.
Qed.
End RankInvariant.

Lemma rank_invariant_preserved_witness :
  rank_ok ex_A /\
  exists r,
    hfarray_reduce (M := spec_dim_module) zsum ex_A (AxOne (AxName "rep"))
                   false true = Ok r /\
    rank_ok r.
Proof.
  assert (H : rank_ok ex_A) by reflexivity.
  split; [exact H |].
  destruct (rank_invariant_preserved (M := spec_dim_module) ex_A H)
    as (_ & _ & _ & _ & _ & _ & _ & Hred & _).
  eexists. split; [reflexivity |].
  apply (Hred zsum (AxOne (AxName "rep")) false true). reflexivity.
Defined.

(** C1 at [ex_S < ex_RF], an array of shape (3,) over [freq] compared with
    an array of shape (2, 3) over [rep] and [freq], both keeping the rank
    invariant: the comparison is the operator inherited from [ndarray], it
    broadcasts the buffers to shape (2, 3) and hands back an array that
    carries the one dimension [freq] of the first operand, so the rank
    invariant does not hold of the result.  The wrapped operator [ex_S +
    ex_RF] on the same operands aligns them to [dims_union] first and
    returns an array of shape (3, 2) over [freq] and [rep], which keeps
    it. *)
Lemma comparison_breaks_rank_invariant :
  rank_ok ex_S /\ rank_ok ex_RF /\
  (exists r,
      hfarray_inherited_operator Z.ltb ex_S ex_RF = Ok r /\
      hf_shape r = [2; 3] /\ dims r = [freq3] /\
      elements r = [false; false; true; false; false; false] /\
      ~ rank_ok r) /\
  (exists r,
      hfarray_operator (M := spec_dim_module) Z.add ex_S
                       (ArrayOperand (Labeled ex_RF)) = Ok r /\
      hf_shape r = [3; 2] /\ dims r = [freq3; rep2] /\
      elements r = [6; 10; 12; 11; 16; 12]%Z /\
      rank_ok r).
Proof.
  split; [reflexivity |]. split; [reflexivity |]. split.
  - eexists. split; [reflexivity |]. repeat split. discriminate.
  - eexists. split; [reflexivity |]. repeat split.
Qed.

(* ================================================================== *)
(** * Indexing with a boolean labeled array *)

Section ListFacts.
Context {A : Type}.

Lemma skipn_nth_error (l : list A) (a : nat) (x : A) :
  nth_error l a = Some x -> skipn a l = x :: skipn (S a) l.
Proof.
  revert a. induction l as [| y l IH]; intros [| a] H; simpl in *;
    try discriminate.
  - now injection H as ->.
  - now apply IH.
Qed.

Lemma firstn_nth_error (l : list A) (a : nat) (x : A) :
  nth_error l a = Some x -> firstn (S a) l = firstn a l ++ [x].
Proof.
  revert a. induction l as [| y l IH]; intros [| a] H; simpl in *;
    try discriminate.
  - now injection H as ->.
  - f_equal. now apply IH.
Qed.

Lemma pick_seq_all (l : list A) : pick l (seq 0 (length l)) = l.
Proof.
  destruct l as [| d l']; [reflexivity |].
  set (l := d :: l').
  rewrite (pick_map_nth l (seq 0 (length l)) d).
  - apply map_nth_seq_id.
  - intros k Hk. apply in_seq in Hk. lia.
Qed.

Lemma select_enumerate_from (g : nat -> bool) (s : nat) (l : list A) :
  select (map g (seq s (length l))) l
  = map snd (filter (fun ic => g (fst ic)) (combine (seq s (length l)) l)).
Proof.
  revert s. induction l as [| x l IH]; intros s; simpl; [reflexivity |].
  destruct (g s); simpl; now rewrite IH.
Qed.

Lemma filter_enumerate_count (g : nat -> bool) (s : nat) (l : list A) :
  length (filter (fun ic => g (fst ic)) (combine (seq s (length l)) l))
  = length (filter g (seq s (length l))).
Proof.
  revert s. induction l as [| x l IH]; intros s; simpl; [reflexivity |].
  destruct (g s); simpl; now rewrite IH.
Qed.
End ListFacts.

Lemma filter_singletons_count (p : list nat -> bool) (s : list nat) :
  length (filter p (flat_map (fun i => [[i]]) s))
  = length (filter (fun i => p [i]) s).
Proof.
  induction s as [| i s IH]; simpl; [reflexivity |].
  destruct (p [i]); simpl; now rewrite IH.
Qed.

Lemma axis_permutation_seq (n : nat) : axis_permutation n (seq 0 n).
Proof.
  repeat split; [apply length_seq | apply seq_NoDup |].
  intros k Hk. apply in_seq in Hk. lia.
Qed.

Lemma filter_singletons (p : list nat -> bool) (s : list nat) :
  filter p (flat_map (fun i => [[i]]) s)
  = map (fun i => [i]) (filter (fun i => p [i]) s).
Proof.
  induction s as [| i s IH]; simpl; [reflexivity |].
  destruct (p [i]); simpl; now rewrite IH.
Qed.

Lemma unpermute_seq (n : nat) (l : list nat) :
  length l = n -> unpermute (seq 0 n) l = l.
Proof.
  intros <-. unfold unpermute. rewrite length_seq.
  transitivity (map (fun m => nth m l 0) (seq 0 (length l)));
    [| apply map_nth_seq_id].
  apply map_ext_in. intros m Hm. apply in_seq in Hm.
  pose proof (position_of_nth (seq 0 (length l)) m
                (seq_NoDup (length l) 0)) as P.
  rewrite length_seq, seq_nth in P by lia.
  cbn [Nat.add] in P. now rewrite P by lia.
Qed.

Lemma in_bounds_nth (sh idx : list nat) (k : nat) :
  in_bounds sh idx -> k < length sh -> nth k idx 0 < nth k sh 0.
Proof.
  unfold in_bounds. intros H. revert k.
  induction H as [| i n idx sh Hi H IH]; intros [| k] Hk; simpl in *;
    try lia.
  apply IH. lia.
Qed.

Section BooleanIndexing.
Context {M : DimModule} {T : Type}.

Variable A : hfarray T.
Variable mask : hfarray bool.
Variable k : nat.
Variable d : Dim.
Hypothesis A_rank : rank_ok A.
Hypothesis A_plain : plain_variants (dims A).
Hypothesis A_unique : no_duplicates (dims A).
Hypothesis A_objects : distinct_objects (dims A).
Hypothesis d_at_k : nth_error (dims A) k = Some d.
Hypothesis mask_dims : dims mask = [d].
Hypothesis mask_shape : shape (buf mask) = [length (data d)].
Hypothesis axis_size : nth_error (hf_shape A) k = Some (length (data d)).

Lemma tuple_index_own (j : nat) (dj : Dim) :
  nth_error (dims A) j = Some dj -> tuple_index (dims A) dj = Ok j.
Proof.
  intros Hj. unfold tuple_index.
  rewrite (find_index_first (fun x => dim_eqb x dj) (dims A) j dj Hj).
  - reflexivity.
  - apply dim_eqb_refl.
  - intros i di Hi Hdi. destruct (dim_eqb di dj) eqn:E; [| reflexivity].
    pose proof (A_objects i j di dj Hdi Hj E). lia.
Qed.

Lemma reorder_prefix_before (ds : list Dim) (j : nat) :
  nth_error ds j = Some d ->
  (forall i di, i < j -> nth_error ds i = Some di ->
                dim_matches di d = false) ->
  reorder_prefix [d] ds = firstn j ds.
Proof.
  revert j. induction ds as [| y ds IH]; intros [| j] Hj Hbefore;
    simpl in *; try discriminate.
  - injection Hj as ->. unfold dim_matches, isinstance.
    now rewrite String.eqb_refl, issubclass_refl.
  - rewrite (Hbefore 0 y); [| lia | reflexivity]. simpl.
    f_equal. apply IH; [exact Hj |].
    intros i di Hi Hdi. apply (Hbefore (S i)); [lia | exact Hdi].
Qed.

Lemma reorder_is_prefix : reorder_prefix [d] (dims A) = firstn k (dims A).
Proof.
  apply reorder_prefix_before; [exact d_at_k |].
  intros i di Hi Hdi.
  rewrite (dim_matches_same_dimension (dims A) di d A_plain).
  - destruct (same_dimension di d) eqn:E; [| reflexivity].
    pose proof (A_unique i k di d Hdi d_at_k E). lia.
  - eapply nth_error_In; eauto.
  - eapply nth_error_In; eauto.
Qed.

Lemma move_to_front_prefix (m a : nat) :
  a + m <= length (dims A) ->
  move_to_front (dims A) (firstn m (skipn a (dims A))) (skipn a (dims A))
                (seq 0 a)
  = Ok (skipn (a + m) (dims A), seq 0 (a + m)).
Proof.
  revert a. induction m as [| m IH]; intros a Hle.
  - simpl. now rewrite Nat.add_0_r.
  - destruct (nth_error (dims A) a) as [da |] eqn:Ea;
      [| apply nth_error_None in Ea; lia].
    rewrite (skipn_nth_error (dims A) a da Ea).
    cbn [firstn move_to_front].
    rewrite (tuple_index_own a da Ea). cbn [bind].
    unfold tuple_index at 1. cbn [find_index].
    rewrite dim_eqb_refl. cbn [bind remove_at].
    replace (seq 0 a ++ [a]) with (seq 0 (S a))
      by (rewrite seq_S; reflexivity).
    rewrite (IH (S a)) by lia.
    now replace (S a + m) with (a + S m) by lia.
Qed.

Lemma tuple_index_rest (m a : nat) :
  a + m = length (dims A) ->
  mapM (tuple_index (dims A)) (skipn a (dims A)) = Ok (seq a m).
Proof.
  revert a. induction m as [| m IH]; intros a Hle.
  - rewrite skipn_all2 by lia. reflexivity.
  - destruct (nth_error (dims A) a) as [da |] eqn:Ea;
      [| apply nth_error_None in Ea; lia].
    rewrite (skipn_nth_error (dims A) a da Ea). cbn [mapM].
    rewrite (tuple_index_own a da Ea). cbn [bind].
    rewrite (IH (S a)) by lia. reflexivity.
Qed.

Lemma k_in_range : k < hf_ndim A.
Proof. rewrite <- A_rank. apply nth_error_Some. congruence. Qed.

(** Moving the leading dimensions and the mask's dimension to the front
    leaves the order as it is. *)
Lemma reorder_front_identity :
  hfarray_reorder_dimensions A (firstn k (dims A) ++ [d])
  = Ok (mk_hfarray
          (mk_ndarray (hf_shape A)
                      (fun idx => item (buf A)
                                    (unpermute (seq 0 (hf_ndim A)) idx)))
          (dims A)).
Proof.
  pose proof k_in_range as Hk.
  unfold hfarray_reorder_dimensions.
  rewrite <- (firstn_nth_error (dims A) k d d_at_k).
  pose proof (move_to_front_prefix (S k) 0) as E.
  change (skipn 0 (dims A)) with (dims A) in E.
  change (seq 0 0) with (@nil nat) in E.
  change (0 + S k) with (S k) in E.
  rewrite E by (rewrite A_rank; lia).
  cbn [bind].
  rewrite (tuple_index_rest (hf_ndim A - S k) (S k))
    by (rewrite A_rank; lia).
  cbn [bind].
  replace (seq 0 (S k) ++ seq (S k) (hf_ndim A - S k))
    with (seq 0 (hf_ndim A)).
  2:{ replace (hf_ndim A) with (S k + (hf_ndim A - S k)) at 1 by lia.
      apply seq_app. }
  rewrite (hfarray_transpose_permutation A (seq 0 (hf_ndim A)) A_rank
             (axis_permutation_seq (hf_ndim A))).
  f_equal. f_equal.
  - f_equal. unfold hf_ndim, ndim, hf_shape. apply map_nth_seq_id.
  - rewrite <- A_rank. apply pick_seq_all.
Qed.

Lemma mask_selection :
  data_getmask (data d) (buf mask)
  = Ok (selected_data (buf mask) (data d)).
Proof.
  unfold data_getmask, selected_data, enumerate.
  destruct (list_eq_dec Nat.eq_dec (shape (buf mask)) [length (data d)])
    as [_ | Hne]; [| contradiction].
  f_equal. apply (select_enumerate_from (fun i => item (buf mask) [i])).
Qed.

Lemma mask_count :
  length (true_indices (buf mask))
  = length (selected_data (buf mask) (data d)).
Proof.
  unfold true_indices, selected_data, enumerate.
  rewrite mask_shape, length_map. cbn [map cartesian].
  change (flat_map (fun i => map (cons i) [[]]) (seq 0 (length (data d))))
    with (flat_map (fun i => [[i]]) (seq 0 (length (data d)))).
  rewrite filter_singletons_count.
  symmetry. apply (filter_enumerate_count (fun i => item (buf mask) [i])).
Qed.

(** The array that indexing with the mask returns. *)
Lemma getitem_mask_result :
  getitem_mask A mask
  = Ok (mk_hfarray
          (mk_ndarray
             (firstn k (hf_shape A)
              ++ length (selected_data (buf mask) (data d))
              :: skipn (S k) (hf_shape A))
             (fun idx =>
                item (buf A)
                  (unpermute (seq 0 (hf_ndim A))
                     (firstn k idx
                      ++ nth (nth k idx 0) (true_indices (buf mask)) []
                      ++ skipn (S k) idx))))
          (firstn k (dims A)
           ++ mkDim (dim_class d) (name d)
                    (selected_data (buf mask) (data d)) (dim_unit d)
           :: skipn (S k) (dims A))).
Proof.
  pose proof k_in_range as Hk.
  unfold getitem_mask. rewrite mask_dims, reorder_is_prefix.
  rewrite reorder_front_identity. cbn [bind dims buf].
  rewrite mask_selection. cbn [bind].
  assert (Hfk : length (firstn k (dims A)) = k).
  { rewrite length_firstn. rewrite A_rank. lia. }
  rewrite Hfk.
  unfold np_mask_getitem. rewrite mask_shape. cbn [length shape].
  unfold ndim at 1. cbn [shape].
  destruct (Nat.ltb_spec (length (hf_shape A)) (k + 1)) as [Hlt | _].
  { unfold hf_ndim, ndim, hf_shape in *. lia. }
  rewrite (skipn_nth_error (hf_shape A) k _ axis_size). cbn [firstn].
  destruct (list_eq_dec Nat.eq_dec [length (data d)] [length (data d)])
    as [_ | Hne]; [| now elim Hne].
  cbn [bind]. rewrite mask_count.
  replace (k + 1) with (S k) by lia.
  rewrite hfarray_new_explicit.
  - reflexivity.
  - unfold ndim. cbn [buffer_of array_finalize buf shape].
    rewrite !length_app. cbn [length].
    rewrite !length_skipn, !length_firstn.
    rewrite A_rank. reflexivity.
Qed.

Lemma selected_count :
  length (selected_data (buf mask) (data d))
  = length (selected_positions (buf mask) (length (data d))).
Proof.
  unfold selected_data, selected_positions, enumerate. rewrite length_map.
  apply (filter_enumerate_count (fun i => item (buf mask) [i])).
Qed.

(** The element that the masked array holds at an index. *)
Lemma getitem_mask_item (idx : list nat) :
  in_bounds (firstn k (hf_shape A)
             ++ length (selected_data (buf mask) (data d))
             :: skipn (S k) (hf_shape A)) idx ->
  unpermute (seq 0 (hf_ndim A))
    (firstn k idx ++ nth (nth k idx 0) (true_indices (buf mask)) []
     ++ skipn (S k) idx)
  = firstn k idx
    ++ nth (nth k idx 0)
           (selected_positions (buf mask) (length (data d))) 0
    :: skipn (S k) idx.
Proof.
  intros Hb. pose proof k_in_range as Hk.
  assert (Hfk : length (firstn k (hf_shape A)) = k).
  { rewrite length_firstn. unfold hf_ndim, ndim, hf_shape in *. lia. }
  assert (Hlen : length idx = hf_ndim A).
  { apply Forall2_length in Hb. rewrite Hb, length_app. cbn [length].
    rewrite Hfk, length_skipn. unfold hf_ndim, ndim, hf_shape in *. lia. }
  assert (Hsel : nth k idx 0
                 < length (selected_positions (buf mask) (length (data d)))).
  { pose proof (in_bounds_nth _ idx k Hb) as Hn.
    rewrite app_nth2, Hfk, Nat.sub_diag in Hn by lia. cbn [nth] in Hn.
    rewrite <- selected_count. apply Hn.
    rewrite length_app. cbn [length]. lia. }
  unfold true_indices. rewrite mask_shape. cbn [map cartesian].
  change (flat_map (fun i => map (cons i) [[]]) (seq 0 (length (data d))))
    with (flat_map (fun i => [[i]]) (seq 0 (length (data d)))).
  rewrite filter_singletons.
  fold (selected_positions (buf mask) (length (data d))).
  rewrite (nth_indep _ [] ((fun i => [i]) 0))
    by (rewrite length_map; exact Hsel).
  rewrite (map_nth (fun i => [i])). cbn [app].
  apply unpermute_seq.
  rewrite length_app. cbn [length]. rewrite length_firstn, length_skipn. lia.
Qed.
End BooleanIndexing.

Section BooleanIndexingClaim.
Context {M : DimModule} {T : Type}.

(** C7: indexing a labeled array [A] with a one-dimensional boolean
    labeled array whose dimension [d] is the dimension of axis [k] of [A]
    returns a labeled array in which that dimension is replaced by the
    descriptor of the same class, name and unit relabeled with the
    selected coordinates, the axis having as many entries as are selected,
    while every other dimension of [A] keeps its descriptor, position and
    size; the elements are those of [A] at the selected positions of that
    axis. *)
Theorem boolean_indexing_one_dimension (A : hfarray T) (mask : hfarray bool)
  (k : nat) (d : Dim) :
  rank_ok A ->
  plain_variants (dims A) ->
  no_duplicates (dims A) ->
  distinct_objects (dims A) ->
  nth_error (dims A) k = Some d ->
  dims mask = [d] ->
  shape (buf mask) = [length (data d)] ->
  nth_error (hf_shape A) k = Some (length (data d)) ->
  exists r,
    hfarray_getitem A (IxMask mask) = Ok (LabeledArray r) /\
    dims r = firstn k (dims A)
             ++ mkDim (dim_class d) (name d)
                      (selected_data (buf mask) (data d)) (dim_unit d)
             :: skipn (S k) (dims A) /\
    hf_shape r = firstn k (hf_shape A)
                 ++ length (selected_data (buf mask) (data d))
                 :: skipn (S k) (hf_shape A) /\
    (forall idx, in_bounds (hf_shape r) idx ->
       item (buf r) idx
       = item (buf A)
              (firstn k idx
               ++ nth (nth k idx 0)
                      (selected_positions (buf mask) (length (data d))) 0
               :: skipn (S k) idx)).
Proof.
  intros H1 H2 H3 H4 H5 H6 H7 H8.
  pose proof (getitem_mask_result A mask k d H1 H2 H3 H4 H5 H6 H7 H8) as E.
  eexists. split; [| split; [| split]].
  - unfold hfarray_getitem. rewrite E. reflexivity.
  - reflexivity.
  - reflexivity.
  - intros idx Hb. cbn [buf item]. f_equal.
    apply (getitem_mask_item A mask k d); assumption.
Qed.
End BooleanIndexingClaim.

Lemma boolean_indexing_one_dimension_witness :
  exists r,
    hfarray_getitem (M := spec_dim_module) ex_A (IxMask ex_mask)
    = Ok (LabeledArray r) /\
    dims r = [freq3; mkDim DimRep "rep" [1%Z] None] /\
    hf_shape r = [3; 1] /\
    (forall idx, in_bounds (hf_shape r) idx ->
       item (buf r) idx
       = item (buf ex_A)
              (firstn 1 idx
               ++ nth (nth 1 idx 0) (selected_positions (buf ex_mask) 2) 0
               :: skipn 2 idx)).
Proof.
  assert (H2 : plain_variants (M := spec_dim_module) (dims ex_A)).
  { intros d1 d2 I1 I2. simpl in I1, I2.
    destruct I1 as [<- | [<- | []]]; destruct I2 as [<- | [<- | []]];
      simpl; intros E; solve [reflexivity | discriminate E]. }
  assert (H3 : no_duplicates (dims ex_A)).
  { intros [| [| [| i]]] [| [| [| j]]] di dj Hi Hj E; simpl in Hi, Hj;
      try discriminate; try reflexivity;
      injection Hi as <-; injection Hj as <-; discriminate E. }
  assert (H4 : distinct_objects (M := spec_dim_module) (dims ex_A)).
  { intros [| [| [| i]]] [| [| [| j]]] di dj Hi Hj E; simpl in Hi, Hj;
      try discriminate; try reflexivity;
      injection Hi as <-; injection Hj as <-; discriminate E. }
  exact (boolean_indexing_one_dimension (M := spec_dim_module)
           ex_A ex_mask 1 rep2 eq_refl H2 H3 H4 eq_refl eq_refl eq_refl
           eq_refl).
Defined.

(* ================================================================== *)
(** * Reduction over a negative position *)

(** C5 at [ex_A.sum(axis=-1)], an array of shape (3, 2) over [freq] and
    [rep]: the resolver matches the one dimension [rep] at position [-1];
    with [keepdims] the sum keeps both dimensions, over position [1] it
    removes [rep] and leaves [freq], but over position [-1] without
    [keepdims] it raises [HFArrayShapeDimsMismatchError] instead of
    returning the array with [rep] removed. *)
Lemma sum_negative_axis_raises :
  multiple_axis_handler (M := spec_dim_module) ex_A (AxOne (AxInt (-1)))
  = Ok (Some [rep2], Some [(-1)%Z]) /\
  hfarray_reduce (M := spec_dim_module) zsum ex_A (AxOne (AxInt (-1)))
                 false true
  = Raise HFArrayShapeDimsMismatchError /\
  (exists r, hfarray_reduce (M := spec_dim_module) zsum ex_A
                            (AxOne (AxInt (-1))) true true = Ok r /\
             dims r = [freq3; rep2] /\ hf_shape r = [3; 1]) /\
  (exists r, hfarray_reduce (M := spec_dim_module) zsum ex_A
                            (AxOne (AxInt 1)) false true = Ok r /\
             dims r = [freq3] /\ hf_shape r = [3]).
Proof.
  split; [reflexivity |]. split; [reflexivity |].
  split; eexists; (split; [reflexivity |]); split; reflexivity.
Qed.

(* ------------------------------------------------------------------ *)
(** ** Reduction over non-negative positions *)

Lemma py_getitem_in_range {A : Type} (l : list A) (i : Z) :
  (0 <= i < Z.of_nat (length l))%Z -> exists x, py_getitem l i = Ok x.
Proof.
  intros H.
  destruct (nth_error l (Z.to_nat i)) as [x |] eqn:E.
  - exists x. rewrite <- (Z2Nat.id i) by lia. now apply py_getitem_nat.
  - apply nth_error_None in E. lia.
Qed.

Lemma nth_error_enumerate {A : Type} (l : list A) (k : nat) (x : A) :
  nth_error l k = Some x -> nth_error (enumerate l) k = Some (k, x).
Proof.
  unfold enumerate. intros H.
  assert (G : forall s, nth_error (combine (seq s (length l)) l) k
                        = Some (s + k, x)).
  { revert k H. induction l as [| a l IH]; intros [| k] H s; simpl in *;
      try discriminate.
    - injection H as ->. now rewrite Nat.add_0_r.
    - rewrite (IH k H (S s)). f_equal. f_equal. lia. }
  apply G.
Qed.

Lemma select_count {A : Type} (g : nat -> bool) (l : list A) :
  length (select (map g (seq 0 (length l))) l)
  = length (filter g (seq 0 (length l))).
Proof.
  rewrite select_enumerate_from, length_map.
  apply filter_enumerate_count.
Qed.

Lemma existsb_of_nat (k : nat) (ks : list nat) :
  existsb (Z.eqb (Z.of_nat k)) (map Z.of_nat ks) = existsb (Nat.eqb k) ks.
Proof.
  induction ks as [| j ks IH]; simpl; [reflexivity |].
  rewrite IH. f_equal.
  destruct (Nat.eqb_spec k j) as [-> | Hne]; [apply Z.eqb_refl |].
  apply Z.eqb_neq. lia.
Qed.

Lemma complement_count (n : nat) (ks : list nat) :
  NoDup ks -> (forall k, In k ks -> k < n) ->
  length (filter (fun k => negb (existsb (Nat.eqb k) ks)) (seq 0 n))
  = n - length ks.
Proof.
  intros Hnd Hlt.
  pose proof (filter_length (fun k => existsb (Nat.eqb k) ks) (seq 0 n)) as F.
  rewrite length_seq in F.
  assert (P : Permutation (filter (fun k => existsb (Nat.eqb k) ks) (seq 0 n))
                          ks).
  { apply NoDup_Permutation; [apply NoDup_filter, seq_NoDup | exact Hnd |].
    intros k. rewrite filter_In, in_seq. split.
    - intros [_ E]. apply existsb_exists in E as (j & Hj & Ej).
      apply Nat.eqb_eq in Ej. now subst j.
    - intros Hk. split; [specialize (Hlt k Hk); lia |].
      now apply existsb_eqb_true. }
  rewrite (Permutation_length P) in F. lia.
Qed.

Section Reduction.
Context {M : DimModule} {T : Type}.

Lemma resolve_axis_range (a : hfarray T) (ax : AxisSpec)
  (r : list (Dim * Z)) :
  resolve_axis a ax = Ok r ->
  forall di, In di r ->
    (- Z.of_nat (length (dims a)) <= snd di < Z.of_nat (length (dims a)))%Z.
Proof.
  assert (Hinst : forall d r',
             (if Dims_contains (dims a) d
              then i <- tuple_index (dims a) d ;; Ok [(d, Z.of_nat i)]
              else Raise IndexError) = Ok r' ->
             forall di, In di r' ->
               (- Z.of_nat (length (dims a)) <= snd di
                < Z.of_nat (length (dims a)))%Z).
  { intros d r' H di Hdi.
    destruct (Dims_contains (dims a) d); [| discriminate].
    inv_bind H as i Hi. injection H as <-. destruct Hdi as [<- | []].
    unfold tuple_index in Hi.
    destruct (find_index (fun x => dim_eqb x d) (dims a)) as [j |] eqn:E;
      [| discriminate].
    injection Hi as <-. apply find_index_Some in E as (x & Hx & _).
    assert (j < length (dims a)) by (apply nth_error_Some; congruence).
    simpl. lia. }
  unfold resolve_axis. destruct ax as [i | s | c | d]; intros H di Hdi.
  - inv_bind H as d Hd. injection H as <-. destruct Hdi as [<- | []].
    simpl. now apply (py_getitem_Ok_length (dims a) i d).
  - inv_bind H as i Hi. inv_bind H as d Hd. eapply Hinst; eauto.
  - destruct (issubclass c DimBase); [| discriminate].
    injection H as <-. apply in_map_iff in Hdi as ([k d] & <- & Hk).
    apply filter_In in Hk as [Hk _]. apply enumerate_In in Hk.
    assert (k < length (dims a)) by (apply nth_error_Some; congruence).
    simpl. lia.
  - eapply Hinst; eauto.
Qed.

Lemma resolve_axes_range (a : hfarray T) (l : list AxisSpec)
  (r : list (Dim * Z)) :
  resolve_axes a l = Ok r ->
  forall di, In di r ->
    (- Z.of_nat (length (dims a)) <= snd di < Z.of_nat (length (dims a)))%Z.
Proof.
  revert r. induction l as [| ax l IH]; intros r H di Hdi;
    cbn [resolve_axes] in H.
  - injection H as <-. contradiction.
  - inv_bind H as r1 H1. inv_bind H as r2 H2. injection H as <-.
    apply in_app_or in Hdi as [Hdi | Hdi].
    + eapply resolve_axis_range; eauto.
    + eapply IH; eauto.
Qed.

Lemma multiple_axis_handler_range (a : hfarray T) (axis : AxisArg)
  (ds : option (list Dim)) (idxs : list Z) :
  multiple_axis_handler a axis = Ok (ds, Some idxs) ->
  forall i, In i idxs ->
    (- Z.of_nat (length (dims a)) <= i < Z.of_nat (length (dims a)))%Z.
Proof.
  unfold multiple_axis_handler. intros H i Hi.
  destruct axis as [| s | l]; [discriminate | |];
    inv_bind H as r Hr; injection H as _ <-;
    apply in_map_iff in Hi as (di & <- & Hdi);
    eapply resolve_axes_range; eauto.
Qed.

Lemma resolve_positions (a : hfarray T) (idxs : list Z) :
  (forall i, In i idxs -> (0 <= i < Z.of_nat (length (dims a)))%Z) ->
  exists r, resolve_axes a (map AxInt idxs) = Ok r /\ map snd r = idxs.
Proof.
  induction idxs as [| i idxs IH]; intros H.
  - exists []. split; reflexivity.
  - destruct IH as (r & Er & Es); [intros; apply H; now right |].
    destruct (py_getitem_in_range (dims a) i (H i (or_introl eq_refl)))
      as (d & Ed).
    exists ((d, i) :: r). cbn [map resolve_axes resolve_axis].
    rewrite Ed. cbn [bind]. rewrite Er. cbn [bind app map snd].
    now rewrite Es.
Qed.

(** Where [sum] (every reduction) does what C5 says: over resolved
    positions that are non-negative and pairwise different, the reduction
    without [keepdims] returns an array whose dimension collection is that
    of [A] without the dimensions at the resolved positions, and has their
    number fewer entries; with [keepdims] the collection is that of [A]. *)
Lemma reduce_removes_resolved_axes (f : list T -> T) (A : hfarray T)
  (axis : AxisArg) (ds : option (list Dim)) (idxs : list Z)
  (dimerror : bool) :
  rank_ok A ->
  multiple_axis_handler A axis = Ok (ds, Some idxs) ->
  (forall i, In i idxs -> (0 <= i)%Z) ->
  NoDup idxs ->
  (exists r,
      hfarray_reduce f A axis false dimerror = Ok r /\
      dims r = map snd
                 (filter (fun kd => negb (existsb (Z.eqb (Z.of_nat (fst kd)))
                                                  idxs))
                         (enumerate (dims A))) /\
      length (dims r) = length (dims A) - length idxs) /\
  (exists r,
      hfarray_reduce f A axis true dimerror = Ok r /\ dims r = dims A).
Proof.
  intros Hr Hm Hpos Hnd.
  pose proof (multiple_axis_handler_range A axis ds idxs Hm) as Hrange.
  set (n := hf_ndim A) in *.
  set (ks := map Z.to_nat idxs).
  assert (Eks : idxs = map Z.of_nat ks).
  { unfold ks. rewrite map_map. rewrite <- (map_id idxs) at 1.
    apply map_ext_in. intros i Hi. rewrite Z2Nat.id; auto. }
  assert (Hlt : forall k, In k ks -> k < n).
  { intros k Hk. apply in_map_iff in Hk as (i & <- & Hi).
    specialize (Hrange i Hi). specialize (Hpos i Hi).
    rewrite Hr in Hrange. fold n in Hrange. lia. }
  assert (Hndk : NoDup ks).
  { unfold ks. apply Injective_map_NoDup_in; [| exact Hnd].
    intros i j Hi Hj E. apply Hpos in Hi, Hj. lia. }
  assert (Enorm : normalize_axes n [] idxs = Ok ks).
  { rewrite Eks. apply normalize_axes_nat; auto. }
  set (reduced := fun k => existsb (Nat.eqb k) ks).
  set (shape' := map (fun kn : nat * nat =>
                        if reduced (fst kn) then 1 else snd kn)
                     (enumerate (hf_shape A))).
  assert (Hlen' : length shape' = n).
  { unfold shape'. now rewrite length_map, enumerate_length. }
  assert (Ered : exists it,
             np_reduce_keepdims f (buf A) (Some idxs)
             = Ok (mk_ndarray shape' it)).
  { unfold np_reduce_keepdims. change (ndim (buf A)) with n.
    rewrite Enorm. cbn [bind]. eexists. reflexivity. }
  destruct Ered as (it & Ered).
  set (res := mk_hfarray (mk_ndarray shape' it) (dims A)).
  assert (Enew : hfarray_new (Plain (mk_ndarray shape' it)) (Some (dims A))
                 = Ok res).
  { apply hfarray_new_explicit. unfold ndim. cbn [buffer_of shape].
    rewrite Hlen'. exact Hr. }
  split.
  2:{ exists res. split; [| reflexivity].
      unfold hfarray_reduce. rewrite Hm, Ered. cbn [bind].
      now rewrite Enew. }
  (* the squeeze *)
  destruct (resolve_positions res idxs) as (rp & Erp & Esnd).
  { intros i Hi. specialize (Hrange i Hi). specialize (Hpos i Hi).
    cbn [res dims]. lia. }
  assert (Eones : forallb (fun k => nth k shape' 0 =? 1) ks = true).
  { apply forallb_forall. intros k Hk. apply Nat.eqb_eq.
    specialize (Hlt k Hk).
    assert (Hks : k < length (hf_shape A)) by exact Hlt.
    pose proof (nth_error_enumerate _ k _
                  (nth_error_nth' (hf_shape A) 0 Hks)) as En.
    apply (nth_error_nth _ _ 0). unfold shape'.
    rewrite nth_error_map, En. cbn [option_map fst snd]. unfold reduced.
    now rewrite (existsb_eqb_true k ks Hk). }
  set (keep := map (fun k => negb (existsb (Nat.eqb k) ks)) (seq 0 n)).
  assert (Esq : np_squeeze (mk_ndarray shape' it) (Some idxs)
                = Ok (squeeze_with keep (mk_ndarray shape' it))).
  { unfold np_squeeze, ndim. cbn [shape]. rewrite Hlen', Enorm. cbn [bind].
    now rewrite Eones. }
  set (newinfo := map snd
                    (filter (fun kd => negb (existsb (Z.eqb (Z.of_nat (fst kd)))
                                                     idxs))
                            (enumerate (dims A)))).
  assert (Ecount : length newinfo = n - length ks).
  { unfold newinfo. rewrite length_map. unfold enumerate.
    rewrite (filter_enumerate_count
               (fun k => negb (existsb (Z.eqb (Z.of_nat k)) idxs))).
    rewrite Hr. fold n. rewrite <- (complement_count n ks Hndk Hlt).
    f_equal. apply filter_ext. intros k. now rewrite Eks, existsb_of_nat. }
  exists (mk_hfarray (squeeze_with keep (mk_ndarray shape' it)) newinfo).
  split; [| split; [reflexivity |]].
  - unfold hfarray_reduce. rewrite Hm, Ered. cbn [bind]. rewrite Enew.
    cbn [bind axis_of_positions].
    unfold hfarray_squeeze, multiple_axis_handler. rewrite Erp.
    cbn [bind]. rewrite Esnd. cbn [res buf dims]. rewrite Esq. cbn [bind].
    fold newinfo.
    rewrite hfarray_new_explicit; [reflexivity |].
    unfold ndim. cbn [buffer_of array_finalize buf squeeze_with shape].
    rewrite Ecount. unfold keep. rewrite <- Hlen'.
    rewrite select_count, Hlen'.
    now rewrite (complement_count n ks Hndk Hlt).
  - cbn [dims]. rewrite Ecount. unfold ks. rewrite length_map.
    now rewrite Hr.
Qed.
End Reduction.

(** [ex_A.sum(axis="rep")]: shape (3,), the one dimension [freq]. *)
Example sum_over_rep :
  exists r,
    hfarray_reduce (M := spec_dim_module) zsum ex_A (AxOne (AxName "rep"))
                   false true = Ok r /\
    hf_shape r = [3] /\ dims r = [freq3] /\ elements r = [21; 41; 61]%Z.
Proof. eexists. split; [reflexivity |]. repeat split. Qed.

(** [ex_S[1:]]: the dimension [freq] with coordinates [2, 3], the elements
    at positions 1 and 2. *)
Example slice_from_one :
  exists r,
    hfarray_getitem (M := spec_dim_module) ex_S
                    (IxOne (IxSlice (mkSlice (Some 1%Z) None None)))
    = Ok (LabeledArray r) /\
    hf_shape r = [2] /\
    dims r = [mkDim DimSweep "freq" [2; 3]%Z None] /\
    elements r = [6; 7]%Z.
Proof. eexists. split; [reflexivity |]. repeat split. Qed.


(* ================================================================== *)
(** * Further properties of the dimension collections *)


Section CollectionLookups.
Context {M : DimModule} {T : Type}.


(** X2: A name is in the collection of an array exactly when [dims_index]
    finds it: [name in a.dims] is true iff [a.dims_index(name)] returns,
    and then it returns the first position whose dimension has that name;
    otherwise [dims_index] raises [IndexError]. *)
Theorem contains_name_iff_dims_index (a : hfarray T) (nm : string) :
  (Dims_contains_name (dims a) nm = true ->
   exists i d,
     dims_index a nm None = Ok i /\
     nth_error (dims a) i = Some d /\ name d = nm /\
     forall j y, j < i -> nth_error (dims a) j = Some y -> name y <> nm) /\
  (Dims_contains_name (dims a) nm = false ->
   dims_index a nm None = Raise IndexError).
Proof.
  assert (E : forall x, dim_matches (mkDim DimBase nm [0%Z] None) x
                        = (String.eqb (name x) nm && true)).
  { intros x. unfold dim_matches, isinstance. cbn [name dim_class].
    now rewrite issubclass_DimBase. }
  unfold Dims_contains_name, Dims_contains, dims_index.
  rewrite (existsb_ext_In _ _ (dims a) (fun x _ => E x)).
  rewrite find_index_existsb.
  destruct (find_index (fun ax => String.eqb (name ax) nm && true) (dims a))
    as [i |] eqn:F.
  - split; [intros _ | discriminate].
    destruct (find_index_Some _ _ _ F) as (d & Hd & Hm & Hmin).
    exists i, d. rewrite andb_true_r in Hm. apply String.eqb_eq in Hm.
    repeat split; auto.
    intros j y Hj Hy Hn. specialize (Hmin j y Hj Hy).
    rewrite andb_true_r in Hmin. apply String.eqb_neq in Hmin. contradiction.
  - split; [discriminate | reflexivity].
Qed.
End CollectionLookups.


Lemma contains_name_iff_dims_index_witness :
  (exists i d, dims_index (M := spec_dim_module) ex_A "rep" None = Ok i /\
               nth_error (dims ex_A) i = Some d /\ name d = "rep"%string) /\
  dims_index (M := spec_dim_module) ex_A "time" None = Raise IndexError.
Proof.
  destruct (contains_name_iff_dims_index (M := spec_dim_module) ex_A "rep")
    as [H1 _].
  destruct (contains_name_iff_dims_index (M := spec_dim_module) ex_A "time")
    as [_ H2].
  destruct (H1 eq_refl) as (i & d & Ei & Ed & En & _).
  split; [exists i, d; auto | exact (H2 eq_refl)].
Defined.

(* ================================================================== *)
(** * Further properties: matrix predicate, construction, indexing errors *)

Section MatrixPredicate.
Context {M : DimModule} {T : Type}.

Let step (acc : option Dim * option Dim) (dim : Dim) :=
  if isinstance dim DimMatrix_i then (Some dim, snd acc)
  else if isinstance dim DimMatrix_j then (fst acc, Some dim)
  else acc.

Lemma matrix_dims_keeps_some (ds : list Dim) (acc : option Dim * option Dim) :
  (is_some (fst acc) = true ->
   is_some (fst (fold_left step ds acc)) = true) /\
  (is_some (snd acc) = true ->
   is_some (snd (fold_left step ds acc)) = true).
Proof.
  revert acc. induction ds as [| d ds IH]; intros acc; simpl; [auto |].
  destruct (IH (step acc d)) as [I1 I2].
  split; intros H; [apply I1 | apply I2]; unfold step;
    destruct (isinstance d DimMatrix_i); simpl; auto;
    destruct (isinstance d DimMatrix_j); simpl; auto.
Qed.

Lemma ismatrix_loop_matrix_dims (ds : list Dim)
  (acc : option Dim * option Dim) :
  is_some (fst acc) && is_some (snd acc) = false ->
  ismatrix_loop ds (is_some (fst acc)) (is_some (snd acc))
  = is_some (fst (fold_left step ds acc))
    && is_some (snd (fold_left step ds acc)).
Proof.
  revert acc. induction ds as [| d ds IH]; intros acc H; simpl;
    [now rewrite H |].
  destruct (matrix_dims_keeps_some ds (step acc d)) as [K1 K2].
  unfold step in *.
  destruct (isinstance d DimMatrix_i) eqn:Ei.
  - cbn [fst snd is_some] in *.
    destruct (is_some (snd acc)) eqn:Es; cbn [andb].
    + now rewrite K1, K2.
    + rewrite <- Es. apply (IH (Some d, snd acc)). cbn. now rewrite Es.
  - destruct (isinstance d DimMatrix_j) eqn:Ej.
    + cbn [fst snd is_some] in *.
      destruct (is_some (fst acc)) eqn:Ef; cbn [andb].
      * now rewrite K1, K2.
      * rewrite <- Ef. apply (IH (fst acc, Some d)). cbn. now rewrite Ef.
    + rewrite H. apply IH. exact H.
Qed.

Lemma matrix_dims_origin (ds : list Dim) (acc : option Dim * option Dim) :
  (forall d, fst (fold_left step ds acc) = Some d ->
             fst acc = Some d \/
             (In d ds /\ isinstance d DimMatrix_i = true)) /\
  (forall d, snd (fold_left step ds acc) = Some d ->
             snd acc = Some d \/
             (In d ds /\ isinstance d DimMatrix_j = true
              /\ isinstance d DimMatrix_i = false)).
Proof.
  revert acc. induction ds as [| x ds IH]; intros acc; simpl; [auto |].
  destruct (IH (step acc x)) as [I1 I2].
  split; intros d H; [apply I1 in H | apply I2 in H];
    (destruct H as [H | (Hin & Hp)]; [| right; split; auto]);
    unfold step in H;
    destruct (isinstance x DimMatrix_i) eqn:Ei; cbn [fst snd] in H; auto;
    try (injection H as <-; right; split; auto; fail);
    destruct (isinstance x DimMatrix_j) eqn:Ej; cbn [fst snd] in H; auto;
    injection H as <-; right; split; auto.
Qed.

(** X3: [ismatrix] decides what [.t] does: when [ismatrix(a)] is false, [a.t]
    is [a] itself; when it is true, the collection of [a] holds an
    instance of [DimMatrix_i] and an instance of [DimMatrix_j] that is not
    an instance of [DimMatrix_i]. *)
Theorem ismatrix_decides_t (a : hfarray T) :
  (ismatrix a = false -> hfarray_t a = Ok a) /\
  (ismatrix a = true ->
   exists di dj,
     In di (dims a) /\ In dj (dims a) /\
     isinstance di DimMatrix_i = true /\
     isinstance dj DimMatrix_j = true /\
     isinstance dj DimMatrix_i = false).
Proof.
  pose proof (ismatrix_loop_matrix_dims (dims a) (None, None) eq_refl) as E.
  cbn [fst snd is_some] in E. fold (ismatrix a) in E.
  destruct (matrix_dims_origin (dims a) (None, None)) as [O1 O2].
  unfold hfarray_t, matrix_dims. fold step.
  destruct (fold_left step (dims a) (None, None)) as [[di |] [dj |]];
    cbn [fst snd is_some andb] in E; rewrite E;
    (split; [try discriminate; reflexivity | try discriminate]).
  intros _. exists di, dj.
  destruct (O1 di eq_refl) as [F | [H1 H2]]; [discriminate |].
  destruct (O2 dj eq_refl) as [F | (H3 & H4 & H5)]; [discriminate |].
  repeat split; assumption.
Qed.
End MatrixPredicate.

Lemma ismatrix_decides_t_witness :
  ismatrix (M := spec_dim_module) ex_A = false /\
  hfarray_t (M := spec_dim_module) ex_A = Ok ex_A.
Proof.
  split; [reflexivity |].
  apply (proj1 (ismatrix_decides_t (M := spec_dim_module) ex_A)).
  reflexivity.
Defined.

Section ConstructionDefaults.
Context {T : Type}.

Lemma range_length (n : nat) : length (range n) = n.
Proof. unfold range. now rewrite length_map, length_seq. Qed.

(** X4: Construction from a plain buffer without [dims]: for rank 0, 1 and 2
    the array gets no dimension, the sweep [freq], or [freq] and the
    repetition [rep], each with as many coordinates as its axis has
    entries; for a higher rank construction raises
    [DimensionMismatchError]. *)
Theorem construction_default_dims (b : ndarray T) :
  (ndim b <= 2 ->
   exists r,
     hfarray_new (Plain b) None = Ok r /\
     buf r = b /\ rank_ok r /\
     map name (dims r) = firstn (ndim b) ["freq"; "rep"]%string /\
     map dim_class (dims r) = firstn (ndim b) [DimSweep; DimRep] /\
     Forall2 (fun d n => length (data d) = n) (dims r) (shape b)) /\
  (2 < ndim b ->
   hfarray_new (Plain b) None = Raise DimensionMismatchError).
Proof.
  destruct b as [sh it]. unfold ndim. cbn [shape].
  destruct sh as [| n [| m [| k sh]]]; cbn [length].
  - split; [intros _ | lia]. eexists. split; [reflexivity |].
    repeat split. constructor.
  - split; [intros _ | lia]. eexists. split; [reflexivity |].
    repeat split. repeat constructor. apply range_length.
  - split; [intros _ | lia]. eexists. split; [reflexivity |].
    repeat split. repeat constructor; apply range_length.
  - split; [lia | intros _; reflexivity].
Qed.
End ConstructionDefaults.

Lemma construction_default_dims_witness :
  hfarray_new (Plain (np_array [2; 2; 2] [1; 2; 3; 4; 5; 6; 7; 8]%Z 0%Z)) None
  = Raise DimensionMismatchError /\
  exists r, hfarray_new (Plain (buf ex_A)) None = Ok r /\ rank_ok r.
Proof.
  split.
  - apply (proj2 (construction_default_dims
                    (np_array [2; 2; 2] [1; 2; 3; 4; 5; 6; 7; 8]%Z 0%Z))).
    unfold ndim. simpl. lia.
  - destruct (proj1 (construction_default_dims (buf ex_A)))
      as (r & E & _ & Hr & _); [unfold ndim; simpl; lia |].
    exists r. split; assumption.
Defined.

Section IndexingErrors.
Context {M : DimModule} {T : Type}.

(** X5: An index tuple with more than one [Ellipsis] is refused with
    [IndexError], whatever else it holds. *)
Theorem getitem_two_ellipsis (self : hfarray T) (l : list BasicIndex) :
  1 < length (filter is_ellipsis l) ->
  hfarray_getitem self (IxTuple l) = Raise IndexError.
Proof.
  intros H. unfold hfarray_getitem.
  assert (E1 : (1 <? length (filter is_ellipsis l)) = true)
    by (apply Nat.ltb_lt; exact H).
  assert (E2 : (length (filter is_ellipsis l) =? 1) = false)
    by (apply Nat.eqb_neq; lia).
  destruct (existsb is_newaxis l).
  - unfold np_getitem. now rewrite E1.
  - cbv zeta. now rewrite E2, E1.
Qed.
End IndexingErrors.

Lemma getitem_two_ellipsis_witness :
  hfarray_getitem (M := spec_dim_module) ex_A
                  (IxTuple [IxEllipsis; IxInt 0; IxEllipsis])
  = Raise IndexError.
Proof.
  apply (getitem_two_ellipsis (M := spec_dim_module)). simpl. lia.
Defined.

(* ================================================================== *)
(** * Further properties of the reductions *)

Lemma find_index_None_intro {A : Type} (p : A -> bool) (l : list A) :
  (forall x, In x l -> p x = false) -> find_index p l = None.
Proof.
  induction l as [| a l IH]; intros H; simpl; [reflexivity |].
  rewrite (H a (or_introl eq_refl)), IH; [reflexivity |].
  intros x Hx. apply H. now right.
Qed.

Lemma py_getitem_normalized {A : Type} (l : list A) (i : Z) (k : nat) :
  normalize_axis (length l) i = Ok k ->
  k < length l /\ exists x, nth_error l k = Some x /\ py_getitem l i = Ok x.
Proof.
  unfold normalize_axis, py_getitem. intros H.
  destruct ((i <? - Z.of_nat (length l))%Z || (Z.of_nat (length l) <=? i)%Z)
    eqn:E; [discriminate |].
  apply orb_false_iff in E as [E1 E2].
  apply Z.ltb_ge in E1. apply Z.leb_gt in E2.
  injection H as <-.
  set (j := (if (i <? 0)%Z then (i + Z.of_nat (length l))%Z else i)).
  assert (Hj : (0 <= j < Z.of_nat (length l))%Z).
  { unfold j. destruct (Z.ltb_spec i 0); lia. }
  destruct (Z.ltb_spec j 0); [lia |].
  destruct (Z.leb_spec (Z.of_nat (length l)) j); [lia |]. cbn [orb].
  assert (Hk : Z.to_nat j < length l) by lia.
  split; [exact Hk |].
  destruct (nth_error l (Z.to_nat j)) as [x |] eqn:F;
    [exists x; auto | apply nth_error_None in F; lia].
Qed.

Lemma select_kept_entries (g : nat -> bool) (h : nat * nat -> nat)
  (s : nat) (sh : list nat) :
  (forall k x, g k = true -> h (k, x) = x) ->
  select (map g (seq s (length sh)))
         (map h (combine (seq s (length sh)) sh))
  = map snd (filter (fun kn => g (fst kn)) (combine (seq s (length sh)) sh)).
Proof.
  intros H. revert s. induction sh as [| x sh IH]; intros s; simpl;
    [reflexivity |].
  destruct (g s) eqn:E; simpl; rewrite IH; [| reflexivity].
  now rewrite (H s x E).
Qed.

Section ReductionResults.
Context {M : DimModule} {T : Type}.

(** The array a reduction without [keepdims] returns over resolved
    positions that are non-negative and pairwise different. *)
Lemma reduce_positions_result (f : list T -> T) (A : hfarray T)
  (axis : AxisArg) (ds : option (list Dim)) (idxs : list Z)
  (dimerror : bool) :
  rank_ok A ->
  multiple_axis_handler A axis = Ok (ds, Some idxs) ->
  (forall i, In i idxs -> (0 <= i)%Z) ->
  NoDup idxs ->
  exists r,
    hfarray_reduce f A axis false dimerror = Ok r /\
    dims r = map snd
               (filter (fun kd => negb (existsb (Z.eqb (Z.of_nat (fst kd)))
                                                idxs))
                       (enumerate (dims A))) /\
    hf_shape r = map snd
                   (filter (fun kn => negb (existsb (Z.eqb (Z.of_nat (fst kn)))
                                                    idxs))
                           (enumerate (hf_shape A))) /\
    length (dims r) = length (dims A) - length idxs.
Proof.
  intros Hr Hm Hpos Hnd.
  pose proof (multiple_axis_handler_range A axis ds idxs Hm) as Hrange.
  set (n := hf_ndim A) in *.
  set (ks := map Z.to_nat idxs).
  assert (Eks : idxs = map Z.of_nat ks).
  { unfold ks. rewrite map_map. rewrite <- (map_id idxs) at 1.
    apply map_ext_in. intros i Hi. rewrite Z2Nat.id; auto. }
  assert (Hlt : forall k, In k ks -> k < n).
  { intros k Hk. apply in_map_iff in Hk as (i & <- & Hi).
    specialize (Hrange i Hi). specialize (Hpos i Hi).
    rewrite Hr in Hrange. fold n in Hrange. lia. }
  assert (Hndk : NoDup ks).
  { unfold ks. apply Injective_map_NoDup_in; [| exact Hnd].
    intros i j Hi Hj E. apply Hpos in Hi, Hj. lia. }
  assert (Enorm : normalize_axes n [] idxs = Ok ks).
  { rewrite Eks. apply normalize_axes_nat; auto. }
  assert (Ein : forall k, existsb (Z.eqb (Z.of_nat k)) idxs
                          = existsb (Nat.eqb k) ks).
  { intros k. rewrite Eks. apply existsb_of_nat. }
  set (h := fun kn : nat * nat =>
              if existsb (Nat.eqb (fst kn)) ks then 1 else snd kn).
  set (shape' := map h (enumerate (hf_shape A))).
  assert (Hlen' : length shape' = n).
  { unfold shape'. now rewrite length_map, enumerate_length. }
  assert (Ered : exists it,
             np_reduce_keepdims f (buf A) (Some idxs)
             = Ok (mk_ndarray shape' it)).
  { unfold np_reduce_keepdims. change (ndim (buf A)) with n.
    rewrite Enorm. cbn [bind]. eexists. reflexivity. }
  destruct Ered as (it & Ered).
  set (res := mk_hfarray (mk_ndarray shape' it) (dims A)).
  assert (Enew : hfarray_new (Plain (mk_ndarray shape' it)) (Some (dims A))
                 = Ok res).
  { apply hfarray_new_explicit. unfold ndim. cbn [buffer_of shape].
    rewrite Hlen'. exact Hr. }
  destruct (resolve_positions res idxs) as (rp & Erp & Esnd).
  { intros i Hi. specialize (Hrange i Hi). specialize (Hpos i Hi).
    cbn [res dims]. lia. }
  assert (Eones : forallb (fun k => nth k shape' 0 =? 1) ks = true).
  { apply forallb_forall. intros k Hk. apply Nat.eqb_eq.
    specialize (Hlt k Hk).
    assert (Hks : k < length (hf_shape A)) by exact Hlt.
    pose proof (nth_error_enumerate _ k _
                  (nth_error_nth' (hf_shape A) 0 Hks)) as En.
    apply (nth_error_nth _ _ 0). unfold shape'.
    rewrite nth_error_map, En. cbn [option_map]. unfold h. cbn [fst].
    now rewrite (existsb_eqb_true k ks Hk). }
  set (g := fun k => negb (existsb (Nat.eqb k) ks)).
  set (keep := map g (seq 0 n)).
  assert (Esq : np_squeeze (mk_ndarray shape' it) (Some idxs)
                = Ok (squeeze_with keep (mk_ndarray shape' it))).
  { unfold np_squeeze, ndim. cbn [shape]. rewrite Hlen', Enorm. cbn [bind].
    now rewrite Eones. }
  set (newinfo := map snd
                    (filter (fun kd => negb (existsb (Z.eqb (Z.of_nat (fst kd)))
                                                     idxs))
                            (enumerate (dims A)))).
  assert (Ecount : length newinfo = n - length ks).
  { unfold newinfo. rewrite length_map. unfold enumerate.
    rewrite (filter_enumerate_count
               (fun k => negb (existsb (Z.eqb (Z.of_nat k)) idxs))).
    rewrite Hr. fold n. rewrite <- (complement_count n ks Hndk Hlt).
    f_equal. apply filter_ext. intros k. now rewrite Ein. }
  assert (Eshape : select keep shape'
                   = map snd
                       (filter (fun kn =>
                                  negb (existsb (Z.eqb (Z.of_nat (fst kn)))
                                                idxs))
                               (enumerate (hf_shape A)))).
  { unfold keep, shape', enumerate.
    change n with (length (hf_shape A)).
    rewrite (select_kept_entries g h).
    - f_equal. apply filter_ext. intros kn. unfold g. now rewrite Ein.
    - intros k x Hg. unfold g in Hg. unfold h. cbn [fst snd].
      now destruct (existsb (Nat.eqb k) ks). }
  exists (mk_hfarray (squeeze_with keep (mk_ndarray shape' it)) newinfo).
  split; [| split; [reflexivity | split; [exact Eshape |]]].
  - unfold hfarray_reduce. rewrite Hm, Ered. cbn [bind]. rewrite Enew.
    cbn [bind axis_of_positions].
    unfold hfarray_squeeze, multiple_axis_handler. rewrite Erp.
    cbn [bind]. rewrite Esnd. cbn [res buf dims]. rewrite Esq. cbn [bind].
    fold newinfo.
    rewrite hfarray_new_explicit; [reflexivity |].
    unfold ndim. cbn [buffer_of array_finalize buf squeeze_with shape].
    rewrite Ecount. unfold keep. rewrite <- Hlen'.
    rewrite select_count, Hlen'. unfold g.
    now rewrite (complement_count n ks Hndk Hlt).
  - cbn [dims]. rewrite Ecount. unfold ks. rewrite length_map.
    now rewrite Hr.
Qed.

(** X6: A reduction ([sum], [mean], ...) without [keepdims] over resolved
    positions that are non-negative and pairwise different returns the
    array whose dimensions and axis sizes are those of [A] at the other
    positions, in their order; it has as many dimensions fewer as
    positions were resolved. *)
Theorem reduction_over_positions (f : list T -> T) (A : hfarray T)
  (axis : AxisArg) (ds : option (list Dim)) (idxs : list Z)
  (dimerror : bool) :
  rank_ok A ->
  multiple_axis_handler A axis = Ok (ds, Some idxs) ->
  (forall i, In i idxs -> (0 <= i)%Z) ->
  NoDup idxs ->
  exists r,
    hfarray_reduce f A axis false dimerror = Ok r /\
    dims r = map snd
               (filter (fun kd => negb (existsb (Z.eqb (Z.of_nat (fst kd)))
                                                idxs))
                       (enumerate (dims A))) /\
    hf_shape r = map snd
                   (filter (fun kn => negb (existsb (Z.eqb (Z.of_nat (fst kn)))
                                                    idxs))
                           (enumerate (hf_shape A))) /\
    length (dims r) = length (dims A) - length idxs.
Proof. apply reduce_positions_result. Qed.

(** X7: A reduction over a name that no dimension of the array carries raises
    [IndexError], unless the caller passes [dimerror=False]: then the array
    itself is returned. *)
Theorem reduction_missing_name (f : list T -> T) (a : hfarray T)
  (nm : string) (keepdims : bool) :
  (forall d, In d (dims a) -> name d <> nm) ->
  hfarray_reduce f a (AxOne (AxName nm)) keepdims true = Raise IndexError /\
  hfarray_reduce f a (AxOne (AxName nm)) keepdims false = Ok a.
Proof.
  intros H.
  assert (E : multiple_axis_handler a (AxOne (AxName nm)) = Raise IndexError).
  { unfold multiple_axis_handler. cbn [resolve_axes resolve_axis].
    unfold dims_index. rewrite find_index_None_intro; [reflexivity |].
    intros x Hx. rewrite andb_true_r. apply String.eqb_neq. now apply H. }
  unfold hfarray_reduce. rewrite E. split; reflexivity.
Qed.

(** X8: A reduction over a dimension class that has no member in the array
    raises nothing, whatever [dimerror] is: it returns an array with the
    dimensions and the shape of [a]. *)
Theorem reduction_over_absent_class (f : list T -> T) (a : hfarray T)
  (c : DimClass) (dimerror : bool) :
  rank_ok a ->
  members c (dims a) = [] ->
  exists r,
    hfarray_reduce f a (AxOne (AxClass c)) false dimerror = Ok r /\
    dims r = dims a /\ hf_shape r = hf_shape a.
Proof.
  intros Hr Hm.
  assert (E : multiple_axis_handler a (AxOne (AxClass c))
              = Ok (Some [], Some [])).
  { unfold multiple_axis_handler. cbn [resolve_axes].
    rewrite resolve_axis_class, Hm. reflexivity. }
  destruct (reduce_positions_result f a _ _ _ dimerror Hr E)
    as (r & Er & Ed & Es & _); [intros i [] | constructor |].
  exists r. split; [exact Er |]. rewrite Ed, Es. cbn [existsb negb].
  split.
  - rewrite (filter_enumerate (fun _ => true)).
    clear. induction (dims a) as [| d l IH]; simpl; congruence.
  - rewrite (filter_enumerate (fun _ => true)).
    clear. induction (hf_shape a) as [| d l IH]; simpl; congruence.
Qed.
End ReductionResults.

Lemma reduction_over_positions_witness :
  exists r,
    hfarray_reduce (M := spec_dim_module) zsum ex_A (AxSeq [AxInt 1; AxInt 0])
                   false true = Ok r /\
    length (dims r) = 0.
Proof.
  destruct (reduction_over_positions (M := spec_dim_module) zsum ex_A
              (AxSeq [AxInt 1; AxInt 0]) (Some [rep2; freq3]) [1; 0]%Z true)
    as (r & E & _ & _ & L).
  - reflexivity.
  - reflexivity.
  - intros i [<- | [<- | []]]; lia.
  - repeat constructor; simpl; intuition discriminate.
  - exists r. split; [exact E | exact L].
Defined.

Lemma reduction_missing_name_witness :
  hfarray_reduce (M := spec_dim_module) zsum ex_A (AxOne (AxName "time"))
                 false true = Raise IndexError /\
  hfarray_reduce (M := spec_dim_module) zsum ex_A (AxOne (AxName "time"))
                 false false = Ok ex_A.
Proof.
  apply (reduction_missing_name (M := spec_dim_module)).
  intros d [<- | [<- | []]]; discriminate.
Defined.

Lemma reduction_over_absent_class_witness :
  exists r,
    hfarray_reduce (M := spec_dim_module) zsum ex_A
                   (AxOne (AxClass DimMatrix_i)) false true = Ok r /\
    dims r = dims ex_A /\ hf_shape r = hf_shape ex_A.
Proof.
  apply (reduction_over_absent_class (M := spec_dim_module));
    reflexivity.
Defined.

(* ================================================================== *)
(** * Squeezing *)

Lemma filter_all_true {A : Type} (p : A -> bool) (l : list A) :
  (forall x, In x l -> p x = true) -> filter p l = l.
Proof.
  induction l as [| a l IH]; intros H; simpl; [reflexivity |].
  rewrite (H a (or_introl eq_refl)), IH; [reflexivity |].
  intros x Hx. apply H. now right.
Qed.

Lemma filter_fst_tagged {A : Type} (g : nat -> bool) (l : list (nat * A)) :
  map snd (filter fst (map (fun kd => (g (fst kd), snd kd)) l))
  = map snd (filter (fun kd => g (fst kd)) l).
Proof.
  induction l as [| [k d] l IH]; simpl; [reflexivity |].
  destruct (g k); simpl; now rewrite IH.
Qed.

Lemma normalize_axes_single (n : nat) (i : Z) (k : nat) :
  normalize_axis n i = Ok k -> normalize_axes n [] [i] = Ok [k].
Proof. intros H. cbn [normalize_axes]. now rewrite H. Qed.

Section Squeezing.
Context {M : DimModule} {T : Type}.

(** Squeezing one resolved negative position whose axis has length 1. *)
Lemma squeeze_single_negative (a : hfarray T) (axis : AxisArg)
  (ds : list Dim) (i : Z) :
  rank_ok a ->
  multiple_axis_handler a axis = Ok (Some ds, Some [i]) ->
  (- Z.of_nat (hf_ndim a) <= i < 0)%Z ->
  nth (Z.to_nat (i + Z.of_nat (hf_ndim a))) (hf_shape a) 0 = 1 ->
  hfarray_squeeze a axis = Raise HFArrayShapeDimsMismatchError.
Proof.
  intros Hr Hm Hi H1. set (n := hf_ndim a) in *.
  set (k := Z.to_nat (i + Z.of_nat n)).
  assert (Hk : k < n) by (unfold k; lia).
  assert (En : normalize_axis n i = Ok k).
  { unfold normalize_axis.
    destruct (Z.ltb_spec i (- Z.of_nat n)); [lia |].
    destruct (Z.leb_spec (Z.of_nat n) i); [lia |]. cbn [orb].
    destruct (Z.ltb_spec i 0); [reflexivity | lia]. }
  unfold hfarray_squeeze. rewrite Hm. cbn [bind].
  rewrite (filter_all_true _ (enumerate (dims a))).
  2:{ intros [j d] _. cbn [existsb fst orb].
      destruct (Z.eqb_spec (Z.of_nat j) i); [lia | reflexivity]. }
  rewrite map_snd_enumerate.
  unfold np_squeeze. change (ndim (buf a)) with n.
  rewrite (normalize_axes_single n i k En). cbn [bind forallb].
  change (shape (buf a)) with (hf_shape a). fold k in H1. rewrite H1.
  cbn [Nat.eqb andb].
  apply hfarray_new_mismatch.
  unfold ndim. cbn [buffer_of array_finalize buf squeeze_with shape].
  change n with (length (shape (buf a))).
  rewrite select_count.
  change (length (shape (buf a))) with n.
  rewrite (complement_count n [k]).
  - rewrite Hr. fold n. cbn [length]. lia.
  - repeat constructor. intros [].
  - intros j [<- | []]. exact Hk.
Qed.

(** X9: [squeeze] over a negative position: where the axis it names has
    length 1, the call raises [HFArrayShapeDimsMismatchError] (the axis is
    removed from the buffer but its dimension is kept); where it has
    another length, numpy's [ValueError] comes first. *)
Theorem squeeze_negative_position (a : hfarray T) (i : Z) :
  rank_ok a ->
  (- Z.of_nat (hf_ndim a) <= i < 0)%Z ->
  hfarray_squeeze a (AxOne (AxInt i))
  = if nth (Z.to_nat (i + Z.of_nat (hf_ndim a))) (hf_shape a) 0 =? 1
    then Raise HFArrayShapeDimsMismatchError
    else Raise ValueError.
Proof.
  intros Hr Hi. set (n := hf_ndim a) in *.
  assert (En : normalize_axis (length (dims a)) i
               = Ok (Z.to_nat (i + Z.of_nat n))).
  { rewrite Hr. fold n. unfold normalize_axis.
    destruct (Z.ltb_spec i (- Z.of_nat n)); [lia |].
    destruct (Z.leb_spec (Z.of_nat n) i); [lia |]. cbn [orb].
    destruct (Z.ltb_spec i 0); [reflexivity | lia]. }
  destruct (py_getitem_normalized (dims a) i _ En) as (_ & d & _ & Ed).
  assert (Hm : multiple_axis_handler a (AxOne (AxInt i))
               = Ok (Some [d], Some [i])).
  { unfold multiple_axis_handler. cbn [resolve_axes resolve_axis].
    rewrite Ed. reflexivity. }
  destruct (Nat.eqb_spec (nth (Z.to_nat (i + Z.of_nat n)) (hf_shape a) 0) 1)
    as [E1 | E1].
  - now apply (squeeze_single_negative a _ [d] i).
  - unfold hfarray_squeeze. rewrite Hm. cbn [bind].
    unfold np_squeeze. change (ndim (buf a)) with n.
    rewrite Hr in En. fold n in En.
    rewrite (normalize_axes_single n i _ En). cbn [bind forallb].
    change (shape (buf a)) with (hf_shape a).
    apply Nat.eqb_neq in E1. rewrite E1. reflexivity.
Qed.

(** The array [squeeze()] returns without an axis. *)
Lemma squeeze_none_result (a : hfarray T) :
  rank_ok a ->
  let keep := map (fun n => negb (n =? 1)) (hf_shape a) in
  exists r,
    hfarray_squeeze a AxNone = Ok r /\
    dims r = select keep (dims a) /\
    hf_shape r = filter (fun n => negb (n =? 1)) (hf_shape a) /\
    (forall idx, item (buf r) idx = item (buf a) (expand_index keep idx)).
Proof.
  intros Hr keep.
  set (g := fun k => negb (nth k (hf_shape a) 0 =? 1)).
  assert (Ekeep : keep = map g (seq 0 (length (hf_shape a)))).
  { unfold keep. symmetry. apply map_seq_nth_error.
    intros i d Hd. unfold g. now rewrite (nth_error_nth _ _ 0 Hd). }
  assert (Ekept : mapM (fun kd : nat * Dim =>
                          n <- py_getitem (hf_shape a) (Z.of_nat (fst kd)) ;;
                          Ok (negb (n =? 1), snd kd))
                       (enumerate (dims a))
                  = Ok (map (fun kd => (g (fst kd), snd kd))
                            (enumerate (dims a)))).
  { apply mapM_all_Ok. intros [k d] Hkd. cbn [fst snd].
    apply enumerate_In in Hkd.
    assert (Hk : k < length (hf_shape a)).
    { change (length (hf_shape a)) with (hf_ndim a). rewrite <- Hr.
      apply nth_error_Some. congruence. }
    rewrite (py_getitem_nat _ k _ (nth_error_nth' (hf_shape a) 0 Hk)).
    reflexivity. }
  assert (Edims : map snd (filter (fun kd : nat * Dim => g (fst kd))
                                  (enumerate (dims a)))
                  = select keep (dims a)).
  { rewrite Ekeep.
    change (length (hf_shape a)) with (hf_ndim a). rewrite <- Hr.
    unfold enumerate. now rewrite select_enumerate_from. }
  assert (Eshape : select keep (hf_shape a)
                   = filter (fun n => negb (n =? 1)) (hf_shape a)).
  { unfold keep. clear. induction (hf_shape a) as [| n l IH]; simpl;
      [reflexivity |]. destruct (negb (n =? 1)); now rewrite IH. }
  exists (mk_hfarray (squeeze_with keep (buf a)) (select keep (dims a))).
  split; [| split; [reflexivity | split; [exact Eshape | reflexivity]]].
  unfold hfarray_squeeze. cbn [multiple_axis_handler bind].
  rewrite Ekept. cbn [bind]. rewrite filter_fst_tagged, Edims.
  cbn [np_squeeze bind]. fold (hf_shape a). fold keep.
  apply hfarray_new_explicit.
  unfold ndim. cbn [buffer_of array_finalize buf squeeze_with shape].
  fold (hf_shape a). rewrite Ekeep, select_count.
  change (length (hf_shape a)) with (hf_ndim a). rewrite <- Hr.
  now rewrite select_count.
Qed.

(** X10: [squeeze()] without an axis removes exactly the axes of length 1:
    the result keeps the dimensions and the axis lengths of [a] at the
    positions whose length is not 1, in their order, and its elements are
    those of [a]. *)
Theorem squeeze_all_unit_axes (a : hfarray T) :
  rank_ok a ->
  let keep := map (fun n => negb (n =? 1)) (hf_shape a) in
  exists r,
    hfarray_squeeze a AxNone = Ok r /\
    dims r = select keep (dims a) /\
    hf_shape r = filter (fun n => negb (n =? 1)) (hf_shape a) /\
    (forall idx, item (buf r) idx = item (buf a) (expand_index keep idx)).
Proof. apply squeeze_none_result. Qed.

(** X11: [squeeze] over resolved non-negative positions of which one names an
    axis whose length is not 1 raises numpy's [ValueError]. *)
Theorem squeeze_non_unit_axis (a : hfarray T) (axis : AxisArg)
  (ds : list Dim) (idxs : list Z) (i : Z) :
  rank_ok a ->
  multiple_axis_handler a axis = Ok (Some ds, Some idxs) ->
  (forall j, In j idxs -> (0 <= j)%Z) ->
  NoDup idxs ->
  In i idxs ->
  nth (Z.to_nat i) (hf_shape a) 0 <> 1 ->
  hfarray_squeeze a axis = Raise ValueError.
Proof.
  intros Hr Hm Hpos Hnd Hi H1.
  pose proof (multiple_axis_handler_range a axis _ idxs Hm) as Hrange.
  set (n := hf_ndim a) in *.
  set (ks := map Z.to_nat idxs).
  assert (Eks : idxs = map Z.of_nat ks).
  { unfold ks. rewrite map_map. rewrite <- (map_id idxs) at 1.
    apply map_ext_in. intros j Hj. rewrite Z2Nat.id; auto. }
  assert (Enorm : normalize_axes n [] idxs = Ok ks).
  { rewrite Eks. apply normalize_axes_nat; auto.
    - intros k Hk. apply in_map_iff in Hk as (j & <- & Hj).
      specialize (Hrange j Hj). specialize (Hpos j Hj).
      rewrite Hr in Hrange. fold n in Hrange. lia.
    - unfold ks. apply Injective_map_NoDup_in; [| exact Hnd].
      intros x y Hx Hy E. apply Hpos in Hx, Hy. lia. }
  unfold hfarray_squeeze. rewrite Hm. cbn [bind].
  unfold np_squeeze. change (ndim (buf a)) with n. rewrite Enorm.
  cbn [bind].
  destruct (forallb (fun k => nth k (shape (buf a)) 0 =? 1) ks) eqn:F;
    [| reflexivity].
  exfalso. apply H1. rewrite forallb_forall in F.
  apply Nat.eqb_eq. apply (F (Z.to_nat i)). unfold ks. now apply in_map.
Qed.
End Squeezing.

Lemma squeeze_negative_position_witness :
  hfarray_squeeze (M := spec_dim_module) ex_A (AxOne (AxInt (-1)))
  = Raise ValueError.
Proof.
  apply (squeeze_negative_position (M := spec_dim_module) ex_A (-1)%Z).
  - reflexivity.
  - unfold hf_ndim, ndim. simpl. lia.
Defined.

Lemma squeeze_all_unit_axes_witness :
  exists r,
    hfarray_squeeze (M := spec_dim_module) ex_A AxNone = Ok r /\
    dims r = dims ex_A.
Proof.
  destruct (squeeze_all_unit_axes (M := spec_dim_module) ex_A eq_refl)
    as (r & E & D & _).
  exists r. split; [exact E | exact D].
Defined.

Lemma squeeze_non_unit_axis_witness :
  hfarray_squeeze (M := spec_dim_module) ex_A (AxOne (AxName "rep"))
  = Raise ValueError.
Proof.
  apply (squeeze_non_unit_axis (M := spec_dim_module) ex_A
           (AxOne (AxName "rep")) [rep2] [1%Z] 1%Z).
  - reflexivity.
  - reflexivity.
  - intros j [<- | []]. lia.
  - repeat constructor. intros [].
  - now left.
  - simpl. discriminate.
Defined.

(* ------------------------------------------------------------------ *)
(** ** Reductions over a negative position and over every axis *)

Lemma select_none {A : Type} (keep : list bool) (l : list A) :
  (forall b, In b keep -> b = false) -> select keep l = [].
Proof.
  revert l. induction keep as [| b keep IH]; intros l H; [reflexivity |].
  destruct l as [| x l]; [now destruct b |].
  rewrite (H b (or_introl eq_refl)). cbn [select]. apply IH.
  intros c Hc. apply H. now right.
Qed.

Lemma expand_index_none (keep : list bool) (idx : list nat) :
  (forall b, In b keep -> b = false) ->
  expand_index keep idx = map (fun _ => 0) keep.
Proof.
  induction keep as [| b keep IH]; intros H; [reflexivity |].
  rewrite (H b (or_introl eq_refl)). cbn [expand_index map]. f_equal.
  apply IH. intros c Hc. apply H. now right.
Qed.

Section ReductionEdges.
Context {M : DimModule} {T : Type} (f : list T -> T).

(** X12: A reduction over a negative position, which the resolver accepts,
    raises [HFArrayShapeDimsMismatchError] unless [keepdims] is set: the
    buffer loses the axis, the dimension collection keeps every entry. *)
Theorem reduction_negative_position (A : hfarray T) (i : Z)
  (dimerror : bool) :
  rank_ok A ->
  (- Z.of_nat (hf_ndim A) <= i < 0)%Z ->
  hfarray_reduce f A (AxOne (AxInt i)) false dimerror
  = Raise HFArrayShapeDimsMismatchError /\
  exists r, hfarray_reduce f A (AxOne (AxInt i)) true dimerror = Ok r /\
            dims r = dims A.
Proof.
  intros Hr Hi. set (n := hf_ndim A) in *.
  set (k := Z.to_nat (i + Z.of_nat n)).
  assert (Hk : k < n) by (unfold k; lia).
  assert (En : normalize_axis n i = Ok k).
  { unfold normalize_axis.
    destruct (Z.ltb_spec i (- Z.of_nat n)); [lia |].
    destruct (Z.leb_spec (Z.of_nat n) i); [lia |]. cbn [orb].
    destruct (Z.ltb_spec i 0); [reflexivity | lia]. }
  assert (En' : normalize_axis (length (dims A)) i = Ok k)
    by (now rewrite Hr).
  destruct (py_getitem_normalized (dims A) i k En') as (_ & d & _ & Ed).
  assert (Hm : multiple_axis_handler A (AxOne (AxInt i))
               = Ok (Some [d], Some [i])).
  { unfold multiple_axis_handler. cbn [resolve_axes resolve_axis].
    rewrite Ed. reflexivity. }
  set (shape' := map (fun kn : nat * nat =>
                        if existsb (Nat.eqb (fst kn)) [k] then 1 else snd kn)
                     (enumerate (hf_shape A))).
  assert (Hlen' : length shape' = n).
  { unfold shape'. now rewrite length_map, enumerate_length. }
  assert (Ered : exists it,
             np_reduce_keepdims f (buf A) (Some [i])
             = Ok (mk_ndarray shape' it)).
  { unfold np_reduce_keepdims. change (ndim (buf A)) with n.
    rewrite (normalize_axes_single n i k En). cbn [bind].
    eexists. reflexivity. }
  destruct Ered as (it & Ered).
  set (res := mk_hfarray (mk_ndarray shape' it) (dims A)).
  assert (Enew : hfarray_new (Plain (mk_ndarray shape' it)) (Some (dims A))
                 = Ok res).
  { apply hfarray_new_explicit. unfold ndim. cbn [buffer_of shape].
    rewrite Hlen'. exact Hr. }
  assert (Hres : hf_ndim res = n) by exact Hlen'.
  unfold hfarray_reduce. rewrite Hm, Ered. cbn [bind]. rewrite Enew.
  cbn [bind axis_of_positions map]. split; [| exists res; split; reflexivity].
  apply (squeeze_single_negative res _ [d] i).
  - unfold rank_ok. rewrite Hres. exact Hr.
  - unfold multiple_axis_handler. cbn [resolve_axes resolve_axis].
    cbn [res dims]. rewrite Ed. reflexivity.
  - rewrite Hres. exact Hi.
  - rewrite Hres. fold k. cbn [res hf_shape buf shape].
    assert (Hks : k < length (hf_shape A)) by exact Hk.
    pose proof (nth_error_enumerate _ k _
                  (nth_error_nth' (hf_shape A) 0 Hks)) as Ee.
    apply (nth_error_nth _ _ 0). unfold shape'.
    rewrite nth_error_map, Ee. cbn [option_map fst existsb].
    now rewrite Nat.eqb_refl.
Qed.

(** X13: A reduction without an axis and without [keepdims] returns an array of
    rank 0 with no dimension, whose one element is the reduction of every
    element of [A] in row-major order. *)
Theorem reduction_over_all_axes (A : hfarray T) (dimerror : bool) :
  rank_ok A ->
  exists r,
    hfarray_reduce f A AxNone false dimerror = Ok r /\
    dims r = [] /\ hf_shape r = [] /\
    item (buf r) [] = f (elements A).
Proof.
  intros Hr. set (n := hf_ndim A).
  set (reduced := fun j => existsb (Nat.eqb j) (seq 0 n)).
  assert (Hall : forall kn, In kn (enumerate (hf_shape A)) ->
                            reduced (fst kn) = true).
  { intros [j x] Hj. apply enumerate_In in Hj. cbn [fst].
    apply existsb_exists. exists j. split; [| apply Nat.eqb_refl].
    apply in_seq. split; [lia |]. cbn [Nat.add].
    apply nth_error_Some. unfold hf_shape in Hj. congruence. }
  set (shape' := map (fun kn : nat * nat =>
                        if reduced (fst kn) then 1 else snd kn)
                     (enumerate (hf_shape A))).
  assert (Hlen' : length shape' = n).
  { unfold shape'. now rewrite length_map, enumerate_length. }
  assert (Hones : forall x, In x shape' -> x = 1).
  { intros x Hx. apply in_map_iff in Hx as (kn & <- & Hkn).
    now rewrite (Hall kn Hkn). }
  set (it := fun idx : list nat =>
               f (map (item (buf A))
                      (cartesian
                         (map (fun kn : nat * nat =>
                                 if reduced (fst kn) then seq 0 (snd kn)
                                 else [nth (fst kn) idx 0])
                              (enumerate (hf_shape A)))))).
  assert (Ered : np_reduce_keepdims f (buf A) None
                 = Ok (mk_ndarray shape' it)) by reflexivity.
  set (res := mk_hfarray (mk_ndarray shape' it) (dims A)).
  assert (Enew : hfarray_new (Plain (mk_ndarray shape' it)) (Some (dims A))
                 = Ok res).
  { apply hfarray_new_explicit. unfold ndim. cbn [buffer_of shape].
    rewrite Hlen'. exact Hr. }
  assert (Hres : rank_ok res).
  { unfold rank_ok, hf_ndim, ndim. cbn [res buf dims shape].
    rewrite Hlen'. exact Hr. }
  destruct (squeeze_none_result res Hres) as (r & Er & Ed & Es & Ei).
  assert (Hkeep : forall b,
             In b (map (fun m => negb (m =? 1)) (hf_shape res)) ->
             b = false).
  { intros b Hb. apply in_map_iff in Hb as (x & <- & Hx).
    now rewrite (Hones x Hx). }
  exists r. split; [| split; [| split]].
  - unfold hfarray_reduce. cbn [multiple_axis_handler].
    rewrite Ered. cbn [bind]. rewrite Enew. exact Er.
  - rewrite Ed. now apply select_none.
  - rewrite Es. clear - Hones. cbn [res hf_shape buf shape].
    induction shape' as [| x l IH]; [reflexivity |].
    cbn [filter]. rewrite (Hones x (or_introl eq_refl)). cbn [Nat.eqb negb].
    apply IH. intros y Hy. apply Hones. now right.
  - rewrite Ei. cbn [res buf item]. unfold it, elements. do 3 f_equal.
    transitivity (map (fun kn : nat * nat => seq 0 (snd kn))
                      (enumerate (hf_shape A))).
    + apply map_ext_in. intros kn Hkn. now rewrite (Hall kn Hkn).
    + rewrite <- (map_map snd (seq 0)).
      now rewrite map_snd_enumerate.
Qed.
End ReductionEdges.

Lemma reduction_negative_position_witness :
  hfarray_reduce (M := spec_dim_module) zsum ex_A (AxOne (AxInt (-2)))
                 false true
  = Raise HFArrayShapeDimsMismatchError.
Proof.
  apply (reduction_negative_position (M := spec_dim_module) zsum ex_A
           (-2)%Z true).
  - reflexivity.
  - unfold hf_ndim, ndim. simpl. lia.
Defined.

Lemma reduction_over_all_axes_witness :
  exists r,
    hfarray_reduce (M := spec_dim_module) zsum ex_A AxNone false true = Ok r /\
    dims r = [] /\ hf_shape r = [] /\
    item (buf r) [] = zsum (elements ex_A).
Proof.
  apply (reduction_over_all_axes (M := spec_dim_module) zsum ex_A true).
  reflexivity.
Defined.

(* ================================================================== *)
(** * Transposition: the default order, negative axes, refused orders *)

Lemma axis_permutation_rev_seq (n : nat) : axis_permutation n (rev (seq 0 n)).
Proof.
  repeat split.
  - now rewrite length_rev, length_seq.
  - apply NoDup_rev, seq_NoDup.
  - intros k Hk. apply in_rev, in_seq in Hk. lia.
Qed.

Lemma map_nth_rev_seq {A : Type} (l : list A) (d : A) :
  map (fun k => nth k l d) (rev (seq 0 (length l))) = rev l.
Proof. now rewrite map_rev, map_nth_seq_id. Qed.

Lemma position_of_rev_seq (n m : nat) :
  m < n -> position_of m (rev (seq 0 n)) = n - 1 - m.
Proof.
  intros Hm.
  assert (E : nth (n - 1 - m) (rev (seq 0 n)) 0 = m).
  { rewrite rev_nth by (rewrite length_seq; lia).
    rewrite length_seq, seq_nth by lia. lia. }
  rewrite <- E at 1. apply position_of_nth.
  - apply NoDup_rev, seq_NoDup.
  - rewrite length_rev, length_seq. lia.
Qed.

Lemma unpermute_rev_seq (idx : list nat) :
  unpermute (rev (seq 0 (length idx))) idx = rev idx.
Proof.
  unfold unpermute. rewrite length_rev, length_seq.
  rewrite <- (map_nth_seq_id (rev idx) 0), length_rev.
  apply map_ext_in. intros m Hm. apply in_seq in Hm.
  rewrite position_of_rev_seq by lia.
  rewrite rev_nth by lia. f_equal. lia.
Qed.

Lemma normalize_axes_inv (n : nat) (order : list Z) :
  forall seen p,
    normalize_axes n seen order = Ok p ->
    mapM (normalize_axis n) order = Ok p /\ NoDup p /\
    forall k, In k p -> k < n /\ ~ In k seen.
Proof.
  induction order as [| i order IH]; intros seen p H; cbn [normalize_axes] in H.
  - injection H as <-. repeat split; try constructor; contradiction.
  - inv_bind H as k Hk.
    destruct (existsb (Nat.eqb k) seen) eqn:Es; [discriminate |].
    inv_bind H as ks Hks. injection H as <-.
    destruct (IH _ _ Hks) as (Hm & Hnd & Hin).
    assert (Hkn : k < n).
    { unfold normalize_axis in Hk.
      destruct ((i <? - Z.of_nat n)%Z || (Z.of_nat n <=? i)%Z) eqn:E;
        [discriminate |].
      apply orb_false_iff in E as [E1 E2].
      apply Z.ltb_ge in E1. apply Z.leb_gt in E2. injection Hk as <-.
      destruct (Z.ltb_spec i 0); lia. }
    assert (Hks' : ~ In k seen).
    { intros Hc. rewrite (existsb_eqb_true k seen Hc) in Es. discriminate. }
    split; [| split].
    + cbn [mapM]. rewrite Hk. cbn [bind]. now rewrite Hm.
    + constructor; [| exact Hnd].
      intros Hc. apply Hin in Hc as [_ Hc]. apply Hc. now left.
    + intros j [<- | Hj]; [now split |].
      destruct (Hin j Hj) as [Hj1 Hj2]. split; [exact Hj1 |].
      intros Hc. apply Hj2. now right.
Qed.

Lemma normalize_axes_of_mapM (n : nat) (order : list Z) :
  forall seen p,
    mapM (normalize_axis n) order = Ok p -> NoDup p ->
    (forall k, In k p -> ~ In k seen) ->
    normalize_axes n seen order = Ok p.
Proof.
  induction order as [| i order IH]; intros seen p H Hnd Hs; cbn [mapM] in H.
  - now injection H as <-.
  - inv_bind H as k Hk. inv_bind H as ks Hks. injection H as <-.
    cbn [normalize_axes]. rewrite Hk. cbn [bind].
    destruct (existsb (Nat.eqb k) seen) eqn:Es.
    + apply existsb_exists in Es as (j & Hj & E). apply Nat.eqb_eq in E.
      subst j. exfalso. apply (Hs k); [now left | exact Hj].
    + inversion Hnd as [| ? ? Hk' Hnd']; subst.
      rewrite (IH (k :: seen) ks Hks Hnd'); [reflexivity |].
      intros j Hj [<- | Hc]; [contradiction |].
      apply (Hs j); [now right | exact Hc].
Qed.

Lemma mapM_getitem_normalized {A : Type} (l : list A) (order : list Z) :
  forall p,
    mapM (normalize_axis (length l)) order = Ok p ->
    mapM (py_getitem l) order = mapM (py_getitem l) (map Z.of_nat p).
Proof.
  induction order as [| i order IH]; intros p H; cbn [mapM] in H.
  - now injection H as <-.
  - inv_bind H as k Hk. inv_bind H as ks Hks. injection H as <-.
    destruct (py_getitem_normalized l i k Hk) as (_ & x & Hx & Ei).
    cbn [mapM map]. rewrite Ei, (py_getitem_nat l k x Hx).
    cbn [bind]. now rewrite (IH ks Hks).
Qed.

Section Transposition.
Context {T : Type}.

(** X14: [transpose()] without an order (the property [T] as well) reverses
    the dimensions and the shape, and the element at an index is the
    element of [A] at the reversed index. *)
Theorem transpose_default_reverses (A : hfarray T) :
  rank_ok A ->
  exists r,
    hfarray_transpose A [] = Ok r /\
    dims r = rev (dims A) /\
    hf_shape r = rev (hf_shape A) /\
    forall idx, length idx = hf_ndim A ->
                item (buf r) idx = item (buf A) (rev idx).
Proof.
  intros Hr. set (n := hf_ndim A).
  assert (E : hfarray_transpose A []
              = hfarray_transpose A (map Z.of_nat (rev (seq 0 n)))).
  { unfold hfarray_transpose. fold n.
    now destruct (map Z.of_nat (rev (seq 0 n))). }
  rewrite E.
  rewrite (hfarray_transpose_permutation A _ Hr (axis_permutation_rev_seq n)).
  eexists. split; [reflexivity |]. cbn [dims hf_shape buf shape item].
  split; [| split].
  - destruct (dims A) as [| d l] eqn:Ed.
    + unfold n. rewrite <- Hr, Ed. reflexivity.
    + rewrite <- Ed.
      rewrite (pick_map_nth (dims A) _ d).
      * unfold n. rewrite <- Hr. apply map_nth_rev_seq.
      * intros k Hk. apply in_rev, in_seq in Hk. rewrite Hr. fold n. lia.
  - apply (map_nth_rev_seq (shape (buf A)) 0).
  - intros idx Hi. rewrite <- Hi. now rewrite unpermute_rev_seq.
Qed.

(** X15: [transpose( *order )] accepts negative axes: an order that names every
    axis once, some of them from the end, gives the array that the
    non-negative order gives, with the dimensions and axis lengths of [A]
    in that order. *)
Theorem transpose_negative_axes (A : hfarray T) (order : list Z)
  (p : list nat) :
  rank_ok A ->
  order <> [] ->
  mapM (normalize_axis (hf_ndim A)) order = Ok p ->
  axis_permutation (hf_ndim A) p ->
  hfarray_transpose A order = hfarray_transpose A (map Z.of_nat p) /\
  exists r,
    hfarray_transpose A order = Ok r /\
    dims r = pick (dims A) p /\
    hf_shape r = pick (hf_shape A) p.
Proof.
  intros Hr Hne Hm Hp. set (n := hf_ndim A) in *.
  pose proof Hp as (Hl & Hnd & Hlt).
  assert (Hlo : length order = n).
  { rewrite <- Hl. symmetry. exact (mapM_Ok_length _ _ _ Hm). }
  assert (Enp : np_transpose (buf A) order
                = np_transpose (buf A) (map Z.of_nat p)).
  { rewrite (np_transpose_permutation (buf A) p Hp).
    unfold np_transpose. change (ndim (buf A)) with n.
    destruct order as [| o os]; [contradiction |].
    rewrite Hlo, Nat.eqb_refl.
    rewrite (normalize_axes_of_mapM n _ [] p Hm Hnd); [reflexivity |].
    intros k _ []. }
  assert (Eg : mapM (py_getitem (dims A)) order
               = mapM (py_getitem (dims A)) (map Z.of_nat p)).
  { apply mapM_getitem_normalized. now rewrite Hr. }
  assert (E : hfarray_transpose A order
              = hfarray_transpose A (map Z.of_nat p)).
  { unfold hfarray_transpose.
    destruct order as [| o os]; [contradiction |].
    destruct p as [| k ks]; [cbn [length] in Hl, Hlo; lia |].
    cbn [map]. cbn [map] in Enp, Eg. now rewrite Enp, Eg. }
  split; [exact E |]. rewrite E.
  rewrite (hfarray_transpose_permutation A p Hr Hp).
  eexists. split; [reflexivity |]. cbn [dims hf_shape buf shape].
  split; [reflexivity |].
  symmetry. apply pick_map_nth. intros k Hk. now apply Hlt.
Qed.

(** X16: [transpose( *order )] returns only for an order that names every axis
    of the array exactly once (counting from either end). *)
Theorem transpose_only_permutations (A : hfarray T) (order : list Z)
  (r : hfarray T) :
  order <> [] ->
  hfarray_transpose A order = Ok r ->
  exists p,
    mapM (normalize_axis (hf_ndim A)) order = Ok p /\
    axis_permutation (hf_ndim A) p.
Proof.
  intros Hne H. unfold hfarray_transpose in H.
  destruct order as [| o os]; [contradiction |].
  inv_bind H as b Hb. unfold np_transpose in Hb.
  destruct (Nat.eqb_spec (length (o :: os)) (ndim (buf A))) as [El |];
    [| discriminate].
  inv_bind Hb as p Hp.
  destruct (normalize_axes_inv _ _ _ _ Hp) as (Hm & Hnd & Hin).
  exists p. split; [exact Hm |]. repeat split; auto.
  - rewrite (mapM_Ok_length _ _ _ Hm). exact El.
  - intros k Hk. now apply Hin.
Qed.
End Transposition.

Lemma transpose_default_reverses_witness :
  exists r,
    hfarray_transpose ex_A [] = Ok r /\
    dims r = [rep2; freq3] /\ hf_shape r = [2; 3].
Proof.
  destruct (transpose_default_reverses ex_A eq_refl) as (r & E & D & S & _).
  exists r. split; [exact E |]. split; [exact D | exact S].
Defined.

Lemma transpose_negative_axes_witness :
  hfarray_transpose ex_A [(-1)%Z; 0%Z] = hfarray_transpose ex_A [1%Z; 0%Z].
Proof.
  apply (transpose_negative_axes ex_A [(-1)%Z; 0%Z] [1; 0]).
  - reflexivity.
  - discriminate.
  - reflexivity.
  - repeat split.
    + repeat constructor; simpl; intuition discriminate.
    + intros k [<- | [<- | []]]; unfold hf_ndim, ndim; simpl; lia.
Defined.

Lemma transpose_only_permutations_witness :
  exists p,
    mapM (normalize_axis (hf_ndim ex_A)) [1%Z; (-2)%Z] = Ok p /\
    axis_permutation (hf_ndim ex_A) p.
Proof.
  destruct (hfarray_transpose ex_A [1%Z; (-2)%Z]) as [r | e] eqn:E.
  - apply (transpose_only_permutations ex_A [1%Z; (-2)%Z] r).
    + discriminate.
    + exact E.
  - discriminate E.
Defined.

(* ================================================================== *)
(** * Basic indexing *)

Lemma slice_indices_full (m : nat) :
  slice_indices full_slice m = Ok (0%Z, 1%Z, m).
Proof.
  unfold slice_indices, full_slice.
  cbn [slice_step slice_start slice_stop].
  change (1 =? 0)%Z with false. change (1 <? 0)%Z with false. cbv iota.
  destruct (Z.ltb_spec 0 (Z.of_nat m)); do 2 f_equal.
  - rewrite Z.div_1_r. lia.
  - lia.
Qed.

Lemma py_getslice_full {A : Type} (l : list A) :
  py_getslice l full_slice = Ok l.
Proof.
  unfold py_getslice. rewrite slice_indices_full. cbn [bind]. f_equal.
  transitivity (pick l (seq 0 (length l))); [| apply pick_seq_all].
  unfold pick. apply flat_map_ext. intros k.
  now replace (Z.to_nat (0 + Z.of_nat k * 1)) with k by lia.
Qed.

Lemma build_plan_full (sh : list nat) :
  build_plan (repeat (IxSlice full_slice) (length sh)) sh
  = Ok (map (RangeOf 0 1) sh).
Proof.
  induction sh as [| m sh IH]; cbn [length repeat build_plan map];
    [reflexivity |].
  rewrite slice_indices_full. cbn [bind]. now rewrite IH.
Qed.

Lemma plan_shape_full (sh : list nat) :
  plan_shape (map (RangeOf 0 1) sh) = sh.
Proof. induction sh as [| m sh IH]; simpl; congruence. Qed.

Lemma plan_source_full (sh idx : list nat) :
  length idx = length sh ->
  plan_source (map (RangeOf 0 1) sh) idx = idx.
Proof.
  revert idx. induction sh as [| m sh IH]; intros [| j idx] H;
    try discriminate; [reflexivity |].
  cbn [map plan_source hd tl]. rewrite IH by (simpl in H; lia).
  f_equal. lia.
Qed.

Section BasicIndexing.
Context {M : DimModule} {T : Type}.

Lemma dim_getslice_full (d : Dim) : dim_getslice d full_slice = Ok d.
Proof.
  unfold dim_getslice. rewrite py_getslice_full. now destruct d.
Qed.

Lemma getitem_dims_full (ds : list Dim) :
  getitem_dims (repeat (IxSlice full_slice) (length ds)) ds = Ok ds.
Proof.
  induction ds as [| d ds IH]; cbn [length repeat getitem_dims];
    [reflexivity |].
  rewrite dim_getslice_full. cbn [bind]. now rewrite IH.
Qed.

(** X17: [A[i]] for an integer [i] within the first axis of an array of rank
    two or more: the first dimension is dropped, the others and their axis
    lengths are kept, and the element at an index is the element of [A]
    at position [i] (counted from the end if negative) followed by that
    index. *)
Theorem getitem_integer_first_axis (A : hfarray T) (i : Z) (d : Dim)
  (ds : list Dim) (m : nat) (sh : list nat) :
  rank_ok A ->
  dims A = d :: ds ->
  hf_shape A = m :: sh ->
  ds <> [] ->
  (- Z.of_nat m <= i < Z.of_nat m)%Z ->
  exists r,
    hfarray_getitem A (IxOne (IxInt i)) = Ok (LabeledArray r) /\
    dims r = ds /\
    hf_shape r = sh /\
    forall idx, length idx = length sh ->
      item (buf r) idx
      = item (buf A)
             (Z.to_nat (if (i <? 0)%Z then i + Z.of_nat m else i) :: idx).
Proof.
  intros Hr Hd Hs Hne Hi.
  assert (Hn : hf_ndim A = S (length sh)).
  { unfold hf_ndim, ndim. fold (hf_shape A). now rewrite Hs. }
  assert (Hl : length ds = length sh).
  { unfold rank_ok in Hr. rewrite Hd, Hn in Hr. simpl in Hr. lia. }
  assert (Hsh : sh <> []).
  { intros ->. destruct ds; [contradiction | discriminate]. }
  set (k := Z.to_nat (if (i <? 0)%Z then (i + Z.of_nat m)%Z else i)).
  exists (mk_hfarray
            (mk_ndarray sh
               (fun idx => item (buf A)
                             (plan_source (PickAt k :: map (RangeOf 0 1) sh)
                                          idx)))
            ds).
  split; [| split; [reflexivity | split; [reflexivity |]]].
  2:{ intros idx Hidx. cbn [buf item plan_source].
      now rewrite plan_source_full. }
  unfold hfarray_getitem.
  cbn [forallb is_int is_ellipsis orb andb filter length Nat.eqb Nat.ltb
       Nat.leb bind app].
  rewrite Hn. cbn [length Nat.sub repeat app].
  rewrite Nat.sub_0_r, Hd. cbn [getitem_dims].
  rewrite <- Hl, getitem_dims_full. cbn [bind].
  unfold np_getitem, yields_scalar.
  cbn [filter consumes_axis is_ellipsis length existsb orb forallb is_int
       andb].
  change (ndim (buf A)) with (hf_ndim A). rewrite Hn.
  cbn [Nat.ltb Nat.leb Nat.sub app].
  destruct (1 <? 0) eqn:E0; [discriminate |].
  destruct (Nat.ltb_spec (S (length sh)) 1) as [Hc | _]; [lia |].
  rewrite Nat.sub_0_r. fold (hf_shape A). rewrite Hs.
  cbn [build_plan].
  destruct (Z.ltb_spec i (- Z.of_nat m)); [lia |].
  destruct (Z.leb_spec (Z.of_nat m) i); [lia |]. cbn [orb].
  rewrite build_plan_full. cbn [bind]. fold k.
  destruct (Nat.eqb_spec 1 (S (length sh))) as [Hc | _].
  { destruct sh; [contradiction | discriminate]. }
  cbn [plan_shape]. rewrite plan_shape_full.
  rewrite hfarray_new_explicit.
  - reflexivity.
  - unfold ndim. cbn [buffer_of array_finalize buf shape]. exact Hl.
Qed.

(** X18: [A[i]] for an integer [i] outside the first axis raises
    [IndexError]. *)
Theorem getitem_integer_out_of_range (A : hfarray T) (i : Z) (m : nat)
  (sh : list nat) :
  rank_ok A ->
  hf_shape A = m :: sh ->
  (i < - Z.of_nat m \/ Z.of_nat m <= i)%Z ->
  hfarray_getitem A (IxOne (IxInt i)) = Raise IndexError.
Proof.
  intros Hr Hs Hi.
  assert (Hn : hf_ndim A = S (length sh)).
  { unfold hf_ndim, ndim. fold (hf_shape A). now rewrite Hs. }
  destruct (dims A) as [| d ds] eqn:Hd;
    [unfold rank_ok in Hr; rewrite Hd, Hn in Hr; discriminate |].
  assert (Hl : length ds = length sh).
  { unfold rank_ok in Hr. rewrite Hd, Hn in Hr. simpl in Hr. lia. }
  unfold hfarray_getitem.
  cbn [forallb is_int is_ellipsis orb andb filter length Nat.eqb Nat.ltb
       Nat.leb bind app].
  rewrite Hn. cbn [length Nat.sub repeat app].
  rewrite Nat.sub_0_r, Hd. cbn [getitem_dims].
  rewrite <- Hl, getitem_dims_full. cbn [bind].
  unfold np_getitem.
  cbn [filter consumes_axis is_ellipsis length existsb orb].
  change (ndim (buf A)) with (hf_ndim A). rewrite Hn.
  cbn [Nat.ltb Nat.leb Nat.sub app].
  destruct (1 <? 0) eqn:E0; [discriminate |].
  destruct (Nat.ltb_spec (S (length sh)) 1) as [Hc | _]; [lia |].
  rewrite Nat.sub_0_r. fold (hf_shape A). rewrite Hs.
  cbn [build_plan].
  destruct (Z.ltb_spec i (- Z.of_nat m)); [reflexivity |].
  destruct (Z.leb_spec (Z.of_nat m) i); [reflexivity | lia].
Qed.

(** X19: [A[i]] on an array of rank one is the element itself, not an array. *)
Theorem getitem_integer_scalar (A : hfarray T) (i : Z) (m : nat) :
  rank_ok A ->
  hf_shape A = [m] ->
  (- Z.of_nat m <= i < Z.of_nat m)%Z ->
  hfarray_getitem A (IxOne (IxInt i))
  = Ok (Scalar (item (buf A)
                     [Z.to_nat (if (i <? 0)%Z then i + Z.of_nat m else i)])).
Proof.
  intros Hr Hs Hi.
  assert (Hn : hf_ndim A = 1).
  { unfold hf_ndim, ndim. fold (hf_shape A). now rewrite Hs. }
  destruct (dims A) as [| d [| d' ds]] eqn:Hd;
    try (unfold rank_ok in Hr; rewrite Hd, Hn in Hr; discriminate).
  unfold hfarray_getitem.
  cbn [forallb is_int is_ellipsis orb andb filter length Nat.eqb Nat.ltb
       Nat.leb bind app].
  rewrite Hn. cbn [length Nat.sub repeat app].
  rewrite Hd. cbn [getitem_dims bind].
  unfold np_getitem, yields_scalar.
  cbn [filter consumes_axis is_ellipsis length existsb orb forallb is_int
       andb].
  change (ndim (buf A)) with (hf_ndim A). rewrite Hn.
  cbn [Nat.ltb Nat.leb Nat.sub app repeat Nat.eqb].
  fold (hf_shape A). rewrite Hs. cbn [build_plan].
  destruct (Z.ltb_spec i (- Z.of_nat m)); [lia |].
  destruct (Z.leb_spec (Z.of_nat m) i); [lia |]. cbn [orb bind].
  reflexivity.
Qed.

(** X20: [A[:]] on an array of rank one or more, and [A[...]], give the whole
    array: the same dimensions, the same shape and the same elements. *)
Theorem getitem_whole_array (A : hfarray T) :
  rank_ok A ->
  hf_ndim A <> 0 ->
  hfarray_getitem A (IxOne IxEllipsis) = Ok (LabeledArray A) /\
  exists r,
    hfarray_getitem A (IxOne (IxSlice full_slice)) = Ok (LabeledArray r) /\
    dims r = dims A /\
    same_contents (buf r) (buf A).
Proof.
  intros Hr Hn. split.
  - unfold hfarray_getitem, hfarray_view.
    rewrite hfarray_new_explicit by exact Hr.
    cbn [bind buffer_of]. now destruct A.
  - destruct (hf_ndim A) as [| n] eqn:En; [contradiction |].
    exists (mk_hfarray
              (mk_ndarray (hf_shape A)
                 (fun idx => item (buf A)
                               (plan_source (map (RangeOf 0 1) (hf_shape A))
                                            idx)))
              (dims A)).
    split; [| split; [reflexivity | split; [reflexivity |]]].
    2:{ intros idx Hidx. cbn [buf item shape] in *.
        rewrite plan_source_full; [reflexivity |].
        exact (Forall2_length Hidx). }
    assert (Hrep : IxSlice full_slice :: repeat (IxSlice full_slice) n
                   = repeat (IxSlice full_slice) (length (dims A))).
    { rewrite Hr, En. reflexivity. }
    assert (Hrep' : IxSlice full_slice :: repeat (IxSlice full_slice) n
                    = repeat (IxSlice full_slice) (length (hf_shape A))).
    { change (length (hf_shape A)) with (hf_ndim A). now rewrite En. }
    unfold hfarray_getitem.
    cbn [forallb is_int is_ellipsis orb andb filter length Nat.eqb Nat.ltb
         Nat.leb bind app].
    rewrite En. cbn [length Nat.sub repeat app].
    rewrite Nat.sub_0_r, Hrep, getitem_dims_full. cbn [bind].
    rewrite <- Hrep.
    unfold np_getitem, yields_scalar.
    assert (Hc : length (filter consumes_axis
                           (IxSlice full_slice
                            :: repeat (IxSlice full_slice) n)) = S n).
    { cbn [filter consumes_axis length]. f_equal.
      clear. induction n; simpl; congruence. }
    assert (He : filter is_ellipsis
                   (IxSlice full_slice :: repeat (IxSlice full_slice) n)
                 = []).
    { cbn [filter is_ellipsis]. clear. induction n; simpl; congruence. }
    assert (Hx : existsb is_ellipsis
                   (IxSlice full_slice :: repeat (IxSlice full_slice) n)
                 = false).
    { cbn [existsb is_ellipsis orb]. clear. induction n; simpl; congruence. }
    rewrite Hc, He, Hx. change (ndim (buf A)) with (hf_ndim A). rewrite En.
    cbn [length]. rewrite Nat.ltb_irrefl, Nat.sub_diag.
    change (1 <? 0) with false. cbv iota.
    cbn [repeat]. rewrite app_nil_r.
    cbn [forallb is_int andb].
    rewrite Hrep'. fold (hf_shape A). rewrite build_plan_full. cbn [bind].
    rewrite plan_shape_full.
    rewrite hfarray_new_explicit; [reflexivity |].
    unfold ndim. cbn [buffer_of array_finalize buf shape]. exact Hr.
Qed.
End BasicIndexing.

Lemma getitem_integer_first_axis_witness :
  exists r,
    hfarray_getitem (M := spec_dim_module) ex_A (IxOne (IxInt (-1)))
    = Ok (LabeledArray r) /\
    dims r = [rep2] /\ hf_shape r = [2].
Proof.
  destruct (getitem_integer_first_axis (M := spec_dim_module) ex_A (-1)%Z
              freq3 [rep2] 3 [2])
    as (r & E & D & S & _).
  - reflexivity.
  - reflexivity.
  - reflexivity.
  - discriminate.
  - lia.
  - exists r. split; [exact E |]. split; [exact D | exact S].
Defined.

Lemma getitem_integer_out_of_range_witness :
  hfarray_getitem (M := spec_dim_module) ex_A (IxOne (IxInt 3))
  = Raise IndexError.
Proof.
  apply (getitem_integer_out_of_range (M := spec_dim_module) ex_A 3%Z 3 [2]).
  - reflexivity.
  - reflexivity.
  - right. lia.
Defined.

Lemma getitem_integer_scalar_witness :
  hfarray_getitem (M := spec_dim_module) ex_S (IxOne (IxInt (-1)))
  = Ok (Scalar (item (buf ex_S) [2])).
Proof.
  apply (getitem_integer_scalar (M := spec_dim_module) ex_S (-1)%Z 3).
  - reflexivity.
  - reflexivity.
  - lia.
Defined.

Lemma getitem_whole_array_witness :
  hfarray_getitem (M := spec_dim_module) ex_A (IxOne IxEllipsis)
  = Ok (LabeledArray ex_A).
Proof.
  apply (getitem_whole_array (M := spec_dim_module) ex_A).
  - reflexivity.
  - discriminate.
Defined.

(* ------------------------------------------------------------------ *)
(** ** Slices *)

(** Every position a slice selects lies inside the sequence. *)
Lemma slice_indices_in_range (s : slice) (len : nat) (first st : Z)
  (count : nat) :
  slice_indices s len = Ok (first, st, count) ->
  forall k, k < count ->
    (0 <= first + Z.of_nat k * st < Z.of_nat len)%Z.
Proof.
  unfold slice_indices. cbv zeta.
  set (n := Z.of_nat len).
  set (st0 := match slice_step s with Some v => v | None => 1%Z end).
  destruct (Z.eqb_spec st0 0) as [| Hst]; [discriminate |].
  set (lower := if (st0 <? 0)%Z then (-1)%Z else 0%Z).
  set (upper := if (st0 <? 0)%Z then (n - 1)%Z else n).
  assert (Hn : (0 <= n)%Z) by (unfold n; lia).
  assert (Hlu : (lower <= upper)%Z).
  { unfold lower, upper. destruct (st0 <? 0)%Z; lia. }
  assert (Hclamp : forall v,
             (lower <= (if (v <? 0)%Z
                        then (if (v + n <? 0)%Z then lower else (v + n)%Z)
                        else if (n <=? v)%Z then upper else v)
              <= upper)%Z).
  { intros v. unfold lower, upper.
    destruct (Z.ltb_spec v 0); [destruct (Z.ltb_spec (v + n) 0) |
                                destruct (Z.leb_spec n v)];
      destruct (Z.ltb_spec st0 0); lia. }
  set (f := match slice_start s with
            | Some v =>
                if (v <? 0)%Z
                then (if (v + n <? 0)%Z then lower else (v + n)%Z)
                else if (n <=? v)%Z then upper else v
            | None => if (st0 <? 0)%Z then upper else lower
            end).
  set (l := match slice_stop s with
            | Some v =>
                if (v <? 0)%Z
                then (if (v + n <? 0)%Z then lower else (v + n)%Z)
                else if (n <=? v)%Z then upper else v
            | None => if (st0 <? 0)%Z then lower else upper
            end).
  assert (Hf : (lower <= f <= upper)%Z).
  { unfold f. destruct (slice_start s); [apply Hclamp |].
    destruct (st0 <? 0)%Z; lia. }
  assert (Hl : (lower <= l <= upper)%Z).
  { unfold l. destruct (slice_stop s); [apply Hclamp |].
    destruct (st0 <? 0)%Z; lia. }
  intros H k Hk. injection H as <- <- <-.
  unfold lower, upper in Hf, Hl.
  destruct (Z.ltb_spec st0 0) as [Hneg | Hpos].
  - destruct (Z.ltb_spec l f) as [Hlf | Hlf]; [| simpl in Hk; lia].
    assert (Hq : (Z.of_nat k <= (f - l - 1) / - st0)%Z).
    { assert (0 <= (f - l - 1) / - st0)%Z
        by (apply Z.div_pos; lia).
      lia. }
    assert (Hm : (- st0 * ((f - l - 1) / - st0) <= f - l - 1)%Z)
      by (apply Z.mul_div_le; lia).
    nia.
  - destruct (Z.ltb_spec f l) as [Hfl | Hfl]; [| simpl in Hk; lia].
    assert (Hq : (Z.of_nat k <= (l - f - 1) / st0)%Z).
    { assert (0 <= (l - f - 1) / st0)%Z
        by (apply Z.div_pos; lia).
      lia. }
    assert (Hm : (st0 * ((l - f - 1) / st0) <= l - f - 1)%Z)
      by (apply Z.mul_div_le; lia).
    nia.
Qed.

Lemma flat_map_singletons_length {A B : Type} (f : A -> list B)
  (l : list A) :
  (forall x, In x l -> length (f x) = 1) ->
  length (flat_map f l) = length l.
Proof.
  induction l as [| a l IH]; intros H; simpl; [reflexivity |].
  rewrite length_app, (H a (or_introl eq_refl)), IH; [reflexivity |].
  intros x Hx. apply H. now right.
Qed.

Lemma py_getslice_length {A : Type} (l r : list A) (s : slice)
  (first st : Z) (count : nat) :
  slice_indices s (length l) = Ok (first, st, count) ->
  py_getslice l s = Ok r -> length r = count.
Proof.
  intros Hs. unfold py_getslice. rewrite Hs. cbn [bind].
  intros H. injection H as <-.
  rewrite flat_map_singletons_length; [apply length_seq |].
  intros k Hk. apply in_seq in Hk.
  pose proof (slice_indices_in_range s _ _ _ _ Hs k ltac:(lia)) as R.
  destruct (nth_error l (Z.to_nat (first + Z.of_nat k * st))) eqn:E;
    [reflexivity | apply nth_error_None in E; lia].
Qed.

Section Slicing.
Context {M : DimModule} {T : Type}.

(** X21: [A[s]] for a slice [s]: the first axis is cut to the positions the
    slice selects and its dimension to the sliced coordinates, every other
    dimension and axis is kept; where the dimension had one coordinate per
    position, so has the sliced one. *)
Theorem getitem_slice_first_axis (A : hfarray T) (s : slice) (d d' : Dim)
  (ds : list Dim) (m : nat) (sh : list nat) (first st : Z) (count : nat) :
  rank_ok A ->
  dims A = d :: ds ->
  hf_shape A = m :: sh ->
  slice_indices s m = Ok (first, st, count) ->
  dim_getslice d s = Ok d' ->
  exists r,
    hfarray_getitem A (IxOne (IxSlice s)) = Ok (LabeledArray r) /\
    dims r = d' :: ds /\
    hf_shape r = count :: sh /\
    (forall j idx, length idx = length sh ->
       item (buf r) (j :: idx)
       = item (buf A) (Z.to_nat (first + Z.of_nat j * st) :: idx)) /\
    (length (data d) = m -> length (data d') = count).
Proof.
  intros Hr Hd Hs Hsl Hdim.
  assert (Hn : hf_ndim A = S (length sh)).
  { unfold hf_ndim, ndim. fold (hf_shape A). now rewrite Hs. }
  assert (Hl : length ds = length sh).
  { unfold rank_ok in Hr. rewrite Hd, Hn in Hr. simpl in Hr. lia. }
  exists (mk_hfarray
            (mk_ndarray (count :: sh)
               (fun idx => item (buf A)
                             (plan_source (RangeOf first st count
                                           :: map (RangeOf 0 1) sh) idx)))
            (d' :: ds)).
  split; [| split; [reflexivity | split; [reflexivity | split]]].
  2:{ intros j idx Hidx. cbn [buf item plan_source hd tl].
      now rewrite plan_source_full. }
  2:{ intros Hdata. unfold dim_getslice in Hdim.
      inv_bind Hdim as dt Hdt. injection Hdim as <-. cbn [data].
      rewrite <- Hdata in Hsl.
      exact (py_getslice_length _ _ _ _ _ _ Hsl Hdt). }
  assert (Hc : length (filter consumes_axis
                         (IxSlice s :: repeat (IxSlice full_slice)
                                              (length sh)))
               = S (length sh)).
  { cbn [filter consumes_axis length]. f_equal.
    clear. induction (length sh); simpl; congruence. }
  assert (He : filter is_ellipsis
                 (IxSlice s :: repeat (IxSlice full_slice) (length sh))
               = []).
  { cbn [filter is_ellipsis]. clear.
    induction (length sh); simpl; congruence. }
  assert (Hx : existsb is_ellipsis
                 (IxSlice s :: repeat (IxSlice full_slice) (length sh))
               = false).
  { cbn [existsb is_ellipsis orb]. clear.
    induction (length sh); simpl; congruence. }
  unfold hfarray_getitem.
  cbn [forallb is_int is_ellipsis orb andb filter length Nat.eqb Nat.ltb
       Nat.leb bind app].
  rewrite Hn. cbn [length Nat.sub repeat app].
  rewrite Nat.sub_0_r, Hd. cbn [getitem_dims]. rewrite Hdim. cbn [bind].
  rewrite <- Hl at 1. rewrite getitem_dims_full. cbn [bind].
  unfold np_getitem, yields_scalar.
  rewrite Hc, He, Hx. change (ndim (buf A)) with (hf_ndim A). rewrite Hn.
  cbn [length]. rewrite Nat.ltb_irrefl, Nat.sub_diag.
  change (1 <? 0) with false. cbv iota.
  cbn [repeat]. rewrite app_nil_r.
  cbn [forallb is_int andb].
  fold (hf_shape A). rewrite Hs. cbn [build_plan]. rewrite Hsl.
  cbn [bind]. rewrite build_plan_full. cbn [bind plan_shape].
  rewrite plan_shape_full.
  rewrite hfarray_new_explicit; [reflexivity |].
  unfold ndim. cbn [buffer_of array_finalize buf shape length].
  now rewrite Hl.
Qed.
End Slicing.

Lemma getitem_slice_first_axis_witness :
  exists r,
    hfarray_getitem (M := spec_dim_module) ex_A
                    (IxOne (IxSlice (mkSlice None None (Some (-2)%Z))))
    = Ok (LabeledArray r) /\
    hf_shape r = [2; 2].
Proof.
  destruct (getitem_slice_first_axis (M := spec_dim_module) ex_A
              (mkSlice None None (Some (-2)%Z)) freq3
              (mkDim DimSweep "freq" [3; 1]%Z None) [rep2] 3 [2]
              2%Z (-2)%Z 2)
    as (r & E & _ & S & _).
  - reflexivity.
  - reflexivity.
  - reflexivity.
  - reflexivity.
  - reflexivity.
  - exists r. split; [exact E | exact S].
Defined.

(* ================================================================== *)
(** * [add_dim] *)

Lemma build_plan_newaxis (s1 s2 : list nat) :
  build_plan (repeat (IxSlice full_slice) (length s1)
              ++ IxNewaxis :: repeat (IxSlice full_slice) (length s2))
             (s1 ++ s2)
  = Ok (map (RangeOf 0 1) s1 ++ NewAxis :: map (RangeOf 0 1) s2).
Proof.
  induction s1 as [| m s1 IH]; cbn [length repeat app build_plan map].
  - now rewrite build_plan_full.
  - rewrite slice_indices_full. cbn [bind]. now rewrite IH.
Qed.

Lemma plan_shape_newaxis (s1 s2 : list nat) :
  plan_shape (map (RangeOf 0 1) s1 ++ NewAxis :: map (RangeOf 0 1) s2)
  = s1 ++ 1 :: s2.
Proof.
  induction s1 as [| m s1 IH]; cbn [map app plan_shape].
  - now rewrite plan_shape_full.
  - now rewrite IH.
Qed.

Lemma plan_source_newaxis (s1 s2 i1 i2 : list nat) (j : nat) :
  length i1 = length s1 -> length i2 = length s2 ->
  plan_source (map (RangeOf 0 1) s1 ++ NewAxis :: map (RangeOf 0 1) s2)
              (i1 ++ j :: i2)
  = i1 ++ i2.
Proof.
  revert i1. induction s1 as [| m s1 IH]; intros [| a i1] H1 H2;
    try discriminate; cbn [map app plan_source hd tl].
  - now apply plan_source_full.
  - rewrite IH by (simpl in H1; lia || exact H2). f_equal. lia.
Qed.

Lemma split_at_nth {A : Type} (l : list A) (k : nat) (d : A) :
  k < length l -> l = firstn k l ++ nth k l d :: skipn (S k) l.
Proof.
  revert k. induction l as [| a l IH]; intros [| k] H; simpl in *;
    try lia; [reflexivity |].
  f_equal. apply IH. lia.
Qed.

Lemma map_at_position {A : Type} (g : A -> A) (l1 l2 : list A) (x : A)
  (s : nat) :
  map (fun jn => if fst jn =? s + length l1 then g (snd jn) else snd jn)
      (combine (seq s (length (l1 ++ x :: l2))) (l1 ++ x :: l2))
  = l1 ++ g x :: l2.
Proof.
  revert s. induction l1 as [| a l1 IH]; intros s;
    cbn [length app seq combine map fst snd].
  - rewrite Nat.add_0_r, Nat.eqb_refl. f_equal.
    transitivity (map snd (combine (seq (S s) (length l2)) l2));
      [| apply map_snd_combine_eq; now rewrite length_seq].
    apply map_ext_in. intros [j y] Hj. cbn [fst snd].
    apply in_combine_l, in_seq in Hj.
    destruct (Nat.eqb_spec j s); [lia | reflexivity].
  - destruct (Nat.eqb_spec s (s + S (length l1))); [lia |]. f_equal.
    rewrite <- (IH (S s)). apply map_ext. intros [j y]. cbn [fst snd].
    now replace (S s + length l1) with (s + S (length l1)) by lia.
Qed.

Section AddDim.
Context {M : DimModule} {T : Type}.

(** X22: [A.add_dim(dim, axis)] for a dimension that [A] does not have and a
    non-negative [axis]: the dimension is inserted at position
    [min(axis, ndim)], the new axis has one entry per coordinate of [dim]
    (one entry if [dim] has no coordinate), and the element at an index is
    the element of [A] at that index without its entry for the new
    axis. *)
Theorem add_dim_inserts (A : hfarray T) (dim : Dim) (axis : Z) :
  rank_ok A ->
  Dims_contains (dims A) dim = false ->
  (0 <= axis)%Z ->
  let k := Nat.min (Z.to_nat axis) (hf_ndim A) in
  let len := if 1 <? length (data dim) then length (data dim) else 1 in
  exists r,
    hfarray_add_dim A (Some dim) axis = Ok r /\
    dims r = firstn k (dims A) ++ dim :: skipn k (dims A) /\
    hf_shape r = firstn k (hf_shape A) ++ len :: skipn k (hf_shape A) /\
    forall idx, length idx = S (hf_ndim A) ->
      item (buf r) idx = item (buf A) (firstn k idx ++ skipn (S k) idx).
Proof.
  intros Hr Hc Hax k len. set (n := hf_ndim A) in *.
  assert (Hrn : length (dims A) = n) by exact Hr.
  assert (Hk : k <= n) by (unfold k; lia).
  assert (Ek : Z.to_nat (Z.min axis (Z.of_nat n)) = k) by (unfold k; lia).
  set (s1 := firstn k (hf_shape A)). set (s2 := skipn k (hf_shape A)).
  assert (Hsh : hf_shape A = s1 ++ s2)
    by (symmetry; apply firstn_skipn).
  assert (Hl1 : length s1 = k).
  { unfold s1. rewrite length_firstn.
    change (length (hf_shape A)) with n. lia. }
  assert (Hl2 : length s2 = n - k).
  { unfold s2. rewrite length_skipn. reflexivity. }
  set (ix := repeat (IxSlice full_slice) k ++ [IxNewaxis]).
  assert (Hcons : length (filter consumes_axis ix) = k).
  { unfold ix. clear. induction k; simpl; congruence. }
  assert (Hell : filter is_ellipsis ix = []).
  { unfold ix. clear. induction k; simpl; congruence. }
  assert (Hex : existsb is_ellipsis ix = false).
  { unfold ix. clear. induction k; simpl; congruence. }
  set (plan := map (RangeOf 0 1) s1 ++ NewAxis :: map (RangeOf 0 1) s2).
  set (out := mk_ndarray (s1 ++ 1 :: s2)
                         (fun idx => item (buf A) (plan_source plan idx))).
  assert (Eout : np_getitem (buf A) ix = Ok out).
  { unfold np_getitem. rewrite Hcons, Hell, Hex.
    change (ndim (buf A)) with n. cbn [length].
    change (1 <? 0) with false. cbv iota.
    destruct (Nat.ltb_spec n k); [lia |].
    unfold ix. rewrite <- app_assoc. cbn [app].
    rewrite <- Hl1 at 1. rewrite <- Hl2.
    fold (hf_shape A). rewrite Hsh, build_plan_newaxis. cbn [bind].
    rewrite plan_shape_newaxis. reflexivity. }
  assert (Eins : py_insert (dims A) (Z.min axis (Z.of_nat n)) dim
                 = firstn k (dims A) ++ dim :: skipn k (dims A)).
  { unfold py_insert. cbv zeta. rewrite Hrn.
    destruct (Z.ltb_spec (Z.min axis (Z.of_nat n)) 0); [lia |].
    rewrite (Z.min_l (Z.min axis (Z.of_nat n))) by lia. now rewrite Ek. }
  assert (Hlen : length (firstn k (dims A) ++ dim :: skipn k (dims A))
                 = S n).
  { rewrite length_app, length_firstn. cbn [length].
    rewrite length_skipn, Hrn. lia. }
  assert (Hsrc : forall idx j, length idx = S n ->
             plan_source plan (firstn k idx ++ j :: skipn (S k) idx)
             = firstn k idx ++ skipn (S k) idx).
  { intros idx j Hi. unfold plan. apply plan_source_newaxis.
    - rewrite length_firstn, Hl1. lia.
    - rewrite length_skipn, Hl2. lia. }
  unfold hfarray_add_dim. rewrite Hc. fold n. rewrite Ek. fold ix.
  rewrite Eout. cbn [bind]. rewrite Eins.
  destruct (1 <? length (data dim)) eqn:E1.
  - assert (En : normalize_axis (ndim out) (Z.min axis (Z.of_nat n))
                 = Ok k).
    { unfold normalize_axis, ndim. cbn [out shape].
      rewrite length_app. cbn [length]. rewrite Hl1, Hl2.
      destruct (Z.ltb_spec (Z.min axis (Z.of_nat n))
                           (- Z.of_nat (k + S (n - k)))); [lia |].
      destruct (Z.leb_spec (Z.of_nat (k + S (n - k)))
                           (Z.min axis (Z.of_nat n))); [lia |].
      cbn [orb].
      destruct (Z.ltb_spec (Z.min axis (Z.of_nat n)) 0); [lia |].
      now rewrite Ek. }
    unfold np_repeat. rewrite En. cbn [bind].
    rewrite hfarray_new_explicit.
    + eexists. split; [reflexivity |].
      cbn [dims hf_shape buf buffer_of shape item out].
      split; [reflexivity |]. split.
      * pose proof (map_at_position (fun x => x * length (data dim))
                                    s1 s2 1 0) as P.
        cbn [Nat.add] in P. rewrite Hl1 in P.
        unfold enumerate. rewrite P.
        unfold len. now rewrite Nat.mul_1_l.
      * intros idx Hi.
        assert (Hf : length (firstn k idx) = k)
          by (rewrite length_firstn; lia).
        pose proof (map_at_position (fun x => x / length (data dim))
                                    (firstn k idx) (skipn (S k) idx)
                                    (nth k idx 0) 0) as P.
        cbn [Nat.add] in P. rewrite Hf in P.
        rewrite <- (split_at_nth idx k 0) in P by lia.
        unfold enumerate. rewrite P. now rewrite Hsrc.
    + unfold ndim. cbn [buffer_of shape]. rewrite length_map.
      rewrite enumerate_length. cbn [out shape].
      rewrite Hlen, length_app. cbn [length]. rewrite Hl1, Hl2. lia.
  - cbn [bind]. rewrite hfarray_new_explicit.
    + eexists. split; [reflexivity |].
      cbn [dims hf_shape buf buffer_of shape item out].
      split; [reflexivity |]. split; [reflexivity |].
      intros idx Hi.
      rewrite (split_at_nth idx k 0) at 1 by lia.
      now rewrite Hsrc.
    + unfold ndim. cbn [buffer_of out shape].
      rewrite Hlen, length_app. cbn [length]. rewrite Hl1, Hl2. lia.
Qed.
End AddDim.

Lemma add_dim_inserts_witness :
  exists r,
    hfarray_add_dim (M := spec_dim_module) ex_S (Some rep2) 5 = Ok r /\
    dims r = [freq3; rep2] /\ hf_shape r = [3; 2].
Proof.
  destruct (add_dim_inserts (M := spec_dim_module) ex_S rep2 5%Z)
    as (r & E & D & S & _).
  - reflexivity.
  - reflexivity.
  - lia.
  - exists r. split; [exact E |]. split; [exact D | exact S].
Defined.

(* ================================================================== *)
(** * Alignment of several operands *)

Lemma same_dimension_refl (d : Dim) : same_dimension d d = true.
Proof. apply same_dimension_iff. now split. Qed.

Lemma no_duplicates_unique {M : DimModule} (ds : list Dim) :
  no_duplicates ds ->
  NoDup ds /\
  forall x y, In x ds -> In y ds -> same_dimension x y = true -> x = y.
Proof.
  intros H. split.
  - apply NoDup_nth_error. intros i j Hi E.
    destruct (nth_error ds i) as [di |] eqn:Ei;
      [| apply nth_error_None in Ei; lia].
    symmetry in E. exact (H i j di di Ei E (same_dimension_refl di)).
  - intros x y Hx Hy E.
    apply In_nth_error in Hx as [i Hi]. apply In_nth_error in Hy as [j Hj].
    pose proof (H i j x y Hi Hj E) as ->. congruence.
Qed.

Lemma unique_no_duplicates {M : DimModule} (ds : list Dim) :
  NoDup ds ->
  (forall x y, In x ds -> In y ds -> same_dimension x y = true -> x = y) ->
  no_duplicates ds.
Proof.
  intros Hnd Hu i j di dj Hi Hj E.
  assert (di = dj).
  { apply Hu; [eapply nth_error_In; eauto | eapply nth_error_In; eauto |
               exact E]. }
  subst dj. apply (proj1 (NoDup_nth_error ds) Hnd).
  - apply nth_error_Some. congruence.
  - congruence.
Qed.

Lemma insert_by_key_Permutation {A : Type} (key : A -> Z) (x : A)
  (l : list A) :
  Permutation (insert_by_key key x l) (x :: l).
Proof.
  induction l as [| y l IH]; simpl; [reflexivity |].
  destruct (key x <=? key y)%Z; [reflexivity |].
  rewrite IH. apply perm_swap.
Qed.

Lemma sort_by_key_Permutation {A : Type} (key : A -> Z) (l : list A) :
  Permutation (sort_by_key key l) l.
Proof.
  induction l as [| x l IH]; simpl; [reflexivity |].
  rewrite insert_by_key_Permutation. now constructor.
Qed.

Lemma mapM_Forall2 {A B : Type} (f : A -> result B) (P : A -> B -> Prop)
  (l : list A) :
  (forall x, In x l -> exists y, f x = Ok y /\ P x y) ->
  exists ys, mapM f l = Ok ys /\ Forall2 P l ys.
Proof.
  induction l as [| a l IH]; intros H.
  - exists []. split; [reflexivity | constructor].
  - destruct (H a (or_introl eq_refl)) as (y & Ey & Py).
    destruct IH as (ys & Eys & Pys); [intros x Hx; apply H; now right |].
    exists (y :: ys). cbn [mapM]. rewrite Ey. cbn [bind]. rewrite Eys.
    split; [reflexivity | now constructor].
Qed.

(** What the appending loop of [dims_union] collects. *)
Lemma fold_append_new_facts (later acc : list Dim) :
  let r := fold_left append_new later acc in
  incl r (acc ++ later) /\
  incl acc r /\
  (forall d, In d later -> exists t, In t r /\ same_dimension t d = true) /\
  (NoDup acc ->
   (forall x y, In x acc -> In y acc -> same_dimension x y = true -> x = y) ->
   NoDup r /\
   forall x y, In x r -> In y r -> same_dimension x y = true -> x = y).
Proof.
  revert acc. induction later as [| d later IH]; intros acc; cbn zeta.
  - cbn [fold_left]. rewrite app_nil_r.
    repeat split; auto using incl_refl; try tauto. intros ? [].
  - cbn [fold_left].
    destruct (IH (append_new acc d)) as (I1 & I2 & I3 & I4).
    assert (Hacc : incl acc (append_new acc d)).
    { unfold append_new. destruct (existsb (same_dimension d) acc);
        [apply incl_refl | apply incl_appl, incl_refl]. }
    assert (Hnew : incl (append_new acc d) (acc ++ [d])).
    { unfold append_new. destruct (existsb (same_dimension d) acc);
        [apply incl_appl, incl_refl | apply incl_refl]. }
    split; [| split; [| split]].
    + intros y Hy. apply I1, in_app_or in Hy as [Hy | Hy].
      * apply Hnew, in_app_or in Hy as [Hy | [<- | []]];
          apply in_or_app; [now left | right; now left].
      * apply in_or_app. right. now right.
    + intros y Hy. apply I2, Hacc, Hy.
    + intros e [<- | He]; [| now apply I3].
      destruct (existsb (same_dimension d) acc) eqn:E.
      * apply existsb_exists in E as (t & Ht & Et).
        exists t. split; [apply I2, Hacc, Ht | now apply same_dimension_sym].
      * exists d. split; [| apply same_dimension_refl].
        apply I2. unfold append_new. rewrite E.
        apply in_or_app. right. now left.
    + intros Hnd Hu. apply I4.
      * unfold append_new.
        destruct (existsb (same_dimension d) acc) eqn:E; [exact Hnd |].
        apply NoDup_app; [exact Hnd | repeat constructor; intros [] |].
        intros y Hy [Hyd | []]. subst y.
        assert (F : same_dimension d d = false).
        { destruct (same_dimension d d) eqn:F; [| reflexivity].
          rewrite <- E. symmetry. apply existsb_exists. now exists d. }
        rewrite same_dimension_refl in F. discriminate.
      * unfold append_new.
        destruct (existsb (same_dimension d) acc) eqn:E; [exact Hu |].
        assert (Hd : forall t, In t acc -> same_dimension d t = false).
        { intros t Ht. destruct (same_dimension d t) eqn:F; [| reflexivity].
          rewrite <- E. symmetry. apply existsb_exists. now exists t. }
        intros x y Hx Hy Exy.
        apply in_app_or in Hx as [Hx | [<- | []]];
          apply in_app_or in Hy as [Hy | [<- | []]]; auto.
        -- apply same_dimension_sym in Exy. rewrite (Hd x Hx) in Exy.
           discriminate.
        -- rewrite (Hd y Hy) in Exy. discriminate.
Qed.

Section AlignmentOfOperands.
Context {M : DimModule} {T : Type}.

(** X23: [make_same_dims_list] never fails on operands that keep the rank
    invariant and hold no dimension twice (the classes involved
    unrelated): it returns one array per operand, in their order, and
    every one of them carries [dims_union] of the operands as its
    dimension collection, with one axis per dimension. *)
Theorem make_same_dims_list_aligns (a0 : hfarray T)
  (rest : list (hfarray T)) :
  plain_variants (flat_map (@dims T) (a0 :: rest)) ->
  (forall x, In x (a0 :: rest) -> rank_ok x /\ no_duplicates (dims x)) ->
  exists U rs,
    dims_union (a0 :: rest) = Ok U /\
    make_same_dims_list (a0 :: rest) = Ok rs /\
    Forall2 (fun x r => change_shape x U = Ok r /\ dims r = U /\ rank_ok r)
            (a0 :: rest) rs.
Proof.
  intros Hp Hops.
  set (later := flat_map (@dims T) rest).
  set (U := sort_by_key sortprio (fold_left append_new later (dims a0))).
  assert (EU : dims_union (a0 :: rest) = Ok U).
  { unfold dims_union, U. do 2 f_equal.
    apply (union_loops_collected (dims a0 ++ later)); [exact Hp | |].
    - intros y Hy. apply in_or_app. now left.
    - intros y Hy. apply in_or_app. now right. }
  destruct (fold_append_new_facts later (dims a0)) as (I1 & I2 & I3 & I4).
  pose proof (sort_by_key_Permutation sortprio
                (fold_left append_new later (dims a0))) as HP.
  fold U in HP.
  destruct (Hops a0 (or_introl eq_refl)) as [_ Hu0].
  destruct (no_duplicates_unique _ Hu0) as [Hnd0 Hun0].
  destruct (I4 Hnd0 Hun0) as [Hnd Hun].
  assert (HUu : no_duplicates U).
  { apply unique_no_duplicates.
    - apply (Permutation_NoDup (Permutation_sym HP) Hnd).
    - intros x y Hx Hy. apply Hun; eapply Permutation_in; eauto. }
  assert (HUin : incl U (dims a0 ++ later)).
  { intros y Hy. apply I1. eapply Permutation_in; eauto. }
  assert (Hdx : forall x, In x (a0 :: rest) ->
                          incl (dims x) (dims a0 ++ later)).
  { intros x [<- | Hx] y Hy; apply in_or_app; [now left | right].
    unfold later. apply in_flat_map. now exists x. }
  assert (Hsup : forall x, In x (a0 :: rest) -> dims_superset U (dims x)).
  { intros x Hx d Hd.
    assert (Ht : exists t, In t (fold_left append_new later (dims a0)) /\
                           same_dimension t d = true).
    { destruct Hx as [<- | Hx].
      - exists d. split; [now apply I2 | apply same_dimension_refl].
      - apply I3. unfold later. apply in_flat_map. now exists x. }
    destruct Ht as (t & Ht & Et). exists t. split; [| exact Et].
    eapply Permutation_in; [apply Permutation_sym, HP | exact Ht]. }
  destruct (mapM_Forall2 (fun x => change_shape x U)
              (fun x r => change_shape x U = Ok r /\ dims r = U /\ rank_ok r)
              (a0 :: rest)) as (rs & Ers & Hrs).
  { intros x Hx. destruct (Hops x Hx) as [Hrx Hux].
    assert (Hpx : plain_variants (dims x ++ U)).
    { intros d1 d2 H1 H2. apply Hp; cbn [flat_map]; fold later.
      - apply in_app_or in H1 as [H1 | H1];
          [now apply (Hdx x Hx) | now apply HUin].
      - apply in_app_or in H2 as [H2 | H2];
          [now apply (Hdx x Hx) | now apply HUin]. }
    pose proof (change_shape_result x U Hrx Hpx Hux HUu (Hsup x Hx)) as E.
    eexists. split; [exact E |]. split; [exact E |].
    split; [reflexivity |]. exact (change_shape_rank _ _ _ E). }
  exists U, rs. split; [exact EU |]. split; [| exact Hrs].
  unfold make_same_dims_list. rewrite EU. exact Ers.
Qed.

End AlignmentOfOperands.

Lemma make_same_dims_list_aligns_witness :
  exists U rs,
    dims_union (M := spec_dim_module) [ex_R; ex_F] = Ok U /\
    make_same_dims_list (M := spec_dim_module) [ex_R; ex_F] = Ok rs /\
    Forall2 (fun x r => change_shape (M := spec_dim_module) x U = Ok r /\
                        dims r = U /\ rank_ok r)
            [ex_R; ex_F] rs.
Proof.
  apply (make_same_dims_list_aligns (M := spec_dim_module) ex_R [ex_F]).
  - intros d1 d2 H1 H2. simpl in H1, H2.
    destruct H1 as [<- | [<- | []]]; destruct H2 as [<- | [<- | []]];
      simpl; intros E; solve [reflexivity | discriminate E].
  - intros x [<- | [<- | []]]; (split; [reflexivity |]);
      intros [| i] [| j] di dj Hi Hj E; simpl in Hi, Hj;
        try reflexivity;
        solve [ discriminate Hi | discriminate Hj
              | destruct i; discriminate Hi | destruct j; discriminate Hj ].
Defined.


(* ================================================================== *)
(** * [reorder_dimensions] *)

Lemma filter_not_in_cons (j : nat) (js rem : list nat) :
  filter (fun k => negb (existsb (Nat.eqb k) js))
         (filter (fun k => negb (k =? j)) rem)
  = filter (fun k => negb (existsb (Nat.eqb k) (j :: js))) rem.
Proof.
  induction rem as [| k rem IH]; [reflexivity |].
  cbn [filter existsb]. destruct (k =? j); cbn [negb orb filter];
    now rewrite IH.
Qed.

Section ReorderDimensions.
Context {M : DimModule} {T : Type}.
Variable A : hfarray T.
Hypothesis A_rank : rank_ok A.
Hypothesis A_objects : distinct_objects (dims A).

Lemma pick_cons_at (j : nat) (js : list nat) (dj : Dim) :
  nth_error (dims A) j = Some dj ->
  pick (dims A) (j :: js) = dj :: pick (dims A) js.
Proof. intros H. unfold pick. cbn [flat_map]. now rewrite H. Qed.

Lemma tuple_index_pick_remove (j : nat) (dj : Dim) (rem : list nat) :
  nth_error (dims A) j = Some dj ->
  NoDup rem -> (forall k, In k rem -> k < length (dims A)) -> In j rem ->
  exists p,
    tuple_index (pick (dims A) rem) dj = Ok p /\
    remove_at p (pick (dims A) rem)
    = pick (dims A) (filter (fun k => negb (k =? j)) rem).
Proof.
  intros Hj. induction rem as [| k rem IH]; intros Hnd Hlt Hin;
    [contradiction |].
  inversion Hnd as [| ? ? Hk Hnd']; subst.
  destruct (nth_error (dims A) k) as [dk |] eqn:Ek.
  2:{ apply nth_error_None in Ek.
      specialize (Hlt k (or_introl eq_refl)). lia. }
  rewrite (pick_cons_at k rem dk Ek). cbn [filter].
  destruct (Nat.eqb_spec k j) as [-> | Hne].
  - exists 0. assert (dk = dj) by congruence. subst dk. split.
    + unfold tuple_index. cbn [find_index]. now rewrite dim_eqb_refl.
    + cbn [remove_at negb]. f_equal. symmetry. apply filter_all_true.
      intros x Hx. destruct (Nat.eqb_spec x j); [now subst | reflexivity].
  - destruct IH as (p & Ep & Er); auto.
    { intros x Hx. apply Hlt. now right. }
    { destruct Hin as [-> | Hin]; [contradiction | exact Hin]. }
    exists (S p). split.
    + unfold tuple_index in *. cbn [find_index].
      destruct (dim_eqb dk dj) eqn:E.
      * elim Hne. exact (A_objects k j dk dj Ek Hj E).
      * destruct (find_index (fun x => dim_eqb x dj) (pick (dims A) rem));
          [| discriminate].
        injection Ep as ->. reflexivity.
    + cbn [remove_at negb]. rewrite (pick_cons_at k _ dk Ek). now rewrite Er.
Qed.

Lemma tuple_index_at (j : nat) (dj : Dim) :
  nth_error (dims A) j = Some dj -> tuple_index (dims A) dj = Ok j.
Proof.
  intros Hj. unfold tuple_index.
  rewrite (find_index_first (fun x => dim_eqb x dj) (dims A) j dj Hj).
  - reflexivity.
  - apply dim_eqb_refl.
  - intros i di Hi Hdi. destruct (dim_eqb di dj) eqn:E; [| reflexivity].
    pose proof (A_objects i j di dj Hdi Hj E). lia.
Qed.

Lemma move_to_front_positions (js : list nat) :
  forall rem acc,
    NoDup rem -> (forall k, In k rem -> k < length (dims A)) ->
    NoDup js -> incl js rem ->
    move_to_front (dims A) (pick (dims A) js) (pick (dims A) rem) acc
    = Ok (pick (dims A)
               (filter (fun k => negb (existsb (Nat.eqb k) js)) rem),
          acc ++ js).
Proof.
  induction js as [| j js IH]; intros rem acc Hnd Hlt Hjs Hincl.
  - cbn [pick flat_map move_to_front existsb negb].
    rewrite filter_all_true by reflexivity. now rewrite app_nil_r.
  - inversion Hjs as [| ? ? Hj Hjs']; subst.
    assert (Hjr : In j rem) by (apply Hincl; now left).
    destruct (nth_error (dims A) j) as [dj |] eqn:Ej.
    2:{ apply nth_error_None in Ej. specialize (Hlt j Hjr). lia. }
    rewrite (pick_cons_at j js dj Ej). cbn [move_to_front].
    rewrite (tuple_index_at j dj Ej). cbn [bind].
    destruct (tuple_index_pick_remove j dj rem Ej Hnd Hlt Hjr)
      as (p & Ep & Er).
    rewrite Ep. cbn [bind]. rewrite Er.
    rewrite IH.
    + rewrite filter_not_in_cons, <- app_assoc. reflexivity.
    + now apply NoDup_filter.
    + intros k Hk. apply filter_In in Hk as [Hk _]. now apply Hlt.
    + exact Hjs'.
    + intros k Hk. apply filter_In. split; [apply Hincl; now right |].
      destruct (Nat.eqb_spec k j); [now subst | reflexivity].
Qed.

Lemma mapM_tuple_index_pick (l : list nat) :
  (forall k, In k l -> k < length (dims A)) ->
  mapM (tuple_index (dims A)) (pick (dims A) l) = Ok l.
Proof.
  induction l as [| k l IH]; intros Hlt; [reflexivity |].
  destruct (nth_error (dims A) k) as [dk |] eqn:Ek.
  2:{ apply nth_error_None in Ek.
      specialize (Hlt k (or_introl eq_refl)). lia. }
  rewrite (pick_cons_at k l dk Ek). cbn [mapM].
  rewrite (tuple_index_at k dk Ek). cbn [bind].
  rewrite IH; [reflexivity |]. intros x Hx. apply Hlt. now right.
Qed.

(** The array [reorder_dimensions] returns for the dimensions of [A] at
    the pairwise different positions [js]. *)
Lemma reorder_positions_result (js : list nat) :
  NoDup js -> (forall j, In j js -> j < hf_ndim A) ->
  let p := js ++ filter (fun k => negb (existsb (Nat.eqb k) js))
                        (seq 0 (hf_ndim A)) in
  axis_permutation (hf_ndim A) p /\
  hfarray_reorder_dimensions A (pick (dims A) js)
  = Ok (mk_hfarray
          (mk_ndarray (map (fun k => nth k (hf_shape A) 0) p)
                      (fun idx => item (buf A) (unpermute p idx)))
          (pick (dims A) p)).
Proof.
  intros Hnd Hlt p. set (n := hf_ndim A) in *.
  set (rem := filter (fun k => negb (existsb (Nat.eqb k) js)) (seq 0 n)).
  assert (Hn : length (dims A) = n) by exact A_rank.
  assert (Hp : axis_permutation n p).
  { repeat split.
    - unfold p. rewrite length_app. fold rem. unfold rem.
      rewrite (complement_count n js Hnd Hlt).
      assert (length js <= n).
      { pose proof (@NoDup_incl_length nat js (seq 0 n) Hnd) as L.
        rewrite length_seq in L. apply L.
        intros k Hk. apply in_seq. specialize (Hlt k Hk). lia. }
      lia.
    - unfold p. apply NoDup_app; [exact Hnd | |].
      + apply NoDup_filter, seq_NoDup.
      + intros k Hk Hf. apply filter_In in Hf as [_ Hf].
        rewrite (existsb_eqb_true k js Hk) in Hf. discriminate.
    - intros k Hk. unfold p in Hk. apply in_app_or in Hk as [Hk | Hk];
        [now apply Hlt |].
      apply filter_In in Hk as [Hk _]. apply in_seq in Hk. lia. }
  split; [exact Hp |].
  unfold hfarray_reorder_dimensions.
  pose proof (move_to_front_positions js (seq 0 (length (dims A))) []) as E.
  rewrite pick_seq_all in E. rewrite E; clear E.
  - cbn [bind app]. rewrite Hn. fold rem.
    rewrite mapM_tuple_index_pick.
    + cbn [bind]. fold p.
      apply (hfarray_transpose_permutation A p A_rank Hp).
    + intros k Hk. apply filter_In in Hk as [Hk _]. apply in_seq in Hk. lia.
  - apply seq_NoDup.
  - intros k Hk. apply in_seq in Hk. lia.
  - exact Hnd.
  - intros k Hk. apply in_seq. specialize (Hlt k Hk). lia.
Qed.
End ReorderDimensions.

Section ReorderDimensionsClaims.
Context {M : DimModule} {T : Type}.

(** X25: [A.reorder_dimensions( *order )] for the dimensions of [A] at pairwise
    different positions [js] (no two dimension objects of [A] comparing
    equal): the listed dimensions come first, in the order given, the
    others follow in their order in [A]; the axis lengths move with them,
    and the buffer is the one transposed by these positions. *)
Theorem reorder_dimensions_moves_front (A : hfarray T) (js : list nat) :
  rank_ok A ->
  distinct_objects (dims A) ->
  NoDup js ->
  (forall j, In j js -> j < hf_ndim A) ->
  let others := filter (fun k => negb (existsb (Nat.eqb k) js))
                       (seq 0 (hf_ndim A)) in
  exists r,
    hfarray_reorder_dimensions A (pick (dims A) js) = Ok r /\
    dims r = pick (dims A) js ++ pick (dims A) others /\
    hf_shape r = pick (hf_shape A) js ++ pick (hf_shape A) others /\
    hfarray_transpose A (map Z.of_nat (js ++ others)) = Ok r.
Proof.
  intros Hr Ho Hnd Hlt others.
  destruct (reorder_positions_result A Hr Ho js Hnd Hlt) as [Hp E].
  pose proof Hp as (_ & _ & Hplt).
  eexists. split; [exact E |]. cbn [dims hf_shape buf shape].
  split; [| split].
  - unfold pick. apply flat_map_app.
  - rewrite <- (pick_map_nth (hf_shape A) _ 0) by exact Hplt.
    unfold pick. apply flat_map_app.
  - apply (hfarray_transpose_permutation A _ Hr Hp).
Qed.

(** X26: [reorder_dimensions] raises [ValueError] as soon as its arguments name
    a dimension that no dimension of the array equals. *)
Theorem reorder_dimensions_unknown (A : hfarray T) (order : list Dim)
  (d : Dim) :
  In d order ->
  (forall x, In x (dims A) -> dim_eqb x d = false) ->
  hfarray_reorder_dimensions A order = Raise ValueError.
Proof.
  intros Hin Hno.
  assert (Hloop : forall infos acc,
             move_to_front (dims A) order infos acc = Raise ValueError).
  { induction order as [| dim rest IH]; [contradiction |].
    intros infos acc. cbn [move_to_front]. unfold tuple_index.
    destruct (find_index (fun x => dim_eqb x dim) (dims A)) as [i |] eqn:Ei;
      [| reflexivity].
    cbn [bind].
    destruct (find_index (fun x => dim_eqb x dim) infos) as [j |];
      [| reflexivity].
    cbn [bind]. destruct Hin as [-> | Hin]; [| now apply IH].
    apply find_index_Some in Ei as (x & Hx & Ex & _).
    apply nth_error_In in Hx. rewrite (Hno x Hx) in Ex. discriminate. }
  unfold hfarray_reorder_dimensions. now rewrite Hloop.
Qed.
End ReorderDimensionsClaims.

Lemma reorder_dimensions_moves_front_witness :
  exists r,
    hfarray_reorder_dimensions (M := spec_dim_module) ex_A [rep2] = Ok r /\
    dims r = [rep2; freq3] /\ hf_shape r = [2; 3].
Proof.
  destruct (reorder_dimensions_moves_front (M := spec_dim_module) ex_A [1])
    as (r & E & D & S & _).
  - reflexivity.
  - intros [| [| i]] [| [| j]] di dj Hi Hj E; simpl in Hi, Hj;
      try reflexivity;
      try (destruct i; discriminate Hi); try (destruct j; discriminate Hj);
      injection Hi as <-; injection Hj as <-; discriminate E.
  - repeat constructor. intros [].
  - intros j [<- | []]. unfold hf_ndim, ndim. simpl. lia.
  - exists r. split; [exact E |]. split; [exact D | exact S].
Defined.

Lemma reorder_dimensions_unknown_witness :
  hfarray_reorder_dimensions (M := spec_dim_module) ex_A [rep2; trial2]
  = Raise ValueError.
Proof.
  apply (reorder_dimensions_unknown (M := spec_dim_module) ex_A
           [rep2; trial2] trial2).
  - right. now left.
  - intros x [<- | [<- | []]]; reflexivity.
Defined.

(* ================================================================== *)
(** * [make_matrix] *)

Lemma py_getitem_from_end {A : Type} (l : list A) (k : nat) (d : A) :
  0 < k ->
  py_getitem l (- Z.of_nat k)
  = if length l <? k then Raise IndexError
    else Ok (nth (length l - k) l d).
Proof.
  intros Hk. unfold py_getitem. cbv zeta.
  destruct (Z.ltb_spec (- Z.of_nat k) 0); [| lia].
  destruct (Nat.ltb_spec (length l) k).
  - destruct (Z.ltb_spec (- Z.of_nat k + Z.of_nat (length l)) 0); [| lia].
    reflexivity.
  - destruct (Z.ltb_spec (- Z.of_nat k + Z.of_nat (length l)) 0); [lia |].
    destruct (Z.leb_spec (Z.of_nat (length l))
                         (- Z.of_nat k + Z.of_nat (length l))); [lia |].
    cbn [orb].
    replace (Z.to_nat (- Z.of_nat k + Z.of_nat (length l)))
      with (length l - k) by lia.
    rewrite (nth_error_nth' l d) by lia. reflexivity.
Qed.

Section MakeMatrix.
Context {M : DimModule} {T : Type}.

Lemma ismatrix_loop_matrix_tail (row col : Dim) (l : list Dim) :
  isinstance row DimMatrix_i = true ->
  isinstance col DimMatrix_i = false ->
  isinstance col DimMatrix_j = true ->
  forall i j, ismatrix_loop (l ++ [row; col]) i j = true.
Proof.
  intros Hrow Hcol Hcolj.
  induction l as [| d l IH]; intros i j.
  - cbn [app ismatrix_loop]. rewrite Hrow, Hcol, Hcolj.
    cbn [andb]. now destruct j.
  - cbn [app ismatrix_loop].
    destruct ((if isinstance d DimMatrix_i then true else i)
              && (if isinstance d DimMatrix_i then j
                  else if isinstance d DimMatrix_j then true else j));
      [reflexivity | apply IH].
Qed.

(** X27: [make_matrix(data, dims, iname, jname)], where a matrix column is not
    a kind of matrix row: a buffer of rank below two raises [IndexError];
    a buffer with two axes more than [dims] has entries gives the array
    over the same buffer whose dimensions are [dims] followed by a matrix
    row and a matrix column with one coordinate per position of the last
    two axes, and [ismatrix] holds of it; any other rank raises
    [HFArrayShapeDimsMismatchError]. *)
Theorem make_matrix_result (b : ndarray T) (ds : list Dim)
  (iname jname : string) :
  issubclass DimMatrix_j DimMatrix_i = false ->
  let row := DimMatrix_i_of iname
               (range (nth (ndim b - 2) (shape b) 0)) in
  let col := DimMatrix_j_of jname
               (range (nth (ndim b - 1) (shape b) 0)) in
  make_matrix b ds iname jname
  = (if ndim b <? 2 then Raise IndexError
     else if ndim b =? length ds + 2
          then Ok (mk_hfarray b (ds ++ [row; col]))
          else Raise HFArrayShapeDimsMismatchError) /\
  ismatrix (mk_hfarray b (ds ++ [row; col])) = true /\
  length (data row) = nth (ndim b - 2) (shape b) 0 /\
  length (data col) = nth (ndim b - 1) (shape b) 0.
Proof.
  intros Hsub row col. split; [| split; [| split]].
  - unfold make_matrix.
    change (-2)%Z with (- Z.of_nat 2)%Z. change (-1)%Z with (- Z.of_nat 1)%Z.
    rewrite (py_getitem_from_end (shape b) 2 0) by lia.
    rewrite (py_getitem_from_end (shape b) 1 0) by lia.
    fold (ndim b).
    destruct (Nat.ltb_spec (ndim b) 2) as [H2 | H2]; [reflexivity |].
    cbn [bind].
    destruct (Nat.ltb_spec (ndim b) 1) as [H1 | H1]; [lia |].
    cbn [bind]. fold row col.
    destruct (Nat.eqb_spec (ndim b) (length ds + 2)) as [E | E].
    + apply hfarray_new_explicit. cbn [buffer_of].
      rewrite length_app, E. reflexivity.
    + apply hfarray_new_mismatch. cbn [buffer_of].
      rewrite length_app. cbn [length]. lia.
  - unfold ismatrix. cbn [dims].
    apply ismatrix_loop_matrix_tail.
    + unfold isinstance. cbn [row DimMatrix_i_of dim_class].
      apply issubclass_refl.
    + unfold isinstance. cbn [col DimMatrix_j_of dim_class]. exact Hsub.
    + unfold isinstance. cbn [col DimMatrix_j_of dim_class].
      apply issubclass_refl.
  - cbn [row DimMatrix_i_of]. apply range_length.
  - cbn [col DimMatrix_j_of]. apply range_length.
Qed.
End MakeMatrix.

Lemma make_matrix_result_witness :
  make_matrix (buf ex_A) [] "i" "j"
  = Ok (mk_hfarray (buf ex_A)
          [DimMatrix_i_of "i" (range 3); DimMatrix_j_of "j" (range 2)]).
Proof.
  exact (proj1 (make_matrix_result (M := spec_dim_module) (buf ex_A) []
                  "i" "j" eq_refl)).
Defined.

(* ================================================================== *)
(** * [remove_rep] *)

Lemma combine_seq_app {A : Type} (l1 l2 : list A) (s : nat) :
  combine (seq s (length (l1 ++ l2))) (l1 ++ l2)
  = combine (seq s (length l1)) l1
    ++ combine (seq (s + length l1) (length l2)) l2.
Proof.
  revert s. induction l1 as [| a l1 IH]; intros s; cbn [length app seq combine].
  - now rewrite Nat.add_0_r.
  - rewrite IH. now replace (S s + length l1) with (s + S (length l1)) by lia.
Qed.

Lemma filter_combine_none {A : Type} (p : A -> bool) (l : list A) (s : nat) :
  Forall (fun d => p d = false) l ->
  filter (fun kd => p (snd kd)) (combine (seq s (length l)) l) = [].
Proof.
  intros H. revert s. induction H as [| d l Hd H IH]; intros s;
    cbn [length seq combine filter snd]; [reflexivity |].
  rewrite Hd. apply IH.
Qed.

Lemma filter_combine_all {A : Type} (p : A -> bool) (l : list A) (s : nat) :
  Forall (fun d => p d = true) l ->
  filter (fun kd => p (snd kd)) (combine (seq s (length l)) l)
  = combine (seq s (length l)) l.
Proof.
  intros H. revert s. induction H as [| d l Hd H IH]; intros s;
    cbn [length seq combine filter snd]; [reflexivity |].
  rewrite Hd. f_equal. apply IH.
Qed.

Lemma last_seq (s m d : nat) : last (seq s (S m)) d = s + m.
Proof.
  revert s. induction m as [| m IH]; intros s; [cbn; lia |].
  change (seq s (S (S m))) with (s :: seq (S s) (S m)).
  change (last (s :: seq (S s) (S m)) d) with (last (seq (S s) (S m)) d).
  rewrite IH. lia.
Qed.

Lemma size_of_app (a b : list nat) :
  size_of (a ++ b) = size_of a * size_of b.
Proof.
  unfold size_of. induction a as [| x a IH]; cbn [app fold_right]; [lia |].
  rewrite IH. lia.
Qed.

Lemma pick_seq_firstn {A : Type} (l : list A) (k : nat) :
  k <= length l -> pick l (seq 0 k) = firstn k l.
Proof.
  induction k as [| k IH]; intros Hk; [reflexivity |].
  rewrite seq_S. unfold pick in *. rewrite flat_map_app, IH by lia.
  cbn [Nat.add flat_map].
  destruct (nth_error l k) as [x |] eqn:E;
    [| apply nth_error_None in E; lia].
  rewrite app_nil_r. symmetry. now apply firstn_nth_error.
Qed.

Lemma mapM_getitem_segment {A B : Type} (sh : list A) (reps : list B) :
  forall s,
    s + length reps <= length sh ->
    mapM (fun kd : nat * B => py_getitem sh (Z.of_nat (fst kd)))
         (combine (seq s (length reps)) reps)
    = Ok (firstn (length reps) (skipn s sh)).
Proof.
  induction reps as [| r reps IH]; intros s Hs; [reflexivity |].
  cbn [length seq combine mapM fst]. cbn [length] in Hs.
  destruct (nth_error sh s) as [x |] eqn:E;
    [| apply nth_error_None in E; lia].
  rewrite (py_getitem_nat sh s x E). cbn [bind].
  rewrite IH by lia. cbn [bind].
  rewrite (skipn_nth_error sh s x E). reflexivity.
Qed.

Lemma firstn_length_app {A : Type} (l1 l2 : list A) :
  firstn (length l1) (l1 ++ l2) = l1.
Proof. induction l1 as [| a l1 IH]; simpl; [reflexivity | now rewrite IH]. Qed.

Lemma skipn_length_app {A : Type} (l1 l2 : list A) :
  skipn (length l1) (l1 ++ l2) = l2.
Proof. induction l1 as [| a l1 IH]; simpl; [reflexivity | exact IH]. Qed.

Section RemoveRep.
Context {M : DimModule} {T : Type}.
Variable DimRep_sized : string -> nat -> Dim.
Variable assign_shape : ndarray T -> list nat -> result (ndarray T).

(** X28: [remove_rep] on an array whose repetition dimensions stand side by
    side (no two dimension objects comparing equal), where the copy of the
    buffer is stored in row-major order so that assigning the merged shape
    is the reshape: the repetition dimensions are replaced by the one
    dimension [DimRep(newdimname, repsize)], whose axis has the product of
    their axis lengths; the dimensions and axes before and after them are
    kept, and so is the row-major order of the elements. *)
Theorem remove_rep_merges (A : hfarray T) (pre reps post : list Dim)
  (nm : string) :
  rank_ok A ->
  distinct_objects (dims A) ->
  dims A = pre ++ reps ++ post ->
  reps <> [] ->
  Forall (fun d => isinstance d DimRep = true) reps ->
  Forall (fun d => isinstance d DimRep = false) pre ->
  Forall (fun d => isinstance d DimRep = false) post ->
  let n1 := length pre in
  let m := length reps in
  let repsize := size_of (firstn m (skipn n1 (hf_shape A))) in
  assign_shape (buf A)
    (firstn n1 (hf_shape A) ++ repsize :: skipn (n1 + m) (hf_shape A))
  = np_set_shape (buf A)
      (firstn n1 (hf_shape A) ++ repsize :: skipn (n1 + m) (hf_shape A)) ->
  exists r,
    remove_rep DimRep_sized assign_shape A nm = Ok r /\
    dims r = pre ++ DimRep_sized nm repsize :: post /\
    hf_shape r
    = firstn n1 (hf_shape A) ++ repsize :: skipn (n1 + m) (hf_shape A) /\
    size_of (hf_shape r) = size_of (hf_shape A) /\
    forall idx,
      item (buf r) idx
      = item (buf A) (unravel (hf_shape A) (ravel (hf_shape r) idx)).
Proof.
  intros Hr Ho Hd Hne Hreps Hpre Hpost n1 m repsize Hassign.
  destruct reps as [| r0 reps']; [contradiction |].
  set (k := length reps') in *.
  assert (Hm : m = S k) by reflexivity.
  set (sh := hf_shape A) in *.
  assert (Hlen : length (dims A) = n1 + m + length post).
  { rewrite Hd, !length_app. fold n1. fold m. lia. }
  assert (Hsh : length sh = n1 + m + length post).
  { rewrite <- Hlen. symmetry. exact Hr. }
  assert (Hord : filter (fun kd => isinstance (snd kd) DimRep)
                        (enumerate (dims A))
                 = (n1, r0) :: combine (seq (S n1) k) reps').
  { unfold enumerate. rewrite Hd.
    rewrite combine_seq_app, filter_app.
    rewrite (filter_combine_none (fun d => isinstance d DimRep) pre 0 Hpre).
    rewrite combine_seq_app, filter_app.
    rewrite (filter_combine_all (fun d => isinstance d DimRep) _ _ Hreps).
    rewrite (filter_combine_none (fun d => isinstance d DimRep) post _ Hpost).
    rewrite app_nil_r. reflexivity. }
  assert (Hfst : map fst ((n1, r0) :: combine (seq (S n1) k) reps')
                 = seq n1 (S k)).
  { cbn [map fst seq]. f_equal. apply map_fst_combine_eq.
    now rewrite length_seq. }
  assert (Hsnd : map snd ((n1, r0) :: combine (seq (S n1) k) reps')
                 = r0 :: reps').
  { cbn [map snd]. f_equal. apply map_snd_combine_eq.
    now rewrite length_seq. }
  assert (Hfirst : firstn n1 (dims A) = pre).
  { rewrite Hd. apply firstn_length_app. }
  assert (Hskip : skipn (n1 + m) (dims A) = post).
  { rewrite Hd, app_assoc.
    replace (n1 + m) with (length (pre ++ r0 :: reps'))
      by (rewrite length_app; reflexivity).
    apply skipn_length_app. }
  assert (Hfront : pre ++ r0 :: reps' = pick (dims A) (seq 0 (n1 + m))).
  { rewrite pick_seq_firstn by lia. rewrite Hd, app_assoc.
    replace (n1 + m) with (length (pre ++ r0 :: reps'))
      by (rewrite length_app; reflexivity).
    symmetry. apply firstn_length_app. }
  destruct (reorder_positions_result A Hr Ho (seq 0 (n1 + m)))
    as [Hp Ere].
  { apply seq_NoDup. }
  { intros j Hj. apply in_seq in Hj. unfold hf_ndim, ndim.
    fold (hf_shape A). fold sh. lia. }
  set (p := seq 0 (n1 + m)
            ++ filter (fun j => negb (existsb (Nat.eqb j) (seq 0 (n1 + m))))
                      (seq 0 (hf_ndim A))) in *.
  assert (Hpick : length (pick (dims A) p) = ndim (buf A)).
  { destruct Hp as (Hl & _ & Hlt). rewrite pick_length.
    - exact Hl.
    - intros j Hj. rewrite Hr. now apply Hlt. }
  set (newshape := firstn n1 sh ++ repsize :: skipn (n1 + m) sh).
  assert (Hsplit : sh = firstn n1 sh ++ firstn m (skipn n1 sh)
                        ++ skipn (n1 + m) sh).
  { rewrite <- (firstn_skipn n1 sh) at 1. f_equal.
    rewrite <- (firstn_skipn m (skipn n1 sh)) at 1. f_equal.
    rewrite skipn_skipn. f_equal. lia. }
  assert (Hsize : size_of sh = size_of newshape).
  { rewrite Hsplit at 1. unfold newshape.
    rewrite !size_of_app. fold repsize.
    change (repsize :: skipn (n1 + m) sh)
      with ([repsize] ++ skipn (n1 + m) sh).
    rewrite size_of_app. unfold size_of at 4. cbn [fold_right]. lia. }
  exists (mk_hfarray
            (mk_ndarray newshape
               (fun idx => item (buf A) (unravel sh (ravel newshape idx))))
            (pre ++ DimRep_sized nm repsize :: post)).
  split; [| split; [reflexivity | split; [reflexivity |
                                          split; [| reflexivity]]]].
  2:{ cbn [hf_shape buf shape]. now rewrite Hsize. }
  unfold remove_rep. cbv zeta. rewrite Hord, Hfst, Hsnd, Hfirst.
  rewrite (last_seq n1 k n1).
  replace (S (n1 + k)) with (n1 + m) by lia.
  rewrite Hskip, Hfront, Ere. cbn [bind dims].
  rewrite hfarray_new_explicit by exact Hpick. cbn [bind].
  change ((n1, r0) :: combine (seq (S n1) k) reps')
    with (combine (seq n1 (length (r0 :: reps'))) (r0 :: reps')).
  rewrite (mapM_getitem_segment (hf_shape A) (r0 :: reps') n1)
    by (fold sh; cbn [length]; fold k; lia).
  cbn [bind]. fold sh. change (length (r0 :: reps')) with m.
  fold repsize. fold newshape. fold newshape in Hassign. rewrite Hassign.
  unfold np_set_shape. fold (hf_shape A). fold sh.
  rewrite Hsize, Nat.eqb_refl. cbn [bind].
  apply hfarray_new_explicit.
  unfold ndim. cbn [buffer_of shape]. unfold newshape.
  rewrite !length_app. cbn [length].
  rewrite length_firstn, length_skipn, Hsh. fold n1. lia.
Qed.

(** [remove_rep] on an array without a repetition dimension returns the
    array as it is. *)
Lemma remove_rep_without_rep (A : hfarray T) (nm : string) :
  rank_ok A ->
  Forall (fun d => isinstance d DimRep = false) (dims A) ->
  remove_rep DimRep_sized assign_shape A nm = Ok A.
Proof.
  intros Hr Hno. unfold remove_rep. cbv zeta. unfold enumerate.
  rewrite (filter_combine_none (fun d => isinstance d DimRep) _ 0 Hno).
  rewrite hfarray_new_explicit by exact Hr.
  cbn [buffer_of]. now destruct A.
Qed.
End RemoveRep.

Lemma remove_rep_merges_witness :
  exists r,
    remove_rep (M := spec_dim_module)
               (fun nm n => mkDim DimRep nm (range n) None)
               (@np_set_shape Z) ex_RR "AllReps"
    = Ok r /\
    dims r = [mkDim DimRep "AllReps" (range 4) None] /\
    hf_shape r = [4].
Proof.
  destruct (remove_rep_merges (M := spec_dim_module)
              (fun nm n => mkDim DimRep nm (range n) None)
              (@np_set_shape Z)
              ex_RR [] [rep2; trial2] [] "AllReps")
    as (r & E & D & S & _).
  - reflexivity.
  - intros [| [| i]] [| [| j]] di dj Hi Hj E; simpl in Hi, Hj;
      try reflexivity;
      try (destruct i; discriminate Hi); try (destruct j; discriminate Hj);
      injection Hi as <-; injection Hj as <-; discriminate E.
  - reflexivity.
  - discriminate.
  - repeat constructor.
  - constructor.
  - constructor.
  - reflexivity.
  - exists r. split; [exact E |]. split; [exact D | exact S].
Defined.

Lemma remove_rep_without_rep_witness :
  remove_rep (M := spec_dim_module)
             (fun nm n => mkDim DimRep nm (range n) None)
             (@np_set_shape Z) ex_S "AllReps"
  = Ok ex_S.
Proof.
  apply (remove_rep_without_rep (M := spec_dim_module)).
  - reflexivity.
  - repeat constructor.
Defined.

(* ================================================================== *)
(** * The SP-data reader: [tokenize] and [group_blocks] *)

Lemma prefix_bang (c : ascii) (rest : string) :
  prefix "!" (String c rest) = true -> c = "!"%char.
Proof.
  cbn [prefix]. destruct (ascii_dec "!" c) as [<- | _];
    [reflexivity | discriminate].
Qed.

(** One round of the loop of [tokenize]: a line that is passed over gives
    no token, any other line the token with its number, its text and the
    tag of the way it begins. *)
Lemma tokenize_line_cases (lineno : nat) (rad : string) :
  match tokenize_line lineno rad with
  | None => skipped_line rad = true
  | Some t =>
      skipped_line rad = false /\
      tok_lineno t = lineno /\
      token_source t = rad /\
      tok_tag t = line_tag rad
  end.
Proof.
  unfold tokenize_line, skipped_line, line_tag, token_source.
  destruct rad as [| c rest]; [reflexivity |].
  destruct (prefix "!Fullcomments" (String c rest)
            || prefix "!PROPERTIES" (String c rest)); [reflexivity |].
  destruct (prefix "!END-PROPERTIES" (String c rest));
    [repeat split |].
  destruct (prefix "!" (String c rest)) eqn:Ebang.
  - apply prefix_bang in Ebang. subst c. repeat split.
  - destruct (reg_header_match c); repeat split.
Qed.

Lemma tokenize_from (s : nat) (stream : list string) :
  let toks :=
    flat_map (fun ir : nat * string =>
                match tokenize_line (fst ir + 1) (strip (snd ir)) with
                | Some t => [t]
                | None => []
                end)
             (combine (seq s (length stream)) stream) in
  map (fun t => (tok_lineno t, token_source t)) toks
  = map (fun il : nat * string => (fst il + 1, strip (snd il)))
        (filter (fun il => negb (skipped_line (strip (snd il))))
                (combine (seq s (length stream)) stream)) /\
  Forall (fun t => tok_tag t = line_tag (token_source t)) toks /\
  StronglySorted lt (map tok_lineno toks) /\
  forall t, In t toks -> s < tok_lineno t.
Proof.
  revert s. induction stream as [| line stream IH]; intros s; cbn zeta.
  - repeat split; try constructor. intros t [].
  - cbn [length seq combine flat_map filter fst snd].
    destruct (IH (S s)) as (Hm & Ht & Hs & Hgt). cbn zeta in Hm, Ht, Hs, Hgt.
    pose proof (tokenize_line_cases (s + 1) (strip line)) as Hc.
    destruct (tokenize_line (s + 1) (strip line)) as [t |].
    + destruct Hc as (Hk & Hl & Hsrc & Htag). rewrite Hk.
      cbn [negb app map fst snd]. rewrite Hl, Hsrc, Hm.
      split; [reflexivity |]. split; [| split].
      * constructor; [congruence | exact Ht].
      * constructor; [exact Hs |].
        apply Forall_forall. intros n Hn.
        apply in_map_iff in Hn as (t' & <- & Ht'). apply Hgt in Ht'. lia.
      * intros t' [<- | Ht']; [lia |]. apply Hgt in Ht'. lia.
    + rewrite Hc. cbn [negb app].
      split; [exact Hm |]. split; [exact Ht |]. split; [exact Hs |].
      intros t' Ht'. apply Hgt in Ht'. lia.
Qed.

(** X29: [tokenize] yields one token for every line of the stream that,
    without its surrounding white space, is neither empty nor begins with
    [!Fullcomments] or [!PROPERTIES], in the order of the lines, and
    nothing else.  The token carries the number of its line (counted from
    1) and the stripped text of the line, a comment without its leading
    [!]; its tag is [ENDPROP] for a line that begins with
    [!END-PROPERTIES], [Comment] for any other line that begins with [!],
    [Header] for a line that begins with a letter or an underscore and
    [Data] otherwise.  So the line numbers of the tokens increase
    strictly. *)
Theorem tokenize_tokens (stream : list string) :
  map (fun t => (tok_lineno t, token_source t)) (tokenize stream)
  = map (fun il : nat * string => (fst il + 1, strip (snd il)))
        (filter (fun il => negb (skipped_line (strip (snd il))))
                (enumerate stream)) /\
  Forall (fun t => tok_tag t = line_tag (token_source t))
         (tokenize stream) /\
  StronglySorted lt (map tok_lineno (tokenize stream)).
Proof.
  destruct (tokenize_from 0 stream) as (Hm & Ht & Hs & _).
  split; [exact Hm |]. split; [exact Ht | exact Hs].
Qed.

Lemma tokenize_tokens_witness :
  map (fun t => (tok_lineno t, token_source t))
      (tokenize [" !Fullcomments"; "!note "; ""; " freq"; "1"]%string)
  = [(2, "!note"); (4, "freq"); (5, "1")]%string.
Proof.
  exact (proj1 (tokenize_tokens
                  [" !Fullcomments"; "!note "; ""; " freq"; "1"]%string)).
Defined.

Lemma has_tag_tok_tag (g : Tag) (t : Token) :
  has_tag g t = true <-> tok_tag t = g.
Proof.
  unfold has_tag. destruct g, (tok_tag t); split; congruence.
Qed.

Lemma has_tag_other (g h : Tag) (t : Token) :
  tok_tag t = h -> g <> h -> has_tag g t = false.
Proof.
  intros E Hne. destruct (has_tag g t) eqn:F; [| reflexivity].
  apply has_tag_tok_tag in F. congruence.
Qed.

Lemma has_tag_excl (g h : Tag) (t : Token) :
  has_tag g t = true -> g <> h -> has_tag h t = false.
Proof.
  intros E Hne. apply has_tag_tok_tag in E.
  apply (has_tag_other h g t E). congruence.
Qed.

Lemma first_other_unique (P : Token -> bool) (l1 : list Token) :
  forall l2 a b r1 r2,
    Forall (fun t => P t = true) l1 -> Forall (fun t => P t = true) l2 ->
    P a = false -> P b = false ->
    l1 ++ a :: r1 = l2 ++ b :: r2 -> l1 = l2 /\ a = b /\ r1 = r2.
Proof.
  induction l1 as [| x l1 IH]; intros [| y l2] a b r1 r2 H1 H2 Ha Hb E;
    cbn [app] in E; injection E as E1 E2.
  - auto.
  - subst. inversion H2; congruence.
  - subst. inversion H1; congruence.
  - subst y. inversion H1; inversion H2; subst.
    destruct (IH l2 a b r1 r2) as (-> & -> & ->); auto.
Qed.

Lemma all_no_other (P : Token -> bool) (l cs : list Token) a r :
  Forall (fun t => P t = true) l -> P a = false -> l <> cs ++ a :: r.
Proof.
  intros H Ha E. subst l. apply Forall_app in H as [_ H].
  inversion H; congruence.
Qed.

Lemma run_unique (P : Token -> bool) (l1 : list Token) :
  forall l2 r1 r2,
    Forall (fun t => P t = true) l1 -> Forall (fun t => P t = true) l2 ->
    (forall t r, r1 = t :: r -> P t = false) ->
    (forall t r, r2 = t :: r -> P t = false) ->
    l1 ++ r1 = l2 ++ r2 -> l1 = l2 /\ r1 = r2.
Proof.
  induction l1 as [| x l1 IH]; intros [| y l2] r1 r2 H1 H2 M1 M2 E;
    cbn [app] in E.
  - auto.
  - subst r1. inversion H2; subst. specialize (M1 _ _ eq_refl). congruence.
  - subst r2. inversion H1; subst. specialize (M2 _ _ eq_refl). congruence.
  - injection E as <- E. inversion H1; inversion H2; subst.
    destruct (IH l2 r1 r2) as (-> & ->); auto.
Qed.

Section GroupBlocksFacts.
Variable V : Type.
Variable to_numeric : string -> V.

Lemma comment_loop_None (rest : list Token) :
  forall cur cs,
    comment_loop rest cur cs = None ->
    Forall (fun t => has_tag Comment t = true) (cur :: rest).
Proof.
  induction rest as [| t rest IH]; intros cur cs H; cbn [comment_loop] in H;
    destruct (tok_tag cur) eqn:Et; try discriminate.
  - constructor; [now apply has_tag_tok_tag | constructor].
  - constructor; [now apply has_tag_tok_tag | eapply IH; eauto].
Qed.

Lemma comment_loop_Some (rest : list Token) :
  forall cur cs cs' cur' rest',
    comment_loop rest cur cs = Some (cs', cur', rest') ->
    exists cc,
      cur :: rest = cc ++ cur' :: rest' /\
      Forall (fun t => has_tag Comment t = true) cc /\
      cs' = cs ++ map tok_rad cc /\
      has_tag Comment cur' = false.
Proof.
  induction rest as [| t rest IH]; intros cur cs cs' cur' rest' H;
    cbn [comment_loop] in H; destruct (tok_tag cur) eqn:Et;
    try discriminate;
    try (injection H as <- <- <-; exists [];
         split; [reflexivity |]; split; [constructor |];
         split; [cbn [map]; now rewrite app_nil_r |];
         apply (has_tag_other Comment _ cur Et); discriminate).
  apply IH in H as (cc & E & Hcc & Ecs & Hc).
  exists (cur :: cc). split; [cbn [app]; now rewrite E |].
  split; [constructor; [now apply has_tag_tok_tag | exact Hcc] |].
  split; [| exact Hc].
  rewrite Ecs, <- app_assoc. reflexivity.
Qed.

Lemma data_loop_result (rest : list Token) :
  forall cur rows,
    let (rows', running) := data_loop to_numeric rest cur rows in
    exists dd,
      Forall (fun t => has_tag Data t = true) dd /\
      rows' = rows ++ map (data_row to_numeric) dd /\
      match running with
      | None => cur :: rest = dd
      | Some (cur', rest') =>
          cur :: rest = dd ++ cur' :: rest' /\ has_tag Data cur' = false
      end.
Proof.
  induction rest as [| t rest IH]; intros cur rows; cbn [data_loop];
    destruct (tok_tag cur) eqn:Et;
    try (exists []; split; [constructor |];
         split; [cbn [map]; now rewrite app_nil_r |];
         split; [reflexivity |];
         apply (has_tag_other Data _ cur Et); discriminate).
  - exists [cur]. split; [repeat constructor; now apply has_tag_tok_tag |].
    split; reflexivity.
  - specialize (IH t (rows ++ [map to_numeric (split_on "009" (tok_rad cur))])).
    destruct (data_loop to_numeric rest t
                (rows ++ [map to_numeric (split_on "009" (tok_rad cur))]))
      as [rows' running].
    destruct IH as (dd & Hdd & Er & Hrun).
    exists (cur :: dd).
    split; [constructor; [now apply has_tag_tok_tag | exact Hdd] |].
    split; [rewrite Er, <- app_assoc; reflexivity |].
    destruct running as [[cur' rest'] |].
    + destruct Hrun as [E Hd]. split; [cbn [app]; now rewrite E | exact Hd].
    + now rewrite Hrun.
Qed.

Lemma block_loop_groups (fuel : nat) :
  forall cur rest,
    length rest < fuel ->
    exists y,
      block_loop to_numeric fuel cur rest = Some y /\
      Groups to_numeric (cur :: rest) (yielded y) (raised y).
Proof.
  induction fuel as [| fuel IH]; intros cur rest Hf; [lia |].
  cbn [block_loop].
  destruct (comment_loop rest cur []) as [[[cs cur'] rest'] |] eqn:Ec.
  2:{ eexists. split; [reflexivity |]. cbn [yielded raised].
      apply Groups_ends_in_comments; [discriminate |].
      eapply comment_loop_None; eauto. }
  apply comment_loop_Some in Ec as (cc & E & Hcc & Ecs & Hc).
  cbn [app] in Ecs. subst cs. rewrite E.
  assert (Hlen : length cc + length rest' = length rest).
  { apply (f_equal (@length Token)) in E.
    rewrite length_app in E. cbn [length] in E. lia. }
  destruct (tok_tag cur') eqn:Et.
  - (* ENDPROP *)
    apply has_tag_tok_tag in Et.
    destruct rest' as [| t rest''].
    + eexists. split; [reflexivity |]. cbn [yield_then yielded raised].
      apply Groups_endprop; [exact Hcc | exact Et | constructor].
    + destruct (IH t rest'') as (y & Ey & Hy); [cbn [length] in Hlen; lia |].
      rewrite Ey. eexists. split; [reflexivity |].
      cbn [yield_then yielded raised].
      apply Groups_endprop; [exact Hcc | exact Et | exact Hy].
  - (* Comment *)
    apply has_tag_tok_tag in Et. congruence.
  - (* Header *)
    apply has_tag_tok_tag in Et.
    destruct rest' as [| t rest''].
    + eexists. split; [reflexivity |]. cbn [yielded raised].
      apply Groups_ends_in_header; [exact Hcc | exact Et].
    + pose proof (data_loop_result rest'' t []) as Hd.
      destruct (data_loop to_numeric rest'' t []) as [rows running].
      destruct Hd as (dd & Hdd & Er & Hrun). cbn [app] in Er. subst rows.
      destruct running as [[cur2 rest2] |].
      * destruct Hrun as [E2 Hd2].
        assert (Hlen2 : length dd + S (length rest2) = S (length rest'')).
        { apply (f_equal (@length Token)) in E2.
          rewrite length_app in E2. cbn [length] in E2. lia. }
        destruct (IH cur2 rest2) as (y & Ey & Hy);
          [cbn [length] in Hlen; lia |].
        rewrite Ey. eexists. split; [reflexivity |].
        cbn [yield_then yielded raised]. rewrite E2.
        apply Groups_header; auto.
        -- intros F. apply app_eq_nil in F as [_ F]. discriminate.
        -- intros t0 r0 F. injection F as <- <-. exact Hd2.
      * eexists. split; [reflexivity |].
        cbn [yield_then yielded raised]. rewrite Hrun.
        rewrite <- (app_nil_r dd) at 1.
        apply Groups_header; auto.
        -- rewrite app_nil_r, <- Hrun. discriminate.
        -- intros t0 r0 F. discriminate.
        -- constructor.
  - (* Data *)
    apply has_tag_tok_tag in Et.
    eexists. split; [reflexivity |]. cbn [yielded raised].
    apply Groups_missing_header; [exact Hcc | exact Et].
Qed.

Lemma map_token_line_comments (cs : list Token) :
  Forall (fun t => has_tag Comment t = true) cs ->
  map (token_line to_numeric) cs = map CommentLine (map tok_rad cs).
Proof.
  induction 1 as [| t cs Ht H IH]; [reflexivity |].
  cbn [map]. rewrite IH. f_equal. unfold token_line.
  apply has_tag_tok_tag in Ht. now rewrite Ht.
Qed.

Lemma map_token_line_data (ds : list Token) :
  Forall (fun t => has_tag Data t = true) ds ->
  map (token_line to_numeric) ds
  = map DataLine (map (data_row to_numeric) ds).
Proof.
  induction 1 as [| t ds Ht H IH]; [reflexivity |].
  cbn [map]. rewrite IH. f_equal. unfold token_line.
  apply has_tag_tok_tag in Ht. now rewrite Ht.
Qed.

Lemma Groups_facts (stream : list Token) (bs : list (Block V))
  (r : option SPDataIOError) :
  Groups to_numeric stream bs r ->
  Forall well_formed_block bs /\
  (r = None ->
   flat_map (block_contents (V := V)) bs
   = map (token_line to_numeric) stream).
Proof.
  induction 1 as [| cs e rest bs r Hcs He H [IHw IHc]
                  | cs h ds rest bs r Hcs Hh Hds Hne Hnd H [IHw IHc]
                  | cs Hne Hcs | cs h Hcs Hh | cs d more Hcs Hd].
  - split; [constructor | reflexivity].
  - split.
    + constructor; [| exact IHw]. cbn. split; [lia | intros F; now elim F].
    + intros Hr. cbn [flat_map block_contents].
      rewrite (IHc Hr), map_app, (map_token_line_comments cs Hcs).
      cbn [map]. rewrite <- app_assoc. cbn [app]. do 2 f_equal.
      unfold token_line. apply has_tag_tok_tag in He. now rewrite He.
  - split.
    + constructor; [| exact IHw]. cbn. split; [lia | reflexivity].
    + intros Hr. cbn [flat_map block_contents].
      rewrite (IHc Hr), map_app, (map_token_line_comments cs Hcs).
      cbn [map]. rewrite map_app, (map_token_line_data ds Hds).
      rewrite <- !app_assoc. cbn [app]. do 2 f_equal.
      unfold token_line. apply has_tag_tok_tag in Hh. now rewrite Hh.
  - split; [constructor | discriminate].
  - split; [constructor | discriminate].
  - split; [constructor | discriminate].
Qed.

Lemma Groups_nil (bs : list (Block V)) (r : option SPDataIOError) :
  Groups to_numeric [] bs r -> bs = [] /\ r = None.
Proof.
  intros G. remember [] as s eqn:Es.
  destruct G; try (now auto);
    try (exfalso; symmetry in Es; apply app_cons_not_nil in Es; exact Es).
Qed.

Lemma Groups_all_comments (cs : list Token) (bs : list (Block V))
  (r : option SPDataIOError) :
  cs <> [] -> Forall (fun t => has_tag Comment t = true) cs ->
  Groups to_numeric cs bs r -> bs = [] /\ r = Some FileEndsInComments.
Proof.
  intros Hne Hcs G.
  destruct G as [| cs' e rest bs r Hcs' He G
                 | cs' h ds rest bs r Hcs' Hh Hds Hne' Hnd G
                 | cs' Hne' Hcs' | cs' h Hcs' Hh | cs' d more Hcs' Hd];
    try (now auto); try congruence; exfalso.
  - eapply (all_no_other (has_tag Comment)); [exact Hcs | | reflexivity].
    apply (has_tag_excl ENDPROP); [exact He | discriminate].
  - eapply (all_no_other (has_tag Comment)); [exact Hcs | | reflexivity].
    apply (has_tag_excl Header); [exact Hh | discriminate].
  - eapply (all_no_other (has_tag Comment)); [exact Hcs | | reflexivity].
    apply (has_tag_excl Header); [exact Hh | discriminate].
  - eapply (all_no_other (has_tag Comment)); [exact Hcs | | reflexivity].
    apply (has_tag_excl Data); [exact Hd | discriminate].
Qed.

Lemma Groups_step (cs : list Token) (x : Token) (m : list Token)
  (bs : list (Block V)) (r : option SPDataIOError) :
  Forall (fun t => has_tag Comment t = true) cs ->
  has_tag Comment x = false ->
  Groups to_numeric (cs ++ x :: m) bs r ->
  match tok_tag x with
  | ENDPROP =>
      exists bs0, bs = (map tok_rad cs, [], []) :: bs0 /\
                  Groups to_numeric m bs0 r
  | Header =>
      (m = [] /\ bs = [] /\ r = Some FileEndsInHeader) \/
      (exists ds rest bs0,
          m = ds ++ rest /\ m <> [] /\
          Forall (fun t => has_tag Data t = true) ds /\
          (forall t rest', rest = t :: rest' -> has_tag Data t = false) /\
          bs = (map tok_rad cs, [tok_rad x],
                map (data_row to_numeric) ds) :: bs0 /\
          Groups to_numeric rest bs0 r)
  | Data => bs = [] /\ r = Some MissingHeader
  | Comment => False
  end.
Proof.
  intros Hcs Hx G. remember (cs ++ x :: m) as s eqn:Es.
  destruct G as [| cs' e rest bs r Hcs' He G
                 | cs' h ds rest bs r Hcs' Hh Hds Hne' Hnd G
                 | cs' Hne' Hcs' | cs' h Hcs' Hh | cs' d more Hcs' Hd].
  - exfalso. apply app_cons_not_nil in Es. exact Es.
  - apply first_other_unique with (P := has_tag Comment) in Es as (E1 & E2 & E3);
      auto; [| apply (has_tag_excl ENDPROP); [exact He | discriminate]].
    subst. apply has_tag_tok_tag in He. rewrite He. eauto.
  - apply first_other_unique with (P := has_tag Comment) in Es as (E1 & E2 & E3);
      auto; [| apply (has_tag_excl Header); [exact Hh | discriminate]].
    subst. apply has_tag_tok_tag in Hh. rewrite Hh. right.
    exists ds, rest, bs. repeat split; auto.
  - exfalso. eapply (all_no_other (has_tag Comment)); [exact Hcs' | exact Hx |].
    exact Es.
  - apply first_other_unique with (P := has_tag Comment) in Es as (E1 & E2 & E3);
      auto; [| apply (has_tag_excl Header); [exact Hh | discriminate]].
    subst. apply has_tag_tok_tag in Hh. rewrite Hh. left. auto.
  - apply first_other_unique with (P := has_tag Comment) in Es as (E1 & E2 & E3);
      auto; [| apply (has_tag_excl Data); [exact Hd | discriminate]].
    subst. apply has_tag_tok_tag in Hd. rewrite Hd. auto.
Qed.

Lemma Groups_functional (stream : list Token) (bs : list (Block V))
  (r : option SPDataIOError) :
  Groups to_numeric stream bs r ->
  forall bs' r', Groups to_numeric stream bs' r' -> bs = bs' /\ r = r'.
Proof.
  induction 1 as [| cs e rest bs r Hcs He H IH
                  | cs h ds rest bs r Hcs Hh Hds Hne Hnd H IH
                  | cs Hne Hcs | cs h Hcs Hh | cs d more Hcs Hd];
    intros bs' r' G.
  - apply Groups_nil in G as [-> ->]. auto.
  - apply Groups_step in G;
      [| exact Hcs | apply (has_tag_excl ENDPROP); [exact He | discriminate]].
    apply has_tag_tok_tag in He. rewrite He in G.
    destruct G as (bs0 & -> & G). destruct (IH _ _ G) as [-> ->]. auto.
  - apply Groups_step in G;
      [| exact Hcs | apply (has_tag_excl Header); [exact Hh | discriminate]].
    apply has_tag_tok_tag in Hh. rewrite Hh in G.
    destruct G as [(E & _) | (ds' & rest' & bs0 & E & _ & Hds' & Hnd' & -> & G)];
      [congruence |].
    apply run_unique with (P := has_tag Data) in E as [-> ->]; auto.
    destruct (IH _ _ G) as [-> ->]. auto.
  - apply Groups_all_comments in G as [-> ->]; auto.
  - change (cs ++ [h]) with (cs ++ h :: []) in G.
    apply Groups_step in G;
      [| exact Hcs | apply (has_tag_excl Header); [exact Hh | discriminate]].
    apply has_tag_tok_tag in Hh. rewrite Hh in G.
    destruct G as [(_ & -> & ->) | (ds' & rest' & bs0 & _ & F & _)];
      [auto | congruence].
  - apply Groups_step in G;
      [| exact Hcs | apply (has_tag_excl Data); [exact Hd | discriminate]].
    apply has_tag_tok_tag in Hd. rewrite Hd in G.
    destruct G as [-> ->]. auto.
Qed.
(** X30: [group_blocks] runs to its end on every token stream (its loop
    needs no more rounds than the stream has tokens), and the blocks it
    yields and the way it ends are the grouping of the stream, which is
    unique: one block of comments for every run of comments closed by an
    [ENDPROP] token, one block of comments, header and data rows for every
    run of comments closed by a header together with all the data tokens
    that follow it (every text unchanged, every data line split at the
    tabs and converted), in the order of the stream; no error when the
    stream is used up this way, "File can not end in comments" when what
    is left is a run of comments, "File can not end in header" when it is
    a run of comments and a header that is the last token, "Missing
    header" when a run of comments is followed by a data token.  So every
    block has at most one header line and data rows only under a header,
    and when the iteration ends without an error the lines of the blocks
    are exactly the lines of the tokens of the stream, in their order. *)
Theorem group_blocks_accounts_for_tokens (stream : list Token) :
  exists y,
    group_blocks to_numeric stream = Some y /\
    Groups to_numeric stream (yielded y) (raised y) /\
    (forall bs r, Groups to_numeric stream bs r ->
                  bs = yielded y /\ r = raised y) /\
    Forall well_formed_block (yielded y) /\
    (raised y = None ->
     flat_map (block_contents (V := V)) (yielded y)
     = map (token_line to_numeric) stream).
Proof.
  assert (H : exists y, group_blocks to_numeric stream = Some y /\
                        Groups to_numeric stream (yielded y) (raised y)).
  { destruct stream as [| t rest].
    - eexists. split; [reflexivity | constructor].
    - cbn [group_blocks]. apply block_loop_groups. lia. }
  destruct H as (y & E & G). exists y.
  split; [exact E |]. split; [exact G |].
  split; [| exact (Groups_facts _ _ _ G)].
  intros bs r G'. destruct (Groups_functional _ _ _ G' _ _ G) as [-> ->].
  auto.
Qed.
End GroupBlocksFacts.

Lemma group_blocks_accounts_for_tokens_witness :
  exists y,
    group_blocks (fun s : string => s)
      [mkToken Comment 1 "note"; mkToken Header 2 "freq";
       mkToken Data 3 "1"; mkToken ENDPROP 4 "!END-PROPERTIES"]
    = Some y /\
    flat_map (block_contents (V := string)) (yielded y)
    = [CommentLine "note"; HeaderLine "freq"; DataLine ["1"%string];
       EndPropLine].
Proof.
  destruct (group_blocks_accounts_for_tokens string (fun s : string => s)
              [mkToken Comment 1 "note"; mkToken Header 2 "freq";
               mkToken Data 3 "1"; mkToken ENDPROP 4 "!END-PROPERTIES"])
    as (y & E & _ & _ & _ & N).
  exists y. split; [exact E |].
  rewrite N; [reflexivity |].
  vm_compute in E. injection E as <-. reflexivity.
Defined.

(** A file of one comment, one header, two rows of two columns and a
    closing [!END-PROPERTIES] line: two blocks, no error. *)
Example read_two_blocks :
  let tab := String "009"%char EmptyString in
  group_blocks (fun s : string => s)
    (tokenize ["!Measured twice"; ("freq" ++ tab ++ "S11")%string; "";
               ("1" ++ tab ++ "0.5 ")%string; ("2" ++ tab ++ "0.25")%string;
               "!END-PROPERTIES"]%string)
  = Some (mkYielded
            [(["Measured twice"], [("freq" ++ tab ++ "S11")],
              [["1"; "0.5"]; ["2"; "0.25"]]);
             ([], [], [])]%string
            None).
Proof. reflexivity. Qed.

(** A file that ends in a comment: the block before it is yielded, then
    the reader raises. *)
Example read_trailing_comment :
  group_blocks (fun s : string => s)
    (tokenize ["freq"; "1"; "! the end"]%string)
  = Some (mkYielded [([], ["freq"], [["1"]])]%string
                    (Some FileEndsInComments)).
Proof. reflexivity. Qed.
